(** * traefik-throttle: a shallow embedding of the admission-control middleware

    The development follows the Go sources:
    - [config.go]: [Config], [CreateConfig], [loadConfigFromFile];
    - [utils.go]: [parseDurationOrDefault], [parseDurationWithFallback],
      [getUserIDFromJWT];
    - the middleware file: [New], [ServeHTTP], [applyUserLimits],
      [applyRateLimiting], [getEndpointConfig];
    - the state file: [Throttle], [endpointState], [UserState].

    Go's [int] and [time.Duration] are 64-bit signed integers; they are
    modelled as [Z] with the wrap-around of [++] and [--] written out.
    A mutex-protected critical section is one atomic step of the thread
    that runs it; everything a goroutine does between two critical sections
    touches only its own local variables. *)

From Stdlib Require Import ZArith Lia Bool List Ascii String.
From stdpp Require Import gmap strings list.

Local Open Scope Z_scope.

(** ** Go integers *)

Module GoInt.

Definition min_int : Z := -9223372036854775808.
Definition max_int : Z := 9223372036854775807.

(** Two's complement reduction of a mathematical integer to 64 bits. *)
Definition wrap (x : Z) : Z :=
  (x + 9223372036854775808) mod 18446744073709551616 - 9223372036854775808.

(** [x++] and [x--]. *)
Definition incr (x : Z) : Z := wrap (x + 1).
Definition decr (x : Z) : Z := wrap (x - 1).

Definition in_range (x : Z) : Prop := min_int <= x <= max_int.

End GoInt.

(** [time.Duration] counts nanoseconds. *)
Definition Duration := Z.
Definition Millisecond : Duration := 1000000.
Definition Second : Duration := 1000000000.

(** [http.StatusTooManyRequests] *)
Definition StatusTooManyRequests : Z := 429.

(** The log levels of [utils.go]. *)
Inductive LogLevel := LogLevelDebug | LogLevelWarning | LogLevelError.

(** Go's [error], by its message. *)
Definition error := string.

Inductive result (A : Type) :=
| Ok (a : A)
| Err (e : error).
Arguments Ok {A} a.
Arguments Err {A} e.

(** A call returns, or panics and unwinds the goroutine. *)
Inductive outcome (A : Type) :=
| Returns (a : A)
| Panics.
Arguments Returns {A} a.
Arguments Panics {A}.

(** What the middleware does that can be seen from outside a function, in
    program order. *)
Inductive event :=
| Attempt (attempt : Z)        (* an iteration of the retry loop takes the lock *)
| ReqInc                       (* state.requestsCount++ *)
| ReqDec                       (* state.requestsCount-- *)
| QueueInc                     (* state.queueCount++ *)
| QueueDec                     (* state.queueCount-- *)
| Forward                      (* t.next.ServeHTTP(rw, req) *)
| SleepFor (d : Duration)      (* time.Sleep(d) *)
| AfterFunc (d : Duration)     (* time.AfterFunc(d, release) *)
| HeaderAdd (key value : string)   (* rw.Header().Add(key, value) *)
| Log (level : LogLevel) (message : string) (err : option error)
| WriteHeader (status : Z).    (* rw.WriteHeader(status) *)

(** ** Endpoint tier: [endpointState] and [applyRateLimiting] *)

Module Endpoint.

(** [endpointState]; the [mutex] field is the atomicity of [step] below. *)
Record endpointState := mkEndpointState {
  maxRequests : Z;
  maxQueue : Z;
  retryCount : Z;
  retryDelay : Duration;
  requestsCount : Z;
  queueCount : Z
}.

Definition set_requestsCount (v : Z) (s : endpointState) : endpointState :=
  {| maxRequests := maxRequests s; maxQueue := maxQueue s;
     retryCount := retryCount s; retryDelay := retryDelay s;
     requestsCount := v; queueCount := queueCount s |}.

Definition set_queueCount (v : Z) (s : endpointState) : endpointState :=
  {| maxRequests := maxRequests s; maxQueue := maxQueue s;
     retryCount := retryCount s; retryDelay := retryDelay s;
     requestsCount := requestsCount s; queueCount := v |}.

(** The state a struct literal [&endpointState{maxRequests: .., maxQueue: ..,
    retryCount: .., retryDelay: ..}] denotes: both counters are zero. *)
Definition fresh (mr mq rc : Z) (rd : Duration) : endpointState :=
  {| maxRequests := mr; maxQueue := mq; retryCount := rc; retryDelay := rd;
     requestsCount := 0; queueCount := 0 |}.

(** The fields that no code writes after the state is created. *)
Definition same_policy (s s' : endpointState) : Prop :=
  maxRequests s' = maxRequests s /\ maxQueue s' = maxQueue s /\
  retryCount s' = retryCount s /\ retryDelay s' = retryDelay s.

(** How a request ends. *)
Inductive response :=
| Served                       (* the upstream handler produced the response *)
| Rejected (status : Z).       (* the middleware wrote the status *)

(** Where a goroutine running [applyRateLimiting] stands between two
    critical sections, with its local variables. *)
Inductive thread :=
| AtLoop (attempt : Z) (queued incrementedQueue : bool)
| InUpstream
| Finished (r : response).

(** [attempt := state.retryCount; queued := false; incrementedQueue := false] *)
Definition start (s : endpointState) : thread := AtLoop (retryCount s) false false.

(** One turn of a goroutine: the loop test, the critical section it guards,
    and the local work up to the next lock (sleep and [attempt--]) or to the
    return.  [InUpstream] steps when the upstream call completes and the
    deferred function runs. *)
Definition step (s : endpointState) (t : thread) : endpointState * thread * list event :=
  match t with
  | AtLoop attempt queued incrementedQueue =>
      if 0 <=? attempt then
        if requestsCount s <? maxRequests s then
          let s1 := set_requestsCount (GoInt.incr (requestsCount s)) s in
          let s2 := if queued then set_queueCount (GoInt.decr (queueCount s1)) s1 else s1 in
          (s2, InUpstream,
           Attempt attempt :: ReqInc :: (if queued then [QueueDec] else []) ++ [Forward])
        else if negb incrementedQueue then
          let reserve := queueCount s <? maxQueue s in
          let s1 := if reserve then set_queueCount (GoInt.incr (queueCount s)) s else s in
          let queued1 := if reserve then true else queued in
          let incrementedQueue1 := if reserve then true else incrementedQueue in
          let ev := Attempt attempt :: (if reserve then [QueueInc] else []) in
          if maxQueue s1 <=? queueCount s1 then
            (s1, Finished (Rejected StatusTooManyRequests),
             ev ++ [Log LogLevelDebug "Queue limit reached for endpoint" None;
                    WriteHeader StatusTooManyRequests])
          else
            (s1, AtLoop (GoInt.decr attempt) queued1 incrementedQueue1,
             ev ++ [SleepFor (retryDelay s1)])
        else
          (s, AtLoop (GoInt.decr attempt) queued incrementedQueue,
           [Attempt attempt; SleepFor (retryDelay s)])
      else
        let s1 := if queued then set_queueCount (GoInt.decr (queueCount s)) s else s in
        (s1, Finished (Rejected StatusTooManyRequests),
         (if queued then [QueueDec] else []) ++
         [Log LogLevelDebug "Request denied after all retry attempts" None;
          WriteHeader StatusTooManyRequests])
  | InUpstream =>
      (set_requestsCount (GoInt.decr (requestsCount s)) s, Finished Served, [ReqDec])
  | Finished r => (s, Finished r, [])
  end.

(** A request run with nothing else touching the state between its turns. *)
Fixpoint run_alone (fuel : nat) (s : endpointState) (t : thread)
  : endpointState * thread * list event :=
  match fuel with
  | O => (s, t, [])
  | S fuel' =>
      let '(s1, t1, ev1) := step s t in
      let '(s2, t2, ev2) := run_alone fuel' s1 t1 in
      (s2, t2, ev1 ++ ev2)
  end.

(** A request run under interference: [obs] lists the shared state as the
    goroutine finds it at each of its turns (whatever other goroutines made
    of it in between). *)
Fixpoint run_with (obs : list endpointState) (t : thread) : thread * list event :=
  match obs with
  | [] => (t, [])
  | s :: obs' =>
      let '(_, t1, ev1) := step s t in
      let '(t2, ev2) := run_with obs' t1 in
      (t2, ev1 ++ ev2)
  end.

(** Counting over a trace. *)
Definition is_attempt (e : event) : bool := match e with Attempt _ => true | _ => false end.
Definition is_reqInc (e : event) : bool := match e with ReqInc => true | _ => false end.
Definition is_reqDec (e : event) : bool := match e with ReqDec => true | _ => false end.
Definition is_queueInc (e : event) : bool := match e with QueueInc => true | _ => false end.
Definition is_queueDec (e : event) : bool := match e with QueueDec => true | _ => false end.
Definition is_forward (e : event) : bool := match e with Forward => true | _ => false end.
Definition is_sleep (e : event) : bool := match e with SleepFor _ => true | _ => false end.
Definition is_reject (e : event) : bool :=
  match e with WriteHeader c => c =? StatusTooManyRequests | _ => false end.
Definition is_exhausted (e : event) : bool :=
  match e with
  | Log _ m _ => String.eqb m "Request denied after all retry attempts"
  | _ => false
  end.
Definition is_queueFull (e : event) : bool :=
  match e with
  | Log _ m _ => String.eqb m "Queue limit reached for endpoint"
  | _ => false
  end.

Definition count (p : event -> bool) (tr : list event) : nat := length (List.filter p tr).

(** The values the attempt counter had at the attempts, in order. *)
Definition attempt_values (tr : list event) : list Z :=
  flat_map (fun e => match e with Attempt a => [a] | _ => [] end) tr.

(** Time spent in [time.Sleep]: a zero or negative duration returns at once. *)
Definition time_asleep (tr : list event) : Z :=
  fold_right (fun e acc => match e with SleepFor d => Z.max 0 d + acc | _ => acc end) 0 tr.

(** [countdown n a] is [a, a-1, ..] of length [n]. *)
Fixpoint countdown (n : nat) (a : Z) : list Z :=
  match n with
  | O => []
  | S n' => a :: countdown n' (a - 1)
  end.

(** The number of attempts a request may make. *)
Definition budget (P : endpointState) : Z := Z.max 0 (retryCount P + 1).



(** *** The goroutines sharing one state *)

Record system := mkSystem {
  shared : endpointState;
  pool : list thread
}.

Inductive action :=
| Arrive            (* a request enters [applyRateLimiting] with this state *)
| Turn (i : nat).   (* goroutine [i] takes its next turn *)

Definition sys_step (sys : system) (a : action) : system :=
  match a with
  | Arrive => {| shared := shared sys; pool := pool sys ++ [start (shared sys)] |}
  | Turn i =>
      match pool sys !! i with
      | Some t =>
          let '(s', t', _) := step (shared sys) t in
          {| shared := s'; pool := <[i := t']> (pool sys) |}
      | None => sys
      end
  end.

(** An interleaving is a schedule; the system it leads to: *)
Definition sys_run (schedule : list action) (sys : system) : system :=
  fold_left sys_step schedule sys.

Definition in_upstream (t : thread) : bool :=
  match t with InUpstream => true | _ => false end.

(** Goroutines that hold a queue reservation they have yet to give back. *)
Definition holds_slot (t : thread) : bool :=
  match t with AtLoop _ queued _ => queued | _ => false end.

(** Requests currently inside the upstream handler. *)
Definition forwarded (sys : system) : Z :=
  Z.of_nat (length (List.filter in_upstream (pool sys))).

Definition reserved (sys : system) : Z :=
  Z.of_nat (length (List.filter holds_slot (pool sys))).

(** *** One request and its trace

    [local_inv P t tr] relates the place [t] a request has reached to the
    trace [tr] it has left so far, for the policy of [P]. *)

Definition quiet (tr : list event) : Prop :=
  count is_reqInc tr = 0%nat /\ count is_forward tr = 0%nat /\
  count is_reqDec tr = 0%nat.

Definition local_inv (P : endpointState) (t : thread) (tr : list event) : Prop :=
  let n := count is_attempt tr in
  attempt_values tr = countdown n (retryCount P) /\
  Z.of_nat n <= budget P /\
  time_asleep tr = Z.of_nat (count is_sleep tr) * Z.max 0 (retryDelay P) /\
  match t with
  | AtLoop a queued incrementedQueue =>
      a = retryCount P - Z.of_nat n /\
      queued = incrementedQueue /\
      (incrementedQueue = false -> n = 0%nat) /\
      count is_sleep tr = n /\
      count is_queueInc tr = (if queued then 1 else 0)%nat /\
      count is_queueDec tr = 0%nat /\
      quiet tr /\
      count is_reject tr = 0%nat /\
      count is_exhausted tr = 0%nat /\ count is_queueFull tr = 0%nat
  | InUpstream =>
      S (count is_sleep tr) = n /\
      count is_queueInc tr = count is_queueDec tr /\
      count is_reqInc tr = 1%nat /\ count is_forward tr = 1%nat /\
      count is_reqDec tr = 0%nat /\
      count is_reject tr = 0%nat /\
      count is_exhausted tr = 0%nat /\ count is_queueFull tr = 0%nat /\
      exists pre, tr = pre ++ [Forward] /\ count is_reqInc pre = 1%nat
  | Finished Served =>
      S (count is_sleep tr) = n /\
      count is_queueInc tr = count is_queueDec tr /\
      count is_reqInc tr = 1%nat /\ count is_forward tr = 1%nat /\
      count is_reqDec tr = 1%nat /\
      count is_reject tr = 0%nat /\
      count is_exhausted tr = 0%nat /\ count is_queueFull tr = 0%nat /\
      exists pre, tr = pre ++ [Forward; ReqDec] /\ count is_reqInc pre = 1%nat
  | Finished (Rejected status) =>
      status = StatusTooManyRequests /\
      quiet tr /\
      count is_reject tr = 1%nat /\
      ((count is_exhausted tr = 1%nat /\ count is_queueFull tr = 0%nat /\
        Z.of_nat n = budget P /\ count is_sleep tr = n /\
        count is_queueInc tr = count is_queueDec tr)
       \/
       (count is_exhausted tr = 0%nat /\ count is_queueFull tr = 1%nat /\
        n = 1%nat /\ count is_sleep tr = 0%nat /\
        count is_queueDec tr = 0%nat))
  end.

(** [1] for [true], [0] for [false]. *)
Definition b2z (b : bool) : Z := if b then 1 else 0.

(** What holds of the counters between any two critical sections. *)
Definition sys_inv (P : endpointState) (sys : system) : Prop :=
  same_policy P (shared sys) /\
  requestsCount (shared sys) = forwarded sys /\
  requestsCount (shared sys) <= maxRequests P /\
  reserved sys <= queueCount (shared sys) /\
  queueCount (shared sys) <= maxQueue P.

(** *** States to run the definitions on *)

(** A state whose single slot is taken by a request still in the upstream
    handler, with room for two reservations. *)
Definition busy_roomy : endpointState :=
  {| maxRequests := 1; maxQueue := 2; retryCount := 1; retryDelay := 50 * Millisecond;
     requestsCount := 1; queueCount := 0 |}.


(** The same with a queue of one. *)
Definition busy_single : endpointState :=
  {| maxRequests := 1; maxQueue := 1; retryCount := 1; retryDelay := 50 * Millisecond;
     requestsCount := 1; queueCount := 0 |}.

(** *** The shape of a trace

    What a request leaves while it waits: rounds of one attempt, the
    reservation when it is taken in that attempt, and the sleep. *)
Inductive waits (d : Duration) : list event -> Prop :=
| waits_nil : waits d []
| waits_round (a : Z) (reserve : bool) (tr : list event) :
    waits d tr ->
    waits d (tr ++ Attempt a :: (if reserve then [QueueInc] else []) ++ [SleepFor d]).

(** What it leaves after its last sleep, by the place it has reached. *)
Definition closing (t : thread) (rest : list event) : Prop :=
  match t with
  | AtLoop _ _ _ => rest = []
  | InUpstream =>
      exists (a : Z) (queued : bool),
        rest = Attempt a :: ReqInc :: (if queued then [QueueDec] else []) ++ [Forward]
  | Finished Served =>
      exists (a : Z) (queued : bool),
        rest = Attempt a :: ReqInc :: (if queued then [QueueDec] else []) ++ [Forward; ReqDec]
  | Finished (Rejected status) =>
      (exists (a : Z) (reserve : bool),
         rest = Attempt a :: (if reserve then [QueueInc] else []) ++
                [Log LogLevelDebug "Queue limit reached for endpoint" None;
                 WriteHeader status])
      \/
      (exists queued : bool,
         rest = (if queued then [QueueDec] else []) ++
                [Log LogLevelDebug "Request denied after all retry attempts" None;
                 WriteHeader status])
  end.

Definition trace_shape (d : Duration) (t : thread) (tr : list event) : Prop :=
  exists w rest, tr = w ++ rest /\ waits d w /\ closing t rest.


(** Queue slots that are counted in [queueCount] and held by no request. *)
Definition leaked (sys : system) : Z := queueCount (shared sys) - reserved sys.

(** A request that is past the retry loop without having slept. *)
Definition past_loop (t : thread) (tr : list event) : Prop :=
  (t = InUpstream \/ exists r, t = Finished r) /\
  count is_sleep tr = 0%nat /\ (count is_attempt tr <= 1)%nat.

(** A request that has not entered the loop, or is past it. *)
Definition never_waited (P : endpointState) (t : thread) (tr : list event) : Prop :=
  (t = start P /\ tr = []) \/ past_loop t tr.

(** A request that was turned away, or is about to be. *)
Definition turned_away (rc : Z) (t : thread) : Prop :=
  t = AtLoop rc false false \/ t = Finished (Rejected StatusTooManyRequests).

(** A request that has not been let through. *)
Definition held_back (t : thread) : Prop :=
  t <> InUpstream /\ t <> Finished Served.

End Endpoint.

(** ** User tier: [UserState] and the locked part of [applyUserLimits] *)

Module User.

(** [UserState]; [mutex] is the atomicity of the two functions below. *)
Record UserState := mkUserState {
  maxRequests : Z;
  retryDelay : Duration;
  requestsCount : Z
}.

Definition set_requestsCount (v : Z) (u : UserState) : UserState :=
  {| maxRequests := maxRequests u; retryDelay := retryDelay u; requestsCount := v |}.

(** [applyUserLimits] from [userState.mutex.Lock()] to its return: the
    verdict, the state it leaves and what it did.  [AfterFunc d] schedules
    [release] once, [d] from now. *)
Definition applyUserLimits_locked (u : UserState) (userID : string)
  : UserState * bool * list event :=
  if maxRequests u <=? requestsCount u then
    (u, false,
     [Log LogLevelDebug ("User " +:+ userID +:+ " exceeded max requests") None;
      WriteHeader StatusTooManyRequests])
  else
    (set_requestsCount (GoInt.incr (requestsCount u)) u, true,
     [AfterFunc (retryDelay u)]).

(** The function handed to [time.AfterFunc]. *)
Definition release (u : UserState) : UserState :=
  set_requestsCount (GoInt.decr (requestsCount u)) u.

(** *** One user's state on a logical clock

    [timers] holds the instants at which the pending [AfterFunc] callbacks
    are due.  A callback runs once the clock has reached its instant. *)
Record world := mkWorld {
  state : UserState;
  timers : list Z;
  now : Z
}.

Definition scheduled (clock : Z) (ev : list event) : list Z :=
  flat_map (fun e => match e with AfterFunc d => [clock + d] | _ => [] end) ev.

(** A request of the user arrives at the current instant. *)
Definition request (userID : string) (w : world) : world * bool :=
  let '(u, ok, ev) := applyUserLimits_locked (state w) userID in
  ({| state := u; timers := timers w ++ scheduled (now w) ev; now := now w |}, ok).

(** [d] nanoseconds pass; every callback due by then has run. *)
Definition elapse (d : Duration) (w : world) : world :=
  let clock := now w + d in
  let due := List.filter (fun t => t <=? clock) (timers w) in
  {| state := fold_left (fun u _ => release u) due (state w);
     timers := List.filter (fun t => negb (t <=? clock)) (timers w);
     now := clock |}.

(** A user allowed two requests per second, seen for the first time. *)
Definition two_per_second : world :=
  {| state := {| maxRequests := 2; retryDelay := Second; requestsCount := 0 |};
     timers := []; now := 0 |}.


(** *** Histories of one user's state *)

(** What can happen to the state: a request of the user, or time passing. *)
Inductive op :=
| Request (userID : string)
| Elapse (d : Duration).

Definition apply_op (w : world) (o : op) : world :=
  match o with
  | Request userID => fst (request userID w)
  | Elapse d => elapse d w
  end.

Definition world_run (ops : list op) (w : world) : world := fold_left apply_op ops w.

(** The state [applyUserLimits] makes for a user it sees for the first time,
    with no callback pending. *)
Definition fresh_world (mr : Z) (rd : Duration) : world :=
  {| state := {| maxRequests := mr; retryDelay := rd; requestsCount := 0 |};
     timers := []; now := 0 |}.

(** Time does not run backwards. *)
Definition forward_in_time (o : op) : Prop :=
  match o with
  | Request _ => True
  | Elapse d => 0 <= d
  end.

(** Every callback runs, and every admission is counted until it does. *)
Definition world_inv (mr : Z) (rd : Duration) (w : world) : Prop :=
  maxRequests (state w) = mr /\ retryDelay (state w) = rd /\
  requestsCount (state w) = Z.of_nat (length (timers w)) /\
  requestsCount (state w) <= Z.max 0 mr.

End User.

(** ** Configuration ([config.go]) *)

(** [Config].  An entry of [Endpoints] is a [*Config]: [Some] of the struct
    the pointer leads to, or [None] for a nil pointer.  A nil map reads as
    the empty one. *)
#[warnings="-register-all"]
Inductive Config := mkConfig {
  EndpointsConfigLocation : string;
  MaxRequests : Z;
  MaxQueue : Z;
  RetryCount : Z;
  RetryDelay : string;
  retryDelayDuration : Duration;
  Endpoints : gmap string (gmap string (option Config));
  UserMaxRequests : Z;
  UserRetryDelay : string;
  userRetryDelayDuration : Duration;
  JWTSecret : string
}.

(** [var fileConfig Config]: every field at its zero value. *)
Definition zeroConfig : Config :=
  {| EndpointsConfigLocation := ""; MaxRequests := 0; MaxQueue := 0;
     RetryCount := 0; RetryDelay := ""; retryDelayDuration := 0;
     Endpoints := ∅; UserMaxRequests := 0; UserRetryDelay := "";
     userRetryDelayDuration := 0; JWTSecret := "" |}.

Definition CreateConfig : Config :=
  {| EndpointsConfigLocation := ""; MaxRequests := 10; MaxQueue := 0;
     RetryCount := 3; RetryDelay := "200ms"; retryDelayDuration := 0;
     Endpoints := ∅; UserMaxRequests := 1; UserRetryDelay := "1s";
     userRetryDelayDuration := 0; JWTSecret := "" |}.

Definition set_durations (rd urd : Duration) (c : Config) : Config :=
  {| EndpointsConfigLocation := EndpointsConfigLocation c;
     MaxRequests := MaxRequests c; MaxQueue := MaxQueue c;
     RetryCount := RetryCount c; RetryDelay := RetryDelay c;
     retryDelayDuration := rd;
     Endpoints := Endpoints c;
     UserMaxRequests := UserMaxRequests c; UserRetryDelay := UserRetryDelay c;
     userRetryDelayDuration := urd;
     JWTSecret := JWTSecret c |}.

Definition set_Endpoints (eps : gmap string (gmap string (option Config))) (c : Config)
  : Config :=
  {| EndpointsConfigLocation := EndpointsConfigLocation c;
     MaxRequests := MaxRequests c; MaxQueue := MaxQueue c;
     RetryCount := RetryCount c; RetryDelay := RetryDelay c;
     retryDelayDuration := retryDelayDuration c;
     Endpoints := eps;
     UserMaxRequests := UserMaxRequests c; UserRetryDelay := UserRetryDelay c;
     userRetryDelayDuration := userRetryDelayDuration c;
     JWTSecret := JWTSecret c |}.

(** The exported fields, by their yaml tag.  The two duration fields are
    tagged [yaml:"-"]: no document reaches them. *)
Inductive field :=
| FEndpointsConfigLocation | FMaxRequests | FMaxQueue | FRetryCount
| FRetryDelay | FEndpoints | FUserMaxRequests | FUserRetryDelay | FJWTSecret.

(** One key of a decoded yaml mapping, with its value. *)
Inductive yamlEntry :=
| YEndpointsConfigLocation (v : string)
| YMaxRequests (v : Z)
| YMaxQueue (v : Z)
| YRetryCount (v : Z)
| YRetryDelay (v : string)
| YEndpoints (v : gmap string (gmap string (option Config)))
| YUserMaxRequests (v : Z)
| YUserRetryDelay (v : string)
| YJWTSecret (v : string).

Definition entry_field (e : yamlEntry) : field :=
  match e with
  | YEndpointsConfigLocation _ => FEndpointsConfigLocation
  | YMaxRequests _ => FMaxRequests
  | YMaxQueue _ => FMaxQueue
  | YRetryCount _ => FRetryCount
  | YRetryDelay _ => FRetryDelay
  | YEndpoints _ => FEndpoints
  | YUserMaxRequests _ => FUserMaxRequests
  | YUserRetryDelay _ => FUserRetryDelay
  | YJWTSecret _ => FJWTSecret
  end.

(** The decoder assigns the value of a key to the field carrying its tag and
    leaves every other field of the target as it was. *)
Definition assign (e : yamlEntry) (c : Config) : Config :=
  {| EndpointsConfigLocation :=
       match e with YEndpointsConfigLocation v => v | _ => EndpointsConfigLocation c end;
     MaxRequests := match e with YMaxRequests v => v | _ => MaxRequests c end;
     MaxQueue := match e with YMaxQueue v => v | _ => MaxQueue c end;
     RetryCount := match e with YRetryCount v => v | _ => RetryCount c end;
     RetryDelay := match e with YRetryDelay v => v | _ => RetryDelay c end;
     retryDelayDuration := retryDelayDuration c;
     Endpoints := match e with YEndpoints v => v | _ => Endpoints c end;
     UserMaxRequests := match e with YUserMaxRequests v => v | _ => UserMaxRequests c end;
     UserRetryDelay := match e with YUserRetryDelay v => v | _ => UserRetryDelay c end;
     userRetryDelayDuration := userRetryDelayDuration c;
     JWTSecret := match e with YJWTSecret v => v | _ => JWTSecret c end |}.

(** [decoder.Decode(&target)] for a document with the entries [doc]. *)
Definition decodeInto (doc : list yamlEntry) (target : Config) : Config :=
  fold_left (fun c e => assign e c) doc target.

(** The value a field holds. *)
Inductive fieldValue :=
| VString (s : string)
| VInt (z : Z)
| VEndpoints (m : gmap string (gmap string (option Config))).

Definition get (f : field) (c : Config) : fieldValue :=
  match f with
  | FEndpointsConfigLocation => VString (EndpointsConfigLocation c)
  | FMaxRequests => VInt (MaxRequests c)
  | FMaxQueue => VInt (MaxQueue c)
  | FRetryCount => VInt (RetryCount c)
  | FRetryDelay => VString (RetryDelay c)
  | FEndpoints => VEndpoints (Endpoints c)
  | FUserMaxRequests => VInt (UserMaxRequests c)
  | FUserRetryDelay => VString (UserRetryDelay c)
  | FJWTSecret => VString (JWTSecret c)
  end.

(** A document that has no key for the field. *)
Definition absent (f : field) (doc : list yamlEntry) : Prop :=
  Forall (fun e => entry_field e <> f) doc.

(** ** What the middleware calls outside this repository *)

(** The claims of a token: [jwt.MapClaims] is a map from claim names to
    decoded JSON values; only strings are told apart from the rest. *)
Inductive jsonValue :=
| JString (s : string)
| JNumber (z : Z)
| JBool (b : bool)
| JNull
| JOther.

Inductive Claims :=
| MapClaims (m : gmap string jsonValue)
| OtherClaims.

(** Go's standard library and the yaml and jwt packages, as the functions
    the middleware calls.  [os_Open] yields the bytes a file would deliver,
    [yaml_Decode] the entries of the document in them, [jwt_ParseUnverified]
    the [Claims] of the token. *)
Class Runtime := {
  time_ParseDuration : string -> result Duration;
  os_Open : string -> result string;
  yaml_Decode : string -> result (list yamlEntry);
  jwt_ParseUnverified : string -> result Claims
}.

(** [m[k1][k2]], absent when either key is. *)
Definition lookup2 {A : Type} (m : gmap string (gmap string A)) (k1 k2 : string) : option A :=
  match m !! k1 with
  | Some m' => m' !! k2
  | None => None
  end.

(** ** [utils.go] *)

Definition parseDurationOrDefault `{Runtime} (value : string) (defaultDuration : Duration)
  : Duration * option error :=
  if String.eqb value "" then (defaultDuration, None)
  else
    match time_ParseDuration value with
    | Err err => (defaultDuration, Some err)
    | Ok d => (d, None)
    end.

Definition parseDurationWithFallback `{Runtime} (value : string) (fallback : Duration)
  : Duration :=
  match time_ParseDuration value with
  | Err _ => fallback
  | Ok d => d
  end.

(** A duration string [time.ParseDuration] is never asked about, or accepts. *)
Definition parsable `{Runtime} (value : string) : Prop :=
  value = "" \/ exists d, time_ParseDuration value = Ok d.

(** A duration string [time.ParseDuration] rejects with [err]. *)
Definition unparsable `{Runtime} (value : string) (err : error) : Prop :=
  value <> "" /\ time_ParseDuration value = Err err.

(** [http.Request], as far as the middleware reads it. *)
Record Request := mkRequest {
  Header : gmap string (list string);
  Path : string;       (* req.URL.Path *)
  Method : string
}.

(** [req.Header.Get(key)]: the first value under the key, or the empty string. *)
Definition Header_Get (req : Request) (key : string) : string :=
  match Header req !! key with
  | Some (v :: _) => v
  | _ => ""
  end.

Definition HasPrefix (s prefix : string) : bool := String.prefix prefix s.

Definition TrimPrefix (s prefix : string) : string :=
  if HasPrefix s prefix
  then String.substring (String.length prefix) (String.length s - String.length prefix) s
  else s.

Definition getUserIDFromJWT `{Runtime} (req : Request) : string * option error :=
  let authHeader := Header_Get req "Authorization" in
  if negb (HasPrefix authHeader "Bearer ") then ("", None)
  else
    let tokenString := TrimPrefix authHeader "Bearer " in
    match jwt_ParseUnverified tokenString with
    | Err _ => ("", None)
    | Ok OtherClaims => ("", None)
    | Ok (MapClaims claims) =>
        match claims !! "sub" with
        | Some (JString userID) => (userID, None)
        | _ => ("", None)
        end
    end.

(** ** [config.go]: loading the policy file *)

(** [loadConfigFromFile(config)]: what [*config] holds afterwards, and the
    error returned. *)
Definition loadConfigFromFile `{Runtime} (config : Config) : Config * option error :=
  match os_Open (EndpointsConfigLocation config) with
  | Err err => (config, Some ("failed to open config file: " +:+ err))
  | Ok file =>
      match yaml_Decode file with
      | Err err => (config, Some ("failed to parse config file: " +:+ err))
      | Ok doc =>
          let fileConfig := decodeInto doc zeroConfig in
          (fileConfig, None)
      end
  end.

(** ** The middleware *)

(** [Throttle].  [next] is the upstream handler ([Forward] in a trace); the
    registry lock [limitsLock] is the atomicity of the lookups below. *)
Record Throttle := mkThrottle {
  globalConfig : Config;
  endpointConfigs : gmap string (gmap string (option Config));
  name : string;
  limits : gmap string (gmap string Endpoint.endpointState);
  userLimits : gmap string (gmap string User.UserState)
}.

Definition set_limits (l : gmap string (gmap string Endpoint.endpointState)) (t : Throttle)
  : Throttle :=
  {| globalConfig := globalConfig t; endpointConfigs := endpointConfigs t;
     name := name t; limits := l; userLimits := userLimits t |}.

Definition set_userLimits (l : gmap string (gmap string User.UserState)) (t : Throttle)
  : Throttle :=
  {| globalConfig := globalConfig t; endpointConfigs := endpointConfigs t;
     name := name t; limits := limits t; userLimits := l |}.

(** Lines 14 to 22 of [New]: the configuration the rest of [New] works on. *)
Definition effectiveConfig `{Runtime} (config : option Config) : Config * list event :=
  let config := match config with None => CreateConfig | Some c => c end in
  if negb (String.eqb (EndpointsConfigLocation config) "") then
    match loadConfigFromFile config with
    | (config', Some err) =>
        (config', [Log LogLevelWarning "failed to load endpoints config from file" (Some err)])
    | (config', None) => (config', [])
    end
  else (config, []).

(** The body of the loop over [config.Endpoints], for one entry: the retry
    delay of the entry, its user retry delay, and the warnings logged. *)
Definition endpointRetryDelay `{Runtime} (endpointConfig : Config) : Duration * list event :=
  match parseDurationOrDefault (RetryDelay endpointConfig) Millisecond with
  | (_, Some err) =>
      (Millisecond, [Log LogLevelWarning "invalid retry delay for endpoint" (Some err)])
  | (retryDelay, None) => (retryDelay, [])
  end.

Definition endpointUserRetryDelay `{Runtime} (endpointConfig : Config) : Duration * list event :=
  match parseDurationOrDefault (UserRetryDelay endpointConfig) Second with
  | (_, Some err) =>
      (Second, [Log LogLevelWarning "invalid user retry delay for endpoint" (Some err)])
  | (userRetryDelay, None) => (userRetryDelay, [])
  end.

(** The entry after the loop body wrote its two durations. *)
Definition resolvedEndpointConfig `{Runtime} (endpointConfig : Config) : Config :=
  set_durations (fst (endpointRetryDelay endpointConfig))
                (fst (endpointUserRetryDelay endpointConfig)) endpointConfig.

(** [limits[endpoint][method]] as the loop body builds it. *)
Definition newEndpointState `{Runtime} (endpointConfig : Config) : Endpoint.endpointState :=
  Endpoint.fresh (MaxRequests endpointConfig) (MaxQueue endpointConfig)
                 (RetryCount endpointConfig) (fst (endpointRetryDelay endpointConfig)).

Definition endpointWarnings `{Runtime} (endpointConfig : Config) : list event :=
  snd (endpointRetryDelay endpointConfig) ++ snd (endpointUserRetryDelay endpointConfig).

(** The warnings of the whole loop, in the order in which this model walks
    the two maps (Go walks a map in no fixed order). *)
Definition loopWarnings `{Runtime} (eps : gmap string (gmap string (option Config)))
  : list event :=
  flat_map
    (fun pm =>
       flat_map (fun mc => match snd mc with
                           | Some endpointConfig => endpointWarnings endpointConfig
                           | None => []
                           end)
                (map_to_list (snd pm)))
    (map_to_list eps).

(** No entry is a nil pointer. *)
Definition nil_free (eps : gmap string (gmap string (option Config))) : Prop :=
  map_Forall (fun _ methodConfigs => map_Forall (fun _ ec => is_Some ec) methodConfigs) eps.

(** The entries after the loop wrote their durations, and the states it
    registered. *)
Definition resolvedEndpoints `{Runtime} (eps : gmap string (gmap string (option Config)))
  : gmap string (gmap string (option Config)) :=
  fmap (M := gmap string) (fmap (M := option) resolvedEndpointConfig) <$> eps.

Definition newLimits `{Runtime} (eps : gmap string (gmap string (option Config)))
  : gmap string (gmap string Endpoint.endpointState) :=
  omap (M := gmap string) (fmap (M := option) newEndpointState) <$> eps.

(** [New(ctx, next, config, name)]: what is logged, and the handler or the
    error returned.  The entries of [config.Endpoints] are shared by
    [globalConfig] and [endpointConfigs], so both see the durations the loop
    wrote into them.  The loop reads a field of every entry: on a nil entry
    it panics (what it logged for the entries walked before is left out). *)
Definition New `{Runtime} (config : option Config) (name : string)
  : list event * outcome (result Throttle) :=
  let '(config, log1) := effectiveConfig config in
  match parseDurationOrDefault (RetryDelay config) Millisecond with
  | (_, Some err) => (log1, Returns (Err ("invalid global retry delay: " +:+ err)))
  | (retryDelay, None) =>
      match parseDurationOrDefault (UserRetryDelay config) Second with
      | (_, Some err) => (log1, Returns (Err ("invalid user retry delay: " +:+ err)))
      | (userRetryDelay, None) =>
          if bool_decide (nil_free (Endpoints config)) then
            (log1 ++ loopWarnings (Endpoints config),
             Returns (Ok
               {| globalConfig :=
                    set_Endpoints (resolvedEndpoints (Endpoints config))
                      (set_durations retryDelay userRetryDelay config);
                  endpointConfigs := resolvedEndpoints (Endpoints config);
                  name := name;
                  limits := newLimits (Endpoints config);
                  userLimits := ∅ |}))
          else (log1, Panics)
      end
  end.

(** [getEndpointConfig(path, method)]: the registry afterwards and the state
    the returned pointer leads to. *)
Definition getEndpointConfig (t : Throttle) (path method : string)
  : Throttle * Endpoint.endpointState :=
  let '(methodStates, limits1) :=
    match limits t !! path with
    | Some methodStates => (methodStates, limits t)
    | None => (∅, <[path := ∅]> (limits t))
    end in
  match methodStates !! method with
  | Some state => (set_limits limits1 t, state)
  | None =>
      let state := Endpoint.fresh (MaxRequests (globalConfig t)) (MaxQueue (globalConfig t))
                                  (RetryCount (globalConfig t))
                                  (retryDelayDuration (globalConfig t)) in
      (set_limits (<[path := <[method := state]> methodStates]> limits1) t, state)
  end.

(** Lines 113 to 131 of [applyUserLimits]: the state made for a user seen
    for the first time at this endpoint and method. *)
Definition newUserState (t : Throttle) (endpoint method : string) : User.UserState :=
  let endpointConfig : option Config :=
    match endpointConfigs t !! endpoint with
    | Some methodConfigs => default None (methodConfigs !! method)
    | None => None
    end in
  let maxRequests := UserMaxRequests (globalConfig t) in
  let retryDelay := userRetryDelayDuration (globalConfig t) in
  match endpointConfig with
  | Some endpointConfig =>
      {| User.maxRequests :=
           if 0 <? UserMaxRequests endpointConfig
           then UserMaxRequests endpointConfig else maxRequests;
         User.retryDelay := userRetryDelayDuration endpointConfig;
         User.requestsCount := 0 |}
  | None =>
      {| User.maxRequests := maxRequests; User.retryDelay := retryDelay;
         User.requestsCount := 0 |}
  end.

(** [applyUserLimits(rw, endpoint, method, userID)]: the registry afterwards,
    the verdict, and what was done. *)
Definition applyUserLimits (t : Throttle) (endpoint method userID : string)
  : Throttle * bool * list event :=
  let key := endpoint +:+ "#" +:+ method in
  let users := default ∅ (userLimits t !! key) in
  let userState :=
    match users !! userID with
    | Some userState => userState
    | None => newUserState t endpoint method
    end in
  let '(userState', ok, ev) := User.applyUserLimits_locked userState userID in
  (set_userLimits (<[key := <[userID := userState']> users]> (userLimits t)) t, ok, ev).

(** How [ServeHTTP] goes on after its sequential part. *)
Inductive dispatch :=
| UserRejected
    (* applyUserLimits returned false: the handler returns *)
| ToEndpoint (path method : string) (th : Endpoint.thread).
    (* applyRateLimiting runs on the state registered under the key *)

(** [ServeHTTP(rw, req)] up to the call of [applyRateLimiting]. *)
Definition ServeHTTP `{Runtime} (t : Throttle) (req : Request)
  : Throttle * list event * dispatch :=
  let '(userID, _) := getUserIDFromJWT req in
  if String.eqb userID "" then
    let '(t1, endpointState) := getEndpointConfig t (Path req) (Method req) in
    (t1, [HeaderAdd "x-throttle-level" "endpoint"],
     ToEndpoint (Path req) (Method req) (Endpoint.start endpointState))
  else
    let '(t1, ok, ev) := applyUserLimits t (Path req) (Method req) userID in
    if negb ok then
      (t1, HeaderAdd "x-throttle-level" "user" :: ev, UserRejected)
    else
      let '(t2, endpointState) := getEndpointConfig t1 (Path req) (Method req) in
      (t2,
       HeaderAdd "x-throttle-level" "user" :: ev ++
       [HeaderAdd "x-throttle-level" "endpoint or global"],
       ToEndpoint (Path req) (Method req) (Endpoint.start endpointState)).

(** ** [getEndpointConfig] under interleaving

    The registry with its pointers made explicit: the inner maps and the
    states live on a heap and are named by their index in it.  A turn of a
    request is one region of [getEndpointConfig] held under [limitsLock]
    (read or write), or one turn of [applyRateLimiting] on the state the
    lookup returned. *)

Module Registry.

Record registry := mkRegistry {
  states : list Endpoint.endpointState;   (* the endpointState objects *)
  methodMaps : list (gmap string nat);   (* the inner maps: method to state *)
  limits : gmap string nat;              (* t.limits: path to inner map *)
  globalState : Endpoint.endpointState   (* the literal built from globalConfig *)
}.

(** Where a request stands in [getEndpointConfig]; [methodStates] is the
    local variable of that name, [None] when it is the nil map. *)
Inductive lookup :=
| AtPathRead                                 (* before the read of t.limits[path] *)
| AtPathInsert                               (* the path was missing: before Lock *)
| AtMethodRead (methodStates : option nat)   (* before the read of methodStates[method] *)
| AtStateInsert (methodStates : option nat)  (* the state was missing: before Lock *)
| Got (state : nat)                          (* the pointer returned *)
| NilMapPanic.                               (* assignment to entry in nil map *)

Definition lookup_step (path method : string) (r : registry) (l : lookup)
  : registry * lookup :=
  match l with
  | AtPathRead =>
      match limits r !! path with
      | Some methodStates => (r, AtMethodRead (Some methodStates))
      | None => (r, AtPathInsert)
      end
  | AtPathInsert =>
      match limits r !! path with
      | None =>
          let methodStates := length (methodMaps r) in
          ({| states := states r;
              methodMaps := methodMaps r ++ [∅];
              limits := <[path := methodStates]> (limits r);
              globalState := globalState r |},
           AtMethodRead (Some methodStates))
      | Some _ => (r, AtMethodRead None)
      end
  | AtMethodRead methodStates =>
      let entries : gmap string nat :=
        match methodStates with
        | Some m => default ∅ (methodMaps r !! m)
        | None => ∅
        end in
      match entries !! method with
      | Some state => (r, Got state)
      | None => (r, AtStateInsert methodStates)
      end
  | AtStateInsert methodStates =>
      match methodStates with
      | Some m =>
          let state := length (states r) in
          ({| states := states r ++ [globalState r];
              methodMaps := alter (fun entries => <[method := state]> entries) m (methodMaps r);
              limits := limits r;
              globalState := globalState r |},
           Got state)
      | None => (r, NilMapPanic)
      end
  | Got state => (r, Got state)
  | NilMapPanic => (r, NilMapPanic)
  end.

(** A request to the key, from [getEndpointConfig] on. *)
Inductive request :=
| Looking (l : lookup)
| Admitting (state : nat) (t : Endpoint.thread).

Record system := mkSystem {
  reg : registry;
  requests : list request
}.

(** Request [i] takes its next turn. *)
Definition turn (path method : string) (sys : system) (i : nat) : system :=
  match requests sys !! i with
  | Some (Looking (Got state)) =>
      match states (reg sys) !! state with
      | Some s =>
          {| reg := reg sys;
             requests := <[i := Admitting state (Endpoint.start s)]> (requests sys) |}
      | None => sys
      end
  | Some (Looking l) =>
      let '(r, l') := lookup_step path method (reg sys) l in
      {| reg := r; requests := <[i := Looking l']> (requests sys) |}
  | Some (Admitting state t) =>
      match states (reg sys) !! state with
      | Some s =>
          let '(s', t', _) := Endpoint.step s t in
          {| reg := {| states := <[state := s']> (states (reg sys));
                       methodMaps := methodMaps (reg sys);
                       limits := limits (reg sys);
                       globalState := globalState (reg sys) |};
             requests := <[i := Admitting state t']> (requests sys) |}
      | None => sys
      end
  | None => sys
  end.

Definition run (path method : string) (schedule : list nat) (sys : system) : system :=
  fold_left (turn path method) schedule sys.

(** Requests to the key that are in the upstream handler. *)
Definition forwarded (sys : system) : nat :=
  length (List.filter
            (fun q => match q with Admitting _ Endpoint.InUpstream => true | _ => false end)
            (requests sys)).

(** Two requests arrive at a middleware that has seen no request yet and
    lets one request at a time through. *)
Definition two_arrivals : system :=
  {| reg := {| states := []; methodMaps := []; limits := ∅;
               globalState := Endpoint.fresh 1 0 3 (200 * Millisecond) |};
     requests := [Looking AtPathRead; Looking AtPathRead] |}.


(** Two requests to one key arrive at a middleware whose registry is [r]. *)
Definition two_lookups (r : registry) : system :=
  {| reg := r; requests := [Looking AtPathRead; Looking AtPathRead] |}.

(** [getEndpointConfig] run from its first read to its return with no
    other request in between: every path through it takes at most four
    regions, and [Got] and [NilMapPanic] stay as they are. *)
Definition lookup_alone (path method : string) (r : registry) : registry * lookup :=
  let '(r1, l1) := lookup_step path method r AtPathRead in
  let '(r2, l2) := lookup_step path method r1 l1 in
  let '(r3, l3) := lookup_step path method r2 l2 in
  lookup_step path method r3 l3.

(** The state the registry leads to from a key. *)
Definition resolve (r : registry) (path method : string) : option Endpoint.endpointState :=
  match limits r !! path with
  | Some m =>
      match methodMaps r !! m with
      | Some entries =>
          match entries !! method with
          | Some s => states r !! s
          | None => None
          end
      | None => None
      end
  | None => None
  end.

(** Every pointer of the registry leads somewhere. *)
Definition no_dangling (r : registry) : Prop :=
  (forall p m, limits r !! p = Some m -> (m < length (methodMaps r))%nat) /\
  (forall m entries k s, methodMaps r !! m = Some entries -> entries !! k = Some s ->
                         (s < length (states r))%nat).

End Registry.

(** ** A concrete runtime, to run the definitions on

    [ParseDuration] follows [time.ParseDuration] on strings made of an
    optional sign and whole-number components ([300ms], [1h30m], [0]).  A
    component with a decimal point is outside what is modelled here and is
    reported as an error.  The file system holds two files and the token
    decoder knows three tokens. *)

Module Sample.

Definition isDigit (c : ascii) : bool :=
  let n := Z.of_nat (nat_of_ascii c) in (48 <=? n) && (n <=? 57).

Definition isDot (c : ascii) : bool := Z.of_nat (nat_of_ascii c) =? 46.

(** [leadingInt]: the leading [[0-9]*] of [s], with the overflow checks. *)
Fixpoint leadingInt (s : string) (x : Z) : option (Z * string) :=
  match s with
  | String c rest =>
      if isDigit c then
        if 922337203685477580 <? x then None
        else
          let x' := x * 10 + (Z.of_nat (nat_of_ascii c) - 48) in
          if 9223372036854775808 <? x' then None else leadingInt rest x'
      else Some (x, s)
  | EmptyString => Some (x, s)
  end.

(** The unit: everything up to the next digit or point. *)
Fixpoint leadingUnit (s : string) : string * string :=
  match s with
  | String c rest =>
      if isDigit c || isDot c then (EmptyString, s)
      else let '(u, r) := leadingUnit rest in (String c u, r)
  | EmptyString => (EmptyString, EmptyString)
  end.

Definition micro_sign : string :=
  String (ascii_of_nat 194) (String (ascii_of_nat 181) "s").
Definition greek_mu : string :=
  String (ascii_of_nat 206) (String (ascii_of_nat 188) "s").

Definition unitMap (u : string) : option Z :=
  if String.eqb u "ns" then Some 1
  else if String.eqb u "us" then Some 1000
  else if String.eqb u micro_sign then Some 1000
  else if String.eqb u greek_mu then Some 1000
  else if String.eqb u "ms" then Some 1000000
  else if String.eqb u "s" then Some 1000000000
  else if String.eqb u "m" then Some 60000000000
  else if String.eqb u "h" then Some 3600000000000
  else None.

(** The loop over the components; [fuel] bounds the number of components. *)
Fixpoint components (fuel : nat) (s : string) (d : Z) : result Z :=
  match s with
  | EmptyString => Ok d
  | String c _ =>
      match fuel with
      | O => Err "time: invalid duration"
      | S fuel' =>
          if negb (isDigit c || isDot c) then Err "time: invalid duration"
          else
            match leadingInt s 0 with
            | None => Err "time: invalid duration"
            | Some (v, s1) =>
                match s1 with
                | EmptyString => Err "time: missing unit in duration"
                | String c1 _ =>
                    if isDot c1 then Err "decimal point: outside the modelled fragment"
                    else
                      let '(u, s2) := leadingUnit s1 in
                      match unitMap u with
                      | None => Err "time: unknown unit in duration"
                      | Some unit =>
                          if 9223372036854775808 / unit <? v
                          then Err "time: invalid duration"
                          else
                            let d' := d + v * unit in
                            if 9223372036854775808 <? d'
                            then Err "time: invalid duration"
                            else components fuel' s2 d'
                      end
                end
            end
      end
  end.

Definition ParseDuration (s : string) : result Duration :=
  let '(neg, s1) :=
    match s with
    | String c rest =>
        if (Z.of_nat (nat_of_ascii c) =? 45) then (true, rest)
        else if (Z.of_nat (nat_of_ascii c) =? 43) then (false, rest)
        else (false, s)
    | EmptyString => (false, s)
    end in
  if String.eqb s1 "0" then Ok 0
  else if String.eqb s1 "" then Err "time: invalid duration"
  else
    match components (String.length s1) s1 0 with
    | Err e => Err e
    | Ok d =>
        if neg then Ok (- d)
        else if 9223372036854775807 <? d then Err "time: invalid duration"
        else Ok d
    end.

Definition policy_file : string := "/etc/traefik/throttle.yml".
Definition broken_file : string := "/etc/traefik/broken.yml".

(** What [policy_file] says: one override and nothing else. *)
Definition policy_override : Config :=
  {| EndpointsConfigLocation := ""; MaxRequests := 20; MaxQueue := 10;
     RetryCount := 5; RetryDelay := "200ms"; retryDelayDuration := 0;
     Endpoints := ∅; UserMaxRequests := 5; UserRetryDelay := "500ms";
     userRetryDelayDuration := 0; JWTSecret := "" |}.

Definition policy_doc : list yamlEntry :=
  [YEndpoints {[ "/api/v1/resource" := {[ "GET" := Some policy_override ]} ]}].

Definition Open (path : string) : result string :=
  if String.eqb path policy_file then Ok "endpoints: /api/v1/resource: GET: ..."
  else if String.eqb path broken_file then Ok "endpoints: ["
  else Err "open: no such file or directory".

Definition Decode (bytes : string) : result (list yamlEntry) :=
  if String.eqb bytes "endpoints: /api/v1/resource: GET: ..." then Ok policy_doc
  else Err "yaml: did not find expected node content".

Definition ParseUnverified (token : string) : result Claims :=
  if String.eqb token "alice.token" then Ok (MapClaims {[ "sub" := JString "alice" ]})
  else if String.eqb token "anonymous.token" then Ok (MapClaims ∅)
  else if String.eqb token "numeric.token" then Ok (MapClaims {[ "sub" := JNumber 7 ]})
  else Err "token contains an invalid number of segments".

Definition runtime : Runtime :=
  {| time_ParseDuration := ParseDuration;
     os_Open := Open;
     yaml_Decode := Decode;
     jwt_ParseUnverified := ParseUnverified |}.

(** The defaults of [CreateConfig] with a retry delay that is no duration. *)
Definition bad_global_delay : Config :=
  {| EndpointsConfigLocation := ""; MaxRequests := 10; MaxQueue := 0;
     RetryCount := 3; RetryDelay := "abc"; retryDelayDuration := 0;
     Endpoints := ∅; UserMaxRequests := 1; UserRetryDelay := "1s";
     userRetryDelayDuration := 0; JWTSecret := "" |}.

(** An override that sets [maxQueue] and nothing else. *)
Definition sparse_override : Config :=
  {| EndpointsConfigLocation := ""; MaxRequests := 0; MaxQueue := 7;
     RetryCount := 0; RetryDelay := ""; retryDelayDuration := 0;
     Endpoints := ∅; UserMaxRequests := 0; UserRetryDelay := "";
     userRetryDelayDuration := 0; JWTSecret := "" |}.

Definition sparse_config : Config :=
  {| EndpointsConfigLocation := ""; MaxRequests := 10; MaxQueue := 5;
     RetryCount := 3; RetryDelay := "500ms"; retryDelayDuration := 0;
     Endpoints := {[ "/api/v1/resource" := {[ "GET" := Some sparse_override ]} ]};
     UserMaxRequests := 2; UserRetryDelay := "2s";
     userRetryDelayDuration := 0; JWTSecret := "" |}.

(** The defaults of [CreateConfig], pointed at a policy file. *)
Definition with_location (path : string) : Config :=
  {| EndpointsConfigLocation := path; MaxRequests := 10; MaxQueue := 0;
     RetryCount := 3; RetryDelay := "200ms"; retryDelayDuration := 0;
     Endpoints := ∅; UserMaxRequests := 1; UserRetryDelay := "1s";
     userRetryDelayDuration := 0; JWTSecret := "" |}.

(** A configuration with a nil override entry. *)
Definition nil_override : Config :=
  {| EndpointsConfigLocation := ""; MaxRequests := 10; MaxQueue := 0;
     RetryCount := 3; RetryDelay := "200ms"; retryDelayDuration := 0;
     Endpoints := {[ "/api/v1/resource" := {[ "GET" := None ]} ]};
     UserMaxRequests := 1; UserRetryDelay := "1s";
     userRetryDelayDuration := 0; JWTSecret := "" |}.

(** A request of the user [alice], and one that carries no credential. *)
Definition alice_request : Request :=
  {| Header := {[ "Authorization" := ["Bearer alice.token"] ]};
     Path := "/api/v1/resource"; Method := "GET" |}.

Definition anonymous_request : Request :=
  {| Header := ∅; Path := "/api/v1/resource"; Method := "GET" |}.


(** The handler [New] returns for the configuration of [CreateConfig]. *)
Definition default_throttle : Throttle :=
  {| globalConfig := set_durations (200 * Millisecond) Second CreateConfig;
     endpointConfigs := ∅; name := "throttle"; limits := ∅; userLimits := ∅ |}.

(** The defaults of [CreateConfig] with no [userMaxRequests]. *)
Definition no_user_ceiling : Config :=
  {| EndpointsConfigLocation := ""; MaxRequests := 10; MaxQueue := 0;
     RetryCount := 3; RetryDelay := "200ms"; retryDelayDuration := 0;
     Endpoints := ∅; UserMaxRequests := 0; UserRetryDelay := "1s";
     userRetryDelayDuration := 0; JWTSecret := "" |}.

End Sample.

(** ** [applyUserLimits] under interleaving

    The user registry with its pointers made explicit, as [Registry] has
    the endpoint registry.  A turn of a request is one region of
    [applyUserLimits] held under [limitsLock] (read or write) or under the
    mutex of the state. *)

Module UserRegistry.

Record registry := mkRegistry {
  states : list User.UserState;       (* the UserState objects *)
  userMaps : list (gmap string nat);  (* the inner maps: userID to state *)
  userLimits : gmap string nat;       (* t.userLimits: key to inner map *)
  newState : User.UserState           (* the literal built for the endpoint and method *)
}.

(** Where a request stands in [applyUserLimits]. *)
Inductive lookup :=
| AtKeyRead                      (* before the read of t.userLimits[key] *)
| AtKeyInsert                    (* the key was missing: before Lock *)
| AtUserRead                     (* before the second RLock *)
| AtUserInsert                   (* the user was missing: before Lock *)
| AtMutex (state : nat)          (* before userState.mutex.Lock *)
| Done (state : nat) (ok : bool) (* the verdict returned *)
| NilMapPanic.                   (* assignment to entry in nil map *)

(** [t.userLimits[key][userID]], read under the read lock. *)
Definition readUser (key userID : string) (r : registry) : lookup :=
  let entries : gmap string nat :=
    match userLimits r !! key with
    | Some m => default ∅ (userMaps r !! m)
    | None => ∅
    end in
  match entries !! userID with
  | Some state => AtMutex state
  | None => AtUserInsert
  end.

Definition lookup_step (key userID : string) (r : registry) (l : lookup)
  : registry * lookup :=
  match l with
  | AtKeyRead =>
      match userLimits r !! key with
      | Some _ => (r, readUser key userID r)
      | None => (r, AtKeyInsert)
      end
  | AtKeyInsert =>
      match userLimits r !! key with
      | None =>
          ({| states := states r;
              userMaps := userMaps r ++ [∅];
              userLimits := <[key := length (userMaps r)]> (userLimits r);
              newState := newState r |},
           AtUserRead)
      | Some _ => (r, AtUserRead)
      end
  | AtUserRead => (r, readUser key userID r)
  | AtUserInsert =>
      match userLimits r !! key with
      | Some m =>
          let state := length (states r) in
          ({| states := states r ++ [newState r];
              userMaps := alter (fun entries => <[userID := state]> entries) m (userMaps r);
              userLimits := userLimits r;
              newState := newState r |},
           AtMutex state)
      | None => (r, NilMapPanic)
      end
  | AtMutex state =>
      match states r !! state with
      | Some u =>
          let '(u', ok, _) := User.applyUserLimits_locked u userID in
          ({| states := <[state := u']> (states r);
              userMaps := userMaps r;
              userLimits := userLimits r;
              newState := newState r |},
           Done state ok)
      | None => (r, AtMutex state)
      end
  | Done state ok => (r, Done state ok)
  | NilMapPanic => (r, NilMapPanic)
  end.

Record system := mkSystem {
  reg : registry;
  requests : list lookup
}.

(** Request [i] takes its next turn. *)
Definition turn (key userID : string) (sys : system) (i : nat) : system :=
  match requests sys !! i with
  | Some l =>
      let '(r, l') := lookup_step key userID (reg sys) l in
      {| reg := r; requests := <[i := l']> (requests sys) |}
  | None => sys
  end.

Definition run (key userID : string) (schedule : list nat) (sys : system) : system :=
  fold_left (turn key userID) schedule sys.

(** Requests of the user that the user tier has let through. *)
Definition admitted (sys : system) : nat :=
  length (List.filter (fun l => match l with Done _ true => true | _ => false end)
                      (requests sys)).

(** Two requests of one user under one key arrive at a middleware whose
    user registry is [r]. *)
Definition two_requests (r : registry) : system :=
  {| reg := r; requests := [AtKeyRead; AtKeyRead] |}.

End UserRegistry.

(** ** The middleware over a run of requests *)

(** Line 99 of [applyUserLimits]: the key of the user registry. *)
Definition userKey (endpoint method : string) : string := endpoint +:+ "#" +:+ method.

Fixpoint contains_hash (s : string) : bool :=
  match s with
  | EmptyString => false
  | String c rest => if Ascii.eqb c "#" then true else contains_hash rest
  end.

(** The state [applyUserLimits] works on: the one registered for the user
    under the key, or the one it makes for a user it has not seen there. *)
Definition userStateOf (t : Throttle) (endpoint method userID : string) : User.UserState :=
  default (newUserState t endpoint method)
          (lookup2 (userLimits t) (userKey endpoint method) userID).

(** The middleware after it served the requests one after the other, and
    what serving them did. *)
Definition served `{Runtime} (reqs : list Request) (t : Throttle) : Throttle :=
  fold_left (fun t req => fst (fst (ServeHTTP t req))) reqs t.

Fixpoint served_events `{Runtime} (reqs : list Request) (t : Throttle) : list event :=
  match reqs with
  | [] => []
  | req :: reqs => snd (fst (ServeHTTP t req)) ++ served_events reqs (fst (fst (ServeHTTP t req)))
  end.

Definition is_afterFunc (e : event) : bool :=
  match e with AfterFunc _ => true | _ => false end.

(** How many callbacks a trace hands to [time.AfterFunc]. *)
Definition count_occ_afterFunc (tr : list event) : nat :=
  length (List.filter is_afterFunc tr).

(** * Properties *)

(** ** Go integers *)

Lemma wrap_id (x : Z) : GoInt.in_range x -> GoInt.wrap x = x.
Proof.
  unfold GoInt.in_range, GoInt.min_int, GoInt.max_int, GoInt.wrap.
  intros Hx. rewrite Z.mod_small by lia. lia.
Qed.

Lemma incr_below (x hi : Z) :
  GoInt.in_range x -> x < hi -> hi <= GoInt.max_int -> GoInt.incr x = x + 1.
Proof.
  unfold GoInt.incr, GoInt.in_range. intros Hx Hlt Hhi.
  apply wrap_id. unfold GoInt.in_range. lia.
Qed.

Lemma decr_above (x lo : Z) :
  GoInt.in_range x -> lo < x -> GoInt.min_int <= lo -> GoInt.decr x = x - 1.
Proof.
  unfold GoInt.decr, GoInt.in_range. intros Hx Hlt Hlo.
  apply wrap_id. unfold GoInt.in_range. lia.
Qed.

(** ** Endpoint tier *)

Section EndpointFacts.
Import Endpoint.

(** *** Counting *)

Lemma count_app (p : event -> bool) (tr1 tr2 : list event) :
  count p (tr1 ++ tr2) = (count p tr1 + count p tr2)%nat.
Proof. unfold count. rewrite List.filter_app, length_app. reflexivity. Qed.

Lemma attempt_values_app (tr1 tr2 : list event) :
  attempt_values (tr1 ++ tr2) = attempt_values tr1 ++ attempt_values tr2.
Proof. unfold attempt_values. apply flat_map_app. Qed.

Lemma time_asleep_app (tr1 tr2 : list event) :
  time_asleep (tr1 ++ tr2) = time_asleep tr1 + time_asleep tr2.
Proof.
  induction tr1 as [|e tr1 IH]; simpl; [reflexivity|].
  fold (time_asleep (tr1 ++ tr2)). fold (time_asleep tr1).
  destruct e; lia.
Qed.

Lemma countdown_length (n : nat) (a : Z) : length (countdown n a) = n.
Proof. revert a. induction n as [|n IH]; intros a; simpl; [|rewrite IH]; reflexivity. Qed.

Lemma countdown_snoc (n : nat) (a : Z) :
  countdown n a ++ [a - Z.of_nat n] = countdown (S n) a.
Proof.
  revert a. induction n as [|n IH]; intros a.
  - simpl. f_equal. lia.
  - change (countdown (S n) a) with (a :: countdown n (a - 1)).
    change (countdown (S (S n)) a) with (a :: countdown (S n) (a - 1)).
    rewrite <- IH. simpl. do 2 f_equal. f_equal. lia.
Qed.

Lemma attempt_values_length (tr : list event) :
  length (attempt_values tr) = count is_attempt tr.
Proof.
  unfold attempt_values, count.
  induction tr as [|e tr IH]; simpl; [reflexivity|].
  destruct e; simpl; rewrite ?IH; reflexivity.
Qed.


(** *** One request, whatever the others do *)

Lemma local_inv_start (P : endpointState) : local_inv P (start P) [].
Proof.
  unfold local_inv, start, budget, quiet, count. simpl.
  repeat split; try reflexivity; lia.
Qed.

Ltac count_norm :=
  repeat rewrite count_app in *; repeat rewrite attempt_values_app in *;
  repeat rewrite time_asleep_app in *; cbn [count List.filter length is_attempt
    is_reqInc is_reqDec is_queueInc is_queueDec is_forward is_sleep is_reject
    is_exhausted is_queueFull attempt_values flat_map time_asleep fold_right
    app String.eqb Ascii.eqb Bool.eqb Z.eqb StatusTooManyRequests Pos.eqb] in *.

Lemma local_inv_step (P s : endpointState) (t : thread) (tr : list event) :
  GoInt.in_range (retryCount P) ->
  same_policy P s ->
  local_inv P t tr ->
  local_inv P (snd (fst (step s t))) (tr ++ snd (step s t)).
Proof.
  intros Hrange (Hmr & Hmq & Hrc & Hrd) (Hvals & Hbudget & Hsleep & Ht).
  unfold GoInt.in_range in Hrange.
  destruct t as [a queued incQ | | r].
  - (* at the head of the loop *)
    destruct Ht as (Ha & Hq & Hfirst & Hsl & Hqi & Hqd & (Hri & Hfw & Hrd') & Hrej & Hex & Hqf).
    subst incQ. unfold step.
    destruct (0 <=? a) eqn:Hge; [apply Z.leb_le in Hge|apply Z.leb_gt in Hge].
    + assert (Hdecr : GoInt.decr a = a - 1).
      { apply (decr_above a (-1)); unfold GoInt.in_range, GoInt.min_int in *; lia. }
      assert (Hnext : attempt_values tr ++ [a] = countdown (S (count is_attempt tr)) (retryCount P)).
      { rewrite Hvals, Ha. apply countdown_snoc. }
      assert (Hb : Z.of_nat (S (count is_attempt tr)) <= budget P).
      { unfold budget in *. lia. }
      destruct (requestsCount s <? maxRequests s).
      * (* admitted *)
        cbn [fst snd]. unfold local_inv.
        replace (count is_attempt (tr ++ Attempt a :: ReqInc :: (if queued then [QueueDec] else []) ++ [Forward]))
          with (S (count is_attempt tr)) by (destruct queued; count_norm; lia).
        split; [|split; [|split]].
        -- destruct queued; count_norm; rewrite <- Hnext; reflexivity.
        -- exact Hb.
        -- destruct queued; count_norm; lia.
        -- repeat (split; [destruct queued; count_norm; lia|]).
           exists (tr ++ Attempt a :: ReqInc :: (if queued then [QueueDec] else [])).
           split.
           ++ rewrite <- app_assoc. reflexivity.
           ++ destruct queued; count_norm; lia.
      * destruct queued; cbn [negb].
        -- (* a reservation is held: sleep and retry *)
           cbn [fst snd]. unfold local_inv.
           replace (count is_attempt (tr ++ [Attempt a; SleepFor (retryDelay s)]))
             with (S (count is_attempt tr)) by (count_norm; lia).
           split; [|split; [|split]].
           ++ count_norm. rewrite <- Hnext. reflexivity.
           ++ exact Hb.
           ++ count_norm. rewrite Hrd. lia.
           ++ rewrite Hdecr. unfold quiet in *.
              repeat split; count_norm; try lia; congruence.
        -- (* first attempt that is not admitted *)
           assert (Hn0 : count is_attempt tr = 0%nat) by auto.
           assert (Hv0 : attempt_values tr ++ [a] = countdown 1 (retryCount P)).
           { rewrite Hnext, Hn0. reflexivity. }
           destruct (queueCount s <? maxQueue s) eqn:Hres;
             cbn [maxQueue queueCount set_queueCount retryDelay];
             match goal with |- context [if ?c then _ else _] => destruct c eqn:Hfull end;
             try (apply Z.ltb_ge in Hres; apply Z.leb_gt in Hfull; exfalso; lia);
             cbn [fst snd]; unfold local_inv, quiet;
             (split; [|split; [|split]]);
             [ count_norm; rewrite Hn0; exact Hv0
             | count_norm; unfold budget in *; lia
             | count_norm; rewrite ?Hrd; lia
             | rewrite ?Hdecr; repeat split; count_norm; try lia; try congruence
             | count_norm; rewrite Hn0; exact Hv0
             | count_norm; unfold budget in *; lia
             | count_norm; rewrite ?Hrd; lia
             | rewrite ?Hdecr; repeat split; count_norm; try lia; try congruence
             | count_norm; rewrite Hn0; exact Hv0
             | count_norm; unfold budget in *; lia
             | count_norm; rewrite ?Hrd; lia
             | rewrite ?Hdecr; repeat split; count_norm; try lia; try congruence ].
    + (* the attempts are used up *)
      cbn [fst snd]. unfold local_inv, quiet.
      replace (count is_attempt (tr ++ (if queued then [QueueDec] else []) ++
                 [Log LogLevelDebug "Request denied after all retry attempts" None;
                  WriteHeader StatusTooManyRequests]))
        with (count is_attempt tr) by (destruct queued; count_norm; lia).
      assert (Hfull : Z.of_nat (count is_attempt tr) = budget P).
      { unfold budget in *. destruct queued.
        - lia.
        - assert (count is_attempt tr = 0%nat) by auto. lia. }
      split; [|split; [|split]].
      * destruct queued; count_norm; rewrite ?app_nil_r; exact Hvals.
      * exact Hbudget.
      * destruct queued; count_norm; lia.
      * repeat split; try (destruct queued; count_norm; lia).
  - (* the upstream call completes *)
    destruct Ht as (Hsl & Hq & Hri & Hfw & Hrd' & Hrej & Hex & Hqf & pre & Hpre & Hpre1).
    cbn [step fst snd]. unfold local_inv.
    replace (count is_attempt (tr ++ [ReqDec])) with (count is_attempt tr)
      by (count_norm; lia).
    split; [|split; [|split]].
    + count_norm. rewrite app_nil_r. exact Hvals.
    + exact Hbudget.
    + count_norm. lia.
    + repeat (split; [count_norm; lia|]).
      exists pre. split; [|exact Hpre1].
      rewrite Hpre, <- app_assoc. reflexivity.
  - (* nothing is left to do *)
    cbn [step fst snd]. rewrite app_nil_r.
    split; [|split; [|split]]; assumption.
Qed.

Lemma local_inv_run (P : endpointState) (obs : list endpointState) :
  GoInt.in_range (retryCount P) ->
  Forall (same_policy P) obs ->
  forall (t : thread) (tr : list event),
    local_inv P t tr ->
    local_inv P (fst (run_with obs t)) (tr ++ snd (run_with obs t)).
Proof.
  intros Hrange Hobs. induction Hobs as [|s obs Hs Hobs IH]; intros t tr Hinv.
  - simpl. rewrite app_nil_r. exact Hinv.
  - pose proof (local_inv_step P s t tr Hrange Hs Hinv) as Hstep.
    simpl. destruct (step s t) as [[s1 t1] ev1]. cbn [fst snd] in Hstep.
    specialize (IH t1 (tr ++ ev1) Hstep).
    destruct (run_with obs t1) as [t2 ev2]. cbn [fst snd] in *.
    rewrite app_assoc. exact IH.
Qed.

(** *** Every request comes to an end *)



(** *** The shape of a trace *)

Lemma trace_shape_step (P s : endpointState) (t : thread) (tr : list event) :
  same_policy P s ->
  trace_shape (retryDelay P) t tr ->
  trace_shape (retryDelay P) (snd (fst (step s t))) (tr ++ snd (step s t)).
Proof.
  intros (_ & _ & _ & Hd) (w & rest & -> & Hw & Hrest).
  destruct t as [a queued incQ | | r]; cbn [closing] in Hrest.
  - subst rest. rewrite app_nil_r. unfold step.
    destruct (0 <=? a).
    + destruct (requestsCount s <? maxRequests s).
      * cbn [fst snd]. exists w. eexists. split; [reflexivity|]. split; [exact Hw|].
        cbn [closing]. exists a, queued. reflexivity.
      * destruct incQ; cbn [negb].
        -- cbn [fst snd]. exists (w ++ [Attempt a; SleepFor (retryDelay s)]), [].
           split; [rewrite app_nil_r; reflexivity|]. split; [|reflexivity].
           rewrite Hd. exact (waits_round (retryDelay P) a false w Hw).
        -- destruct (queueCount s <? maxQueue s).
           ++ destruct (maxQueue _ <=? queueCount _); cbn [fst snd].
              ** exists w. eexists. split; [reflexivity|]. split; [exact Hw|].
                 left. exists a, true. reflexivity.
              ** exists (w ++ Attempt a :: [QueueInc] ++ [SleepFor (retryDelay P)]), [].
                 split; [|split; [|reflexivity]].
                 --- rewrite app_nil_r. cbn [set_queueCount retryDelay]. rewrite Hd.
                     reflexivity.
                 --- exact (waits_round (retryDelay P) a true w Hw).
           ++ destruct (maxQueue _ <=? queueCount _); cbn [fst snd].
              ** exists w. eexists. split; [reflexivity|]. split; [exact Hw|].
                 left. exists a, false. reflexivity.
              ** exists (w ++ Attempt a :: [] ++ [SleepFor (retryDelay P)]), [].
                 split; [|split; [|reflexivity]].
                 --- rewrite app_nil_r, Hd. reflexivity.
                 --- exact (waits_round (retryDelay P) a false w Hw).
    + cbn [fst snd]. exists w. eexists. split; [reflexivity|]. split; [exact Hw|].
      right. exists queued. reflexivity.
  - destruct Hrest as (a & queued & ->). cbn [step fst snd].
    exists w. eexists. split; [rewrite <- app_assoc; reflexivity|]. split; [exact Hw|].
    exists a, queued. destruct queued; reflexivity.
  - cbn [step fst snd]. rewrite app_nil_r. exists w, rest. repeat split; assumption.
Qed.

Lemma trace_shape_run (P : endpointState) (obs : list endpointState) :
  Forall (same_policy P) obs ->
  forall (t : thread) (tr : list event),
    trace_shape (retryDelay P) t tr ->
    trace_shape (retryDelay P) (fst (run_with obs t)) (tr ++ snd (run_with obs t)).
Proof.
  intros Hobs. induction Hobs as [|s obs Hs Hobs IH]; intros t tr Hinv.
  - simpl. rewrite app_nil_r. exact Hinv.
  - pose proof (trace_shape_step P s t tr Hs Hinv) as Hstep.
    simpl. destruct (step s t) as [[s1 t1] ev1]. cbn [fst snd] in Hstep.
    specialize (IH t1 (tr ++ ev1) Hstep).
    destruct (run_with obs t1) as [t2 ev2]. cbn [fst snd] in *.
    rewrite app_assoc. exact IH.
Qed.

Lemma trace_shape_start (P : endpointState) : trace_shape (retryDelay P) (start P) [].
Proof. exists [], []. repeat split. constructor. Qed.

(** *** The retry loop *)




(** C8 (as amended): a request sleeps [retryDelay] once after each attempt
    that neither admits nor rejects it, the last attempt included, and
    nowhere else: its trace is a run of rounds, each an attempt, the
    reservation if it is taken then, and the sleep, followed by what the
    admission or the rejection leaves, which holds no sleep.  So there are
    at most [retryCount + 1] sleeps, [(retryCount + 1) * retryDelay] in
    all.  A request that is still in the loop has slept once per attempt;
    an admitted one once per attempt but the last; one rejected because the
    attempt counter ran out [retryCount + 1] times, once per attempt; one
    rejected for a full queue, which is in its first attempt, not at all. *)
Theorem sleep_bound (s : endpointState) (obs : list endpointState)
    (t : thread) (tr : list event) :
  GoInt.in_range (retryCount s) ->
  Forall (same_policy s) obs ->
  run_with obs (start s) = (t, tr) ->
  (count is_sleep tr <= count is_attempt tr)%nat /\
  Z.of_nat (count is_sleep tr) <= budget s /\
  time_asleep tr = Z.of_nat (count is_sleep tr) * Z.max 0 (retryDelay s) /\
  time_asleep tr <= budget s * Z.max 0 (retryDelay s) /\
  trace_shape (retryDelay s) t tr /\
  match t with
  | AtLoop _ _ _ => count is_sleep tr = count is_attempt tr
  | InUpstream | Finished Served => S (count is_sleep tr) = count is_attempt tr
  | Finished (Rejected _) =>
      (count is_exhausted tr = 1%nat /\ count is_queueFull tr = 0%nat /\
       count is_sleep tr = count is_attempt tr /\
       Z.of_nat (count is_sleep tr) = budget s)
      \/
      (count is_exhausted tr = 0%nat /\ count is_queueFull tr = 1%nat /\
       count is_sleep tr = 0%nat /\ count is_attempt tr = 1%nat)
  end /\
  (count is_exhausted tr = 1%nat -> Z.of_nat (count is_sleep tr) = budget s).
Proof.
  intros Hrange Hobs Hrun.
  pose proof (local_inv_run s obs Hrange Hobs (start s) [] (local_inv_start s)) as Hinv.
  pose proof (trace_shape_run s obs Hobs (start s) [] (trace_shape_start s)) as Hshape.
  rewrite Hrun in Hinv, Hshape. cbn [fst snd app] in Hinv, Hshape.
  destruct Hinv as (Hvals & Hbudget & Hsleep & Ht).
  assert (Hle : (count is_sleep tr <= count is_attempt tr)%nat).
  { destruct t as [a queued incQ | | [|status]].
    - destruct Ht as (_ & _ & _ & Hsl & _). lia.
    - destruct Ht as (Hsl & _). lia.
    - destruct Ht as (Hsl & _). lia.
    - destruct Ht as (_ & _ & _ & [Hcase | Hcase]).
      + destruct Hcase as (_ & _ & _ & Hsl & _). lia.
      + destruct Hcase as (_ & _ & Hn & Hsl & _). lia. }
  split; [exact Hle|]. split; [lia|]. split; [exact Hsleep|]. split; [|split; [|split]].
  - rewrite Hsleep. apply Z.mul_le_mono_nonneg_r; lia.
  - exact Hshape.
  - destruct t as [a queued incQ | | [|status]].
    + destruct Ht as (_ & _ & _ & Hsl & _). exact Hsl.
    + destruct Ht as (Hsl & _). exact Hsl.
    + destruct Ht as (Hsl & _). exact Hsl.
    + destruct Ht as (_ & _ & _ & [Hcase | Hcase]).
      * destruct Hcase as (Hex & Hqf & Hn & Hsl & _). left.
        repeat split; try assumption. lia.
      * destruct Hcase as (Hex & Hqf & Hn & Hsl & _). right.
        repeat split; assumption.
  - intros Hex. destruct t as [a queued incQ | | [|status]].
    + destruct Ht as (_ & _ & _ & _ & _ & _ & _ & _ & Hex0 & _). congruence.
    + destruct Ht as (_ & _ & _ & _ & _ & _ & Hex0 & _). congruence.
    + destruct Ht as (_ & _ & _ & _ & _ & _ & Hex0 & _). congruence.
    + destruct Ht as (_ & _ & _ & [Hcase | Hcase]).
      * destruct Hcase as (_ & _ & Hn & Hsl & _). lia.
      * destruct Hcase as (Hex0 & _). congruence.
Qed.

Lemma sleep_bound_witness :
  GoInt.in_range (retryCount busy_roomy) /\
  Forall (same_policy busy_roomy) (repeat busy_roomy 4) /\
  Z.of_nat (count is_sleep (snd (run_with (repeat busy_roomy 4) (start busy_roomy))))
    <= budget busy_roomy.
Proof.
  assert (Hrange : GoInt.in_range (retryCount busy_roomy)).
  { unfold GoInt.in_range, GoInt.min_int, GoInt.max_int. simpl. lia. }
  assert (Hobs : Forall (same_policy busy_roomy) (repeat busy_roomy 4)).
  { repeat constructor. }
  exact (conj Hrange (conj Hobs
    (proj1 (proj2
       (sleep_bound busy_roomy (repeat busy_roomy 4) _ _ Hrange Hobs eq_refl))))).
Defined.

(** The claim of C8 fails: with [retryCount = 1] and [retryDelay = 50ms] a
    request that never finds capacity sleeps twice, the second time after
    its last attempt, 100ms in all, and only then is rejected. *)
Lemma sleep_bound_counterexample :
  let '(t, tr) := run_with (repeat busy_roomy 4) (start busy_roomy) in
  t = Finished (Rejected StatusTooManyRequests) /\
  tr = [Attempt 1; QueueInc; SleepFor (50 * Millisecond);
        Attempt 0; SleepFor (50 * Millisecond);
        QueueDec;
        Log LogLevelDebug "Request denied after all retry attempts" None;
        WriteHeader StatusTooManyRequests] /\
  count is_sleep tr = 2%nat /\
  retryCount busy_roomy = 1 /\
  time_asleep tr = 100 * Millisecond /\
  retryCount busy_roomy * retryDelay busy_roomy = 50 * Millisecond /\
  retryCount busy_roomy * retryDelay busy_roomy < time_asleep tr.
Proof. vm_compute. repeat split; reflexivity. Qed.

(** With [retryCount = 0] the one attempt a request has can be the one that
    finds the queue full: the request has then made its [retryCount + 1]
    attempts, has not slept, and the slot it reserved is not given back. *)
Example single_attempt_queue_full :
  let s := {| maxRequests := 1; maxQueue := 1; retryCount := 0;
              retryDelay := 50 * Millisecond; requestsCount := 1; queueCount := 0 |} in
  let '(s', t, tr) := run_alone 3 s (start s) in
  t = Finished (Rejected StatusTooManyRequests) /\
  tr = [Attempt 0; QueueInc;
        Log LogLevelDebug "Queue limit reached for endpoint" None;
        WriteHeader StatusTooManyRequests] /\
  count is_attempt tr = 1%nat /\ count is_sleep tr = 0%nat /\
  queueCount s = 0 /\ queueCount s' = 1.
Proof. vm_compute. repeat split; reflexivity. Qed.

(** C4: the request that takes the last queue slot is rejected with 429 in
    the attempt that took it: no sleep, no retry, and the slot stays taken.
    With [maxQueue = 1] this is what happens to a lone second request. *)
Theorem last_slot_rejected (s : endpointState) (attempt : Z) (queued : bool) :
  0 <= attempt ->
  maxRequests s <= requestsCount s ->
  queueCount s < maxQueue s ->
  GoInt.incr (queueCount s) = maxQueue s ->
  step s (AtLoop attempt queued false) =
    (set_queueCount (maxQueue s) s,
     Finished (Rejected StatusTooManyRequests),
     [Attempt attempt; QueueInc;
      Log LogLevelDebug "Queue limit reached for endpoint" None;
      WriteHeader StatusTooManyRequests]) /\
  (maxQueue s = 1 -> attempt = retryCount s -> queued = false ->
   forall fuel,
     run_alone (S fuel) s (start s) =
       (set_queueCount 1 s,
        Finished (Rejected StatusTooManyRequests),
        [Attempt (retryCount s); QueueInc;
         Log LogLevelDebug "Queue limit reached for endpoint" None;
         WriteHeader StatusTooManyRequests])).
Proof.
  intros Hatt Hbusy Hroom Hlast.
  assert (Hstep : step s (AtLoop attempt queued false) =
    (set_queueCount (maxQueue s) s,
     Finished (Rejected StatusTooManyRequests),
     [Attempt attempt; QueueInc;
      Log LogLevelDebug "Queue limit reached for endpoint" None;
      WriteHeader StatusTooManyRequests])).
  { unfold step.
    apply Z.leb_le in Hatt. rewrite Hatt.
    apply Z.ltb_ge in Hbusy. rewrite Hbusy.
    apply Z.ltb_lt in Hroom. rewrite Hroom.
    cbn [negb maxQueue queueCount set_queueCount]. rewrite Hlast.
    rewrite Z.leb_refl. reflexivity. }
  split; [exact Hstep|].
  intros Hone Ha Hq fuel. subst attempt queued.
  unfold start. cbn [run_alone]. rewrite Hstep, Hone.
  assert (Hrest : forall k s' r, run_alone k s' (Finished r) = (s', Finished r, [])).
  { induction k as [|k IH]; intros s' r; [reflexivity|].
    cbn [run_alone step]. rewrite IH. reflexivity. }
  rewrite Hrest. reflexivity.
Qed.

Lemma last_slot_rejected_witness :
  0 <= 1 /\
  maxRequests busy_single <= requestsCount busy_single /\
  queueCount busy_single < maxQueue busy_single /\
  GoInt.incr (queueCount busy_single) = maxQueue busy_single /\
  step busy_single (AtLoop 1 false false) =
    (set_queueCount (maxQueue busy_single) busy_single,
     Finished (Rejected StatusTooManyRequests),
     [Attempt 1; QueueInc;
      Log LogLevelDebug "Queue limit reached for endpoint" None;
      WriteHeader StatusTooManyRequests]).
Proof.
  assert (H1 : 0 <= 1) by lia.
  assert (H2 : maxRequests busy_single <= requestsCount busy_single) by (simpl; lia).
  assert (H3 : queueCount busy_single < maxQueue busy_single) by (simpl; lia).
  assert (H4 : GoInt.incr (queueCount busy_single) = maxQueue busy_single) by reflexivity.
  exact (conj H1 (conj H2 (conj H3 (conj H4
           (proj1 (last_slot_rejected busy_single 1 false H1 H2 H3 H4)))))).
Defined.

(** C2 on the code: the request that is rejected in the attempt in which it
    took the last queue slot returns without giving the slot back.  Run
    alone on [busy_single] it leaves [queueCount] at 1 where it found 0. *)
Theorem queue_full_rejection_keeps_slot :
  let '(s', t, tr) := run_alone 4 busy_single (start busy_single) in
  t = Finished (Rejected StatusTooManyRequests) /\
  queueCount busy_single = 0 /\ queueCount s' = 1 /\
  requestsCount s' = requestsCount busy_single /\
  count is_queueInc tr = 1%nat /\ count is_queueDec tr = 0%nat.
Proof. vm_compute. repeat split; reflexivity. Qed.

(** *** All requests on one state *)

Lemma filter_length_insert (p : thread -> bool) (l : list thread) (i : nat) (t t' : thread) :
  l !! i = Some t ->
  Z.of_nat (length (List.filter p (<[i := t']> l))) =
  Z.of_nat (length (List.filter p l)) - b2z (p t) + b2z (p t').
Proof.
  revert i. induction l as [|x l IH]; intros i Hi; [discriminate|].
  destruct i as [|i].
  - injection Hi as ->. cbn [insert list_insert List.filter].
    unfold b2z. destruct (p t), (p t'); cbn [length]; lia.
  - specialize (IH i Hi).
    change (<[S i := t']> (x :: l)) with (x :: <[i := t']> l).
    cbn [List.filter]. destruct (p x); cbn [length]; lia.
Qed.

Lemma filter_length_snoc (p : thread -> bool) (l : list thread) (t : thread) :
  Z.of_nat (length (List.filter p (l ++ [t]))) =
  Z.of_nat (length (List.filter p l)) + b2z (p t).
Proof.
  rewrite List.filter_app, length_app. cbn [List.filter].
  unfold b2z. destruct (p t); cbn [length]; lia.
Qed.

Lemma filter_length_pos (p : thread -> bool) (l : list thread) (i : nat) (t : thread) :
  l !! i = Some t -> p t = true -> 1 <= Z.of_nat (length (List.filter p l)).
Proof.
  revert i. induction l as [|x l IH]; intros i Hi Hp; [discriminate|].
  destruct i as [|i].
  - injection Hi as ->. cbn [List.filter]. rewrite Hp. cbn [length]. lia.
  - specialize (IH i Hi Hp). cbn [List.filter]. destruct (p x); cbn [length]; lia.
Qed.

Lemma sys_inv_step (P : endpointState) (sys : system) (a : action) :
  0 <= maxRequests P <= GoInt.max_int ->
  0 <= maxQueue P <= GoInt.max_int ->
  sys_inv P sys -> sys_inv P (sys_step sys a).
Proof.
  intros HmaxR HmaxQ ((Hmr & Hmq & Hrc & Hrd) & Hreq & HreqLe & Hres & HqLe).
  destruct sys as [s ts]. unfold forwarded, reserved in *. cbn [shared pool] in *.
  assert (Hfwd0 : 0 <= Z.of_nat (length (List.filter in_upstream ts))) by lia.
  assert (Hres0 : 0 <= Z.of_nat (length (List.filter holds_slot ts))) by lia.
  unfold GoInt.max_int in *.
  destruct a as [|i]; cbn [sys_step shared pool].
  - (* a request arrives *)
    unfold sys_inv, forwarded, reserved. cbn [shared pool].
    rewrite !filter_length_snoc. unfold start. cbn [in_upstream holds_slot b2z].
    repeat split; try assumption; lia.
  - (* a goroutine takes a turn *)
    destruct (ts !! i) as [t|] eqn:Hi; [|repeat split; assumption].
    pose proof (filter_length_insert in_upstream ts i t) as Hup.
    pose proof (filter_length_insert holds_slot ts i t) as Hhold.
    destruct t as [att queued incQ | | r]; unfold step.
    + destruct (0 <=? att).
      * destruct (requestsCount s <? maxRequests s) eqn:Hfree.
        -- (* admitted *)
           apply Z.ltb_lt in Hfree.
           assert (Hincr : GoInt.incr (requestsCount s) = requestsCount s + 1).
           { apply (incr_below _ (maxRequests s));
               unfold GoInt.in_range, GoInt.min_int, GoInt.max_int; lia. }
           specialize (Hup InUpstream Hi). specialize (Hhold InUpstream Hi).
           cbn [in_upstream holds_slot b2z] in Hup, Hhold.
           unfold sys_inv, forwarded, reserved, same_policy.
           destruct queued; cbn [shared pool set_requestsCount set_queueCount
             maxRequests maxQueue retryCount retryDelay requestsCount queueCount b2z] in *.
           ++ assert (Hdecr : GoInt.decr (queueCount s) = queueCount s - 1).
              { apply (decr_above _ 0);
                  unfold GoInt.in_range, GoInt.min_int, GoInt.max_int; lia. }
              rewrite Hincr, Hdecr, Hup, Hhold. repeat split; try assumption; lia.
           ++ rewrite Hincr, Hup, Hhold. repeat split; try assumption; lia.
        -- apply Z.ltb_ge in Hfree.
           destruct incQ; cbn [negb].
           ++ (* sleep and retry *)
              specialize (Hup (AtLoop (GoInt.decr att) queued true) Hi).
              specialize (Hhold (AtLoop (GoInt.decr att) queued true) Hi).
              cbn [in_upstream holds_slot b2z] in Hup, Hhold.
              unfold sys_inv, forwarded, reserved, same_policy. cbn [shared pool].
              rewrite Hup, Hhold. repeat split; try assumption; lia.
           ++ destruct (queueCount s <? maxQueue s) eqn:Hroom.
              ** apply Z.ltb_lt in Hroom.
                 assert (Hincr : GoInt.incr (queueCount s) = queueCount s + 1).
                 { apply (incr_below _ (maxQueue s));
                     unfold GoInt.in_range, GoInt.min_int, GoInt.max_int; lia. }
                 cbn [maxQueue queueCount set_queueCount retryDelay].
                 destruct (maxQueue s <=? GoInt.incr (queueCount s)).
                 --- specialize (Hup (Finished (Rejected StatusTooManyRequests)) Hi).
                     specialize (Hhold (Finished (Rejected StatusTooManyRequests)) Hi).
                     cbn [in_upstream holds_slot b2z] in Hup, Hhold.
                     unfold sys_inv, forwarded, reserved, same_policy.
                     cbn [shared pool set_queueCount maxRequests maxQueue retryCount
                            retryDelay requestsCount queueCount].
                     rewrite Hincr, Hup, Hhold. unfold b2z in *.
                     destruct queued; repeat split; try assumption; lia.
                 --- specialize (Hup (AtLoop (GoInt.decr att) true true) Hi).
                     specialize (Hhold (AtLoop (GoInt.decr att) true true) Hi).
                     cbn [in_upstream holds_slot b2z] in Hup, Hhold.
                     unfold sys_inv, forwarded, reserved, same_policy.
                     cbn [shared pool set_queueCount maxRequests maxQueue retryCount
                            retryDelay requestsCount queueCount].
                     rewrite Hincr, Hup, Hhold. unfold b2z in *.
                     destruct queued; repeat split; try assumption; lia.
              ** destruct (maxQueue s <=? queueCount s).
                 --- specialize (Hup (Finished (Rejected StatusTooManyRequests)) Hi).
                     specialize (Hhold (Finished (Rejected StatusTooManyRequests)) Hi).
                     cbn [in_upstream holds_slot b2z] in Hup, Hhold.
                     unfold sys_inv, forwarded, reserved, same_policy. cbn [shared pool].
                     rewrite Hup, Hhold. unfold b2z in *.
                     destruct queued; repeat split; try assumption; lia.
                 --- specialize (Hup (AtLoop (GoInt.decr att) queued false) Hi).
                     specialize (Hhold (AtLoop (GoInt.decr att) queued false) Hi).
                     cbn [in_upstream holds_slot b2z] in Hup, Hhold.
                     unfold sys_inv, forwarded, reserved, same_policy. cbn [shared pool].
                     rewrite Hup, Hhold. repeat split; try assumption; lia.
      * (* the attempts are used up *)
        specialize (Hup (Finished (Rejected StatusTooManyRequests)) Hi).
        specialize (Hhold (Finished (Rejected StatusTooManyRequests)) Hi).
        cbn [in_upstream holds_slot b2z] in Hup, Hhold.
        unfold sys_inv, forwarded, reserved, same_policy.
        destruct queued; cbn [shared pool set_queueCount maxRequests maxQueue retryCount
                                retryDelay requestsCount queueCount b2z] in *.
        -- assert (Hdecr : GoInt.decr (queueCount s) = queueCount s - 1).
           { pose proof (filter_length_pos holds_slot ts i _ Hi eq_refl).
             apply (decr_above _ 0);
               unfold GoInt.in_range, GoInt.min_int, GoInt.max_int; lia. }
           rewrite Hdecr, Hup, Hhold. repeat split; try assumption; lia.
        -- rewrite Hup, Hhold. repeat split; try assumption; lia.
    + (* the upstream call completes *)
      specialize (Hup (Finished Served) Hi). specialize (Hhold (Finished Served) Hi).
      cbn [in_upstream holds_slot b2z] in Hup, Hhold.
      pose proof (filter_length_pos in_upstream ts i _ Hi eq_refl) as Hpos.
      assert (Hdecr : GoInt.decr (requestsCount s) = requestsCount s - 1).
      { apply (decr_above _ 0);
          unfold GoInt.in_range, GoInt.min_int, GoInt.max_int; lia. }
      unfold sys_inv, forwarded, reserved, same_policy.
      cbn [shared pool set_requestsCount maxRequests maxQueue retryCount
             retryDelay requestsCount queueCount].
      rewrite Hdecr, Hup, Hhold. repeat split; try assumption; lia.
    + (* a finished request *)
      specialize (Hup (Finished r) Hi). specialize (Hhold (Finished r) Hi).
      cbn [in_upstream holds_slot b2z] in Hup, Hhold.
      unfold sys_inv, forwarded, reserved, same_policy. cbn [shared pool].
      rewrite Hup, Hhold. repeat split; try assumption; lia.
Qed.

Lemma sys_inv_run (P : endpointState) (schedule : list action) :
  0 <= maxRequests P <= GoInt.max_int ->
  0 <= maxQueue P <= GoInt.max_int ->
  forall sys, sys_inv P sys -> sys_inv P (sys_run schedule sys).
Proof.
  intros HmaxR HmaxQ. unfold sys_run.
  induction schedule as [|a schedule IH]; intros sys Hinv; [exact Hinv|].
  cbn [fold_left]. apply IH. apply sys_inv_step; assumption.
Qed.

(** Whatever the interleaving of the requests that share one state object
    made with ceilings [mr] and [mq], between any two critical sections at
    most [mr] of them are in the upstream handler, [requestsCount] is their
    number and lies between 0 and [mr], and [queueCount] lies between 0 and
    [mq].  Which requests to a key share a state object is the matter of
    [getEndpointConfig]. *)
Theorem counters_within_ceilings (mr mq rc : Z) (rd : Duration) (schedule : list action) :
  0 <= mr <= GoInt.max_int ->
  0 <= mq <= GoInt.max_int ->
  let sys := sys_run schedule {| shared := fresh mr mq rc rd; pool := [] |} in
  forwarded sys <= mr /\
  requestsCount (shared sys) = forwarded sys /\
  0 <= requestsCount (shared sys) <= maxRequests (shared sys) /\
  0 <= queueCount (shared sys) <= maxQueue (shared sys) /\
  maxRequests (shared sys) = mr /\ maxQueue (shared sys) = mq.
Proof.
  intros HmaxR HmaxQ sys.
  assert (Hinit : sys_inv (fresh mr mq rc rd) {| shared := fresh mr mq rc rd; pool := [] |}).
  { unfold sys_inv, same_policy, forwarded, reserved. cbn. repeat split; lia. }
  pose proof (sys_inv_run (fresh mr mq rc rd) schedule HmaxR HmaxQ _ Hinit) as Hinv.
  fold sys in Hinv.
  destruct Hinv as ((Hmr & Hmq & _) & Hreq & HreqLe & Hres & HqLe).
  cbn [fresh maxRequests maxQueue] in *.
  unfold forwarded, reserved in *.
  repeat split; try assumption; lia.
Qed.

Lemma counters_within_ceilings_witness :
  0 <= 1 <= GoInt.max_int /\
  0 <= 2 <= GoInt.max_int /\
  forwarded
    (sys_run [Arrive; Arrive; Turn 0; Turn 1; Turn 0]
       {| shared := fresh 1 2 1 (50 * Millisecond); pool := [] |}) <= 1.
Proof.
  assert (H1 : 0 <= 1 <= GoInt.max_int) by (unfold GoInt.max_int; lia).
  assert (H2 : 0 <= 2 <= GoInt.max_int) by (unfold GoInt.max_int; lia).
  exact (conj H1 (conj H2
    (proj1 (counters_within_ceilings 1 2 1 (50 * Millisecond)
              [Arrive; Arrive; Turn 0; Turn 1; Turn 0] H1 H2)))).
Defined.

End EndpointFacts.

(** ** User tier *)

Section UserFacts.
Import User.

(** C6: at the ceiling the request is rejected with 429 and the state is
    left as it was, with nothing scheduled; below it the count goes up by
    one, the request is admitted and one call of [release] is scheduled
    [retryDelay] ahead; [release] takes one off the count whatever the
    request is doing.  With two requests per second: two are admitted, a
    third is rejected, so is one just short of a second later, and one a
    full second later is admitted. *)
Theorem user_tier_admission (u : UserState) (userID : string) :
  GoInt.in_range (requestsCount u) ->
  GoInt.in_range (maxRequests u) ->
  (maxRequests u <= requestsCount u ->
     applyUserLimits_locked u userID =
       (u, false,
        [Log LogLevelDebug ("User " +:+ userID +:+ " exceeded max requests") None;
         WriteHeader StatusTooManyRequests])) /\
  (requestsCount u < maxRequests u ->
     applyUserLimits_locked u userID =
       (set_requestsCount (requestsCount u + 1) u, true, [AfterFunc (retryDelay u)])) /\
  (GoInt.min_int < requestsCount u ->
     release u = set_requestsCount (requestsCount u - 1) u) /\
  (let '(w1, ok1) := request userID two_per_second in
   let '(w2, ok2) := request userID w1 in
   let '(w3, ok3) := request userID w2 in
   let '(w4, ok4) := request userID (elapse (Second - 1) w3) in
   let '(w5, ok5) := request userID (elapse Second w3) in
   ok1 = true /\ ok2 = true /\ ok3 = false /\ ok4 = false /\ ok5 = true /\
   state w3 = state w2 /\ timers w3 = [Second; Second] /\
   requestsCount (state (elapse Second w3)) = 0).
Proof.
  intros Hcount Hmax.
  split; [|split; [|split]].
  - intros Hfull. unfold applyUserLimits_locked.
    apply Z.leb_le in Hfull. rewrite Hfull. reflexivity.
  - intros Hroom. unfold applyUserLimits_locked.
    assert (Hincr : GoInt.incr (requestsCount u) = requestsCount u + 1).
    { apply (incr_below _ (maxRequests u)); [assumption|assumption|].
      unfold GoInt.in_range in Hmax. lia. }
    apply Z.leb_gt in Hroom. rewrite Hroom, Hincr. reflexivity.
  - intros Hpos. unfold release. f_equal.
    apply (decr_above _ GoInt.min_int); [assumption|assumption|lia].
  - vm_compute. repeat split; reflexivity.
Qed.

Lemma user_tier_admission_witness :
  GoInt.in_range (requestsCount (state two_per_second)) /\
  GoInt.in_range (maxRequests (state two_per_second)) /\
  (requestsCount (state two_per_second) < maxRequests (state two_per_second) ->
   applyUserLimits_locked (state two_per_second) "alice" =
     (set_requestsCount (requestsCount (state two_per_second) + 1) (state two_per_second),
      true, [AfterFunc (retryDelay (state two_per_second))])).
Proof.
  assert (H1 : GoInt.in_range (requestsCount (state two_per_second))).
  { unfold GoInt.in_range, GoInt.min_int, GoInt.max_int. simpl. lia. }
  assert (H2 : GoInt.in_range (maxRequests (state two_per_second))).
  { unfold GoInt.in_range, GoInt.min_int, GoInt.max_int. simpl. lia. }
  exact (conj H1 (conj H2
    (proj1 (proj2 (user_tier_admission (state two_per_second) "alice" H1 H2))))).
Defined.

End UserFacts.

(** ** Configuration and construction *)

Section ConfigFacts.
Context `{Runtime}.

Lemma assign_other (e : yamlEntry) (f : field) (c : Config) :
  entry_field e <> f -> get f (assign e c) = get f c.
Proof. destruct e, f; cbn; intros Hne; try reflexivity; congruence. Qed.

Lemma decodeInto_absent (doc : list yamlEntry) (f : field) :
  absent f doc -> forall c, get f (decodeInto doc c) = get f c.
Proof.
  unfold absent, decodeInto. induction 1 as [|e doc He Hdoc IH]; intros c.
  - reflexivity.
  - cbn [fold_left]. rewrite IH. apply assign_other. exact He.
Qed.

Lemma decodeInto_durations (doc : list yamlEntry) :
  forall c,
    retryDelayDuration (decodeInto doc c) = retryDelayDuration c /\
    userRetryDelayDuration (decodeInto doc c) = userRetryDelayDuration c.
Proof.
  unfold decodeInto. induction doc as [|e doc IH]; intros c; [split; reflexivity|].
  cbn [fold_left]. destruct (IH (assign e c)) as [-> ->]. split; reflexivity.
Qed.

(** C10: a file that opens and decodes replaces the whole configuration by
    what the decoder made of the zero value, so that every field the file
    has no key for is at its zero value whatever the configuration held;
    [New] then works on that configuration.  A file that does not open or
    does not decode leaves the configuration as it was and yields an
    error. *)
Theorem load_replaces_config (config : Config) :
  (forall file doc,
     os_Open (EndpointsConfigLocation config) = Ok file ->
     yaml_Decode file = Ok doc ->
     loadConfigFromFile config = (decodeInto doc zeroConfig, None) /\
     (forall f, absent f doc ->
        get f (fst (loadConfigFromFile config)) = get f zeroConfig) /\
     retryDelayDuration (fst (loadConfigFromFile config)) = 0 /\
     userRetryDelayDuration (fst (loadConfigFromFile config)) = 0 /\
     (EndpointsConfigLocation config <> "" ->
      effectiveConfig (Some config) = (decodeInto doc zeroConfig, []))) /\
  (forall err,
     os_Open (EndpointsConfigLocation config) = Err err ->
     loadConfigFromFile config =
       (config, Some ("failed to open config file: " +:+ err))) /\
  (forall file err,
     os_Open (EndpointsConfigLocation config) = Ok file ->
     yaml_Decode file = Err err ->
     loadConfigFromFile config =
       (config, Some ("failed to parse config file: " +:+ err))).
Proof.
  split; [|split].
  - intros file doc Hopen Hdec.
    assert (Hload : loadConfigFromFile config = (decodeInto doc zeroConfig, None)).
    { unfold loadConfigFromFile. rewrite Hopen, Hdec. reflexivity. }
    rewrite Hload. cbn [fst].
    split; [reflexivity|]. split; [|split; [|split]].
    + intros f Hf. apply decodeInto_absent. exact Hf.
    + apply (decodeInto_durations doc zeroConfig).
    + apply (decodeInto_durations doc zeroConfig).
    + intros Hloc. unfold effectiveConfig.
      destruct (String.eqb (EndpointsConfigLocation config) "") eqn:Heq.
      * apply String.eqb_eq in Heq. contradiction.
      * cbn [negb]. rewrite Hload. reflexivity.
  - intros err Hopen. unfold loadConfigFromFile. rewrite Hopen. reflexivity.
  - intros file err Hopen Hdec. unfold loadConfigFromFile. rewrite Hopen, Hdec. reflexivity.
Qed.

(** *** Durations *)

Lemma parseDurationOrDefault_empty (d : Duration) :
  parseDurationOrDefault "" d = (d, None).
Proof. reflexivity. Qed.

Lemma parseDurationOrDefault_error (value : string) (d : Duration) (err : error) :
  snd (parseDurationOrDefault value d) = Some err ->
  fst (parseDurationOrDefault value d) = d /\
  value <> "" /\ time_ParseDuration value = Err err.
Proof.
  unfold parseDurationOrDefault.
  destruct (String.eqb value "") eqn:Heq; [discriminate|].
  apply String.eqb_neq in Heq.
  destruct (time_ParseDuration value) as [v|e]; cbn [fst snd]; [discriminate|].
  intros [= ->]. repeat split; assumption.
Qed.

Lemma endpointRetryDelay_fst (ec : Config) :
  fst (endpointRetryDelay ec) = fst (parseDurationOrDefault (RetryDelay ec) Millisecond).
Proof.
  unfold endpointRetryDelay.
  destruct (parseDurationOrDefault (RetryDelay ec) Millisecond) as [d [err|]] eqn:Hp;
    [|reflexivity].
  pose proof (parseDurationOrDefault_error (RetryDelay ec) Millisecond err) as Hd.
  rewrite Hp in Hd. cbn [fst snd] in *. symmetry. apply Hd. reflexivity.
Qed.

Lemma endpointUserRetryDelay_fst (ec : Config) :
  fst (endpointUserRetryDelay ec) = fst (parseDurationOrDefault (UserRetryDelay ec) Second).
Proof.
  unfold endpointUserRetryDelay.
  destruct (parseDurationOrDefault (UserRetryDelay ec) Second) as [d [err|]] eqn:Hp;
    [|reflexivity].
  pose proof (parseDurationOrDefault_error (UserRetryDelay ec) Second err) as Hd.
  rewrite Hp in Hd. cbn [fst snd] in *. symmetry. apply Hd. reflexivity.
Qed.

(** What [New] returns, by the two global duration strings and the entries. *)
Lemma New_cases (config : option Config) (name : string) :
  let eff := fst (effectiveConfig config) in
  match snd (parseDurationOrDefault (RetryDelay eff) Millisecond),
        snd (parseDurationOrDefault (UserRetryDelay eff) Second) with
  | Some err, _ =>
      New config name =
        (snd (effectiveConfig config),
         Returns (Err ("invalid global retry delay: " +:+ err)))
  | None, Some err =>
      New config name =
        (snd (effectiveConfig config),
         Returns (Err ("invalid user retry delay: " +:+ err)))
  | None, None =>
      (nil_free (Endpoints eff) ->
       New config name =
         (snd (effectiveConfig config) ++ loopWarnings (Endpoints eff),
          Returns (Ok
            {| globalConfig :=
                 set_Endpoints (resolvedEndpoints (Endpoints eff))
                   (set_durations
                      (fst (parseDurationOrDefault (RetryDelay eff) Millisecond))
                      (fst (parseDurationOrDefault (UserRetryDelay eff) Second)) eff);
               endpointConfigs := resolvedEndpoints (Endpoints eff);
               name := name;
               limits := newLimits (Endpoints eff);
               userLimits := ∅ |}))) /\
      (~ nil_free (Endpoints eff) ->
       New config name = (snd (effectiveConfig config), Panics))
  end.
Proof.
  unfold New. destruct (effectiveConfig config) as [eff log1]. cbn [fst snd].
  destruct (parseDurationOrDefault (RetryDelay eff) Millisecond) as [rd [e1|]];
    cbn [fst snd]; [reflexivity|].
  destruct (parseDurationOrDefault (UserRetryDelay eff) Second) as [urd [e2|]];
    cbn [fst snd]; [reflexivity|].
  split; intros Hnil.
  - rewrite bool_decide_eq_true_2 by exact Hnil. reflexivity.
  - rewrite bool_decide_eq_false_2 by exact Hnil. reflexivity.
Qed.

Lemma loopWarnings_elem (eps : gmap string (gmap string (option Config)))
    (path method : string) (ms : gmap string (option Config)) (ec : Config) (e : event) :
  eps !! path = Some ms -> ms !! method = Some (Some ec) ->
  In e (endpointWarnings ec) -> In e (loopWarnings eps).
Proof.
  intros Hp Hm He. unfold loopWarnings.
  apply in_flat_map. exists (path, ms). split.
  - apply list_elem_of_In, elem_of_map_to_list. exact Hp.
  - apply in_flat_map. exists (method, Some ec). split.
    + apply list_elem_of_In, elem_of_map_to_list. exact Hm.
    + exact He.
Qed.

Lemma parse_error_iff (value : string) (d : Duration) (err : error) :
  snd (parseDurationOrDefault value d) = Some err <-> unparsable value err.
Proof.
  split.
  - intros Hsnd. apply (parseDurationOrDefault_error value d err Hsnd).
  - intros [Hne Herr]. unfold parseDurationOrDefault.
    apply String.eqb_neq in Hne. rewrite Hne, Herr. reflexivity.
Qed.

Lemma parse_ok_iff (value : string) (d : Duration) :
  snd (parseDurationOrDefault value d) = None <-> parsable value.
Proof.
  unfold parseDurationOrDefault, parsable.
  destruct (String.eqb value "") eqn:Heq.
  - apply String.eqb_eq in Heq. split; [left; exact Heq|reflexivity].
  - apply String.eqb_neq in Heq.
    destruct (time_ParseDuration value) as [v|e]; cbn [snd]; split.
    + intros _. right. exists v. reflexivity.
    + reflexivity.
    + discriminate.
    + intros [Hempty | [v Hv]]; [contradiction|discriminate].
Qed.

Lemma lookup2_resolved (eps : gmap string (gmap string (option Config)))
    (path method : string) :
  lookup2 (resolvedEndpoints eps) path method =
  fmap (M := option) resolvedEndpointConfig <$> lookup2 eps path method.
Proof.
  unfold lookup2, resolvedEndpoints. rewrite lookup_fmap.
  destruct (eps !! path) as [ms|]; cbn; [apply lookup_fmap|reflexivity].
Qed.

Lemma lookup2_newLimits (eps : gmap string (gmap string (option Config)))
    (path method : string) :
  lookup2 (newLimits eps) path method =
  lookup2 eps path method ≫= fmap (M := option) newEndpointState.
Proof.
  unfold lookup2, newLimits. rewrite lookup_fmap.
  destruct (eps !! path) as [ms|]; cbn; [apply lookup_omap|reflexivity].
Qed.

Lemma lookup2_Some {A : Type} (m : gmap string (gmap string A)) (k1 k2 : string) (a : A) :
  lookup2 m k1 k2 = Some a <-> exists m', m !! k1 = Some m' /\ m' !! k2 = Some a.
Proof.
  unfold lookup2. destruct (m !! k1) as [m'|]; split.
  - intros Hk. exists m'. split; [reflexivity|exact Hk].
  - intros (m'' & [= <-] & Hk). exact Hk.
  - discriminate.
  - intros (m'' & Hn & _). discriminate.
Qed.

Lemma loadConfigFromFile_error (c : Config) (err : error) :
  snd (loadConfigFromFile c) = Some err -> fst (loadConfigFromFile c) = c.
Proof.
  unfold loadConfigFromFile.
  destruct (os_Open (EndpointsConfigLocation c)) as [file|e]; [|reflexivity].
  destruct (yaml_Decode file) as [doc|e]; [discriminate|reflexivity].
Qed.

Lemma New_log_prefix (config : option Config) (name : string) :
  exists rest, fst (New config name) = snd (effectiveConfig config) ++ rest.
Proof.
  pose proof (New_cases config name) as Hnew. cbn zeta in Hnew.
  destruct (snd (parseDurationOrDefault _ Millisecond)) as [e1|];
    [rewrite Hnew; exists []; cbn [fst]; rewrite app_nil_r; reflexivity|].
  destruct (snd (parseDurationOrDefault _ Second)) as [e2|];
    [rewrite Hnew; exists []; cbn [fst]; rewrite app_nil_r; reflexivity|].
  destruct Hnew as [Hok Hpanic].
  destruct (decide (nil_free (Endpoints (fst (effectiveConfig config))))) as [Hnil|Hnil].
  - rewrite (Hok Hnil). eexists. reflexivity.
  - rewrite (Hpanic Hnil). exists []. cbn [fst]. rewrite app_nil_r. reflexivity.
Qed.

(** C3 (as amended): a policy file that does not load is logged as a
    warning and the configuration supplied is kept; an override's duration
    string that does not parse is logged as a warning and replaced by 1 ms
    (retry delay) or 1 s (user retry delay); neither makes [New] return an
    error.  The two global duration strings do: when one of them is not
    empty and does not parse, [New] returns the error [invalid global retry
    delay] or [invalid user retry delay] and no handler; an empty one
    stands for 1 ms or 1 s.  With override entries that are all there,
    [New] returns a handler exactly when each global string is empty or
    parses. *)
Theorem New_failure_policy (config : option Config) (name : string) :
  let eff := fst (effectiveConfig config) in
  (forall c err,
     config = Some c -> EndpointsConfigLocation c <> "" ->
     snd (loadConfigFromFile c) = Some err ->
     eff = c /\
     In (Log LogLevelWarning "failed to load endpoints config from file" (Some err))
        (fst (New config name))) /\
  (forall err,
     unparsable (RetryDelay eff) err ->
     snd (New config name) = Returns (Err ("invalid global retry delay: " +:+ err))) /\
  (forall err,
     parsable (RetryDelay eff) -> unparsable (UserRetryDelay eff) err ->
     snd (New config name) = Returns (Err ("invalid user retry delay: " +:+ err))) /\
  (nil_free (Endpoints eff) ->
   ((exists th, snd (New config name) = Returns (Ok th)) <->
    parsable (RetryDelay eff) /\ parsable (UserRetryDelay eff))) /\
  (forall th,
     snd (New config name) = Returns (Ok th) ->
     (RetryDelay eff = "" -> retryDelayDuration (globalConfig th) = Millisecond) /\
     (UserRetryDelay eff = "" -> userRetryDelayDuration (globalConfig th) = Second) /\
     forall path method ec,
       lookup2 (Endpoints eff) path method = Some (Some ec) ->
       (forall err,
          unparsable (RetryDelay ec) err ->
          Endpoint.retryDelay <$> lookup2 (limits th) path method = Some Millisecond /\
          In (Log LogLevelWarning "invalid retry delay for endpoint" (Some err))
             (fst (New config name))) /\
       (forall err,
          unparsable (UserRetryDelay ec) err ->
          lookup2 (endpointConfigs th) path method
            ≫= fmap (M := option) userRetryDelayDuration = Some Second /\
          In (Log LogLevelWarning "invalid user retry delay for endpoint" (Some err))
             (fst (New config name)))).
Proof.
  intros eff. pose proof (New_cases config name) as Hnew. cbn zeta in Hnew. fold eff in Hnew.
  split; [|split; [|split; [|split]]].
  - intros c err -> Hloc Herr.
    assert (Heff : effectiveConfig (Some c) =
      (c, [Log LogLevelWarning "failed to load endpoints config from file" (Some err)])).
    { unfold effectiveConfig.
      apply String.eqb_neq in Hloc. rewrite Hloc. cbn [negb].
      pose proof (loadConfigFromFile_error c err Herr) as Hfst.
      destruct (loadConfigFromFile c) as [c' o]. cbn [fst snd] in *. subst. reflexivity. }
    split; [unfold eff; rewrite Heff; reflexivity|].
    destruct (New_log_prefix (Some c) name) as [rest ->]. rewrite Heff. cbn [snd].
    left. reflexivity.
  - intros err Herr. apply (parse_error_iff _ Millisecond) in Herr.
    rewrite Herr in Hnew. rewrite Hnew. reflexivity.
  - intros err Hok Herr.
    apply (parse_ok_iff _ Millisecond) in Hok. apply (parse_error_iff _ Second) in Herr.
    rewrite Hok, Herr in Hnew. rewrite Hnew. reflexivity.
  - intros Hnil.
    rewrite <- (parse_ok_iff (RetryDelay eff) Millisecond).
    rewrite <- (parse_ok_iff (UserRetryDelay eff) Second).
    destruct (snd (parseDurationOrDefault (RetryDelay eff) Millisecond)) as [e1|].
    + rewrite Hnew. split; [intros [th Hth]; discriminate|intros [Hno _]; discriminate].
    + destruct (snd (parseDurationOrDefault (UserRetryDelay eff) Second)) as [e2|].
      * rewrite Hnew. split; [intros [th Hth]; discriminate|intros [_ Hno]; discriminate].
      * destruct Hnew as [Hnew _]. rewrite (Hnew Hnil). cbn [snd].
        split; [intros _; split; reflexivity|].
        intros _. eexists. reflexivity.
  - intros th Hth.
    destruct (snd (parseDurationOrDefault (RetryDelay eff) Millisecond)) as [e1|];
      [rewrite Hnew in Hth; discriminate|].
    destruct (snd (parseDurationOrDefault (UserRetryDelay eff) Second)) as [e2|];
      [rewrite Hnew in Hth; discriminate|].
    destruct Hnew as [Hok Hpanic].
    destruct (decide (nil_free (Endpoints eff))) as [Hnil|Hnil];
      [|rewrite (Hpanic Hnil) in Hth; discriminate].
    rewrite (Hok Hnil) in Hth |- *. cbn [fst snd] in *. injection Hth as <-.
    cbn [globalConfig limits endpointConfigs].
    split; [intros ->; reflexivity|]. split; [intros ->; reflexivity|].
    intros path method ec Hec.
    rewrite lookup2_newLimits, lookup2_resolved, Hec.
    cbn [fmap option_fmap option_map mbind option_bind].
    apply lookup2_Some in Hec. destruct Hec as (ms & Hp & Hm).
    split.
    + intros err Herr. apply (parse_error_iff _ Millisecond) in Herr.
      assert (Hd : endpointRetryDelay ec =
        (Millisecond, [Log LogLevelWarning "invalid retry delay for endpoint" (Some err)])).
      { unfold endpointRetryDelay.
        destruct (parseDurationOrDefault (RetryDelay ec) Millisecond) as [d o].
        cbn [snd] in Herr. subst o. reflexivity. }
      split.
      * unfold newEndpointState, Endpoint.fresh. cbn [Endpoint.retryDelay].
        rewrite Hd. reflexivity.
      * apply in_or_app. right.
        apply (loopWarnings_elem _ path method ms ec _ Hp Hm).
        unfold endpointWarnings. rewrite Hd. cbn [snd]. apply in_or_app. left. left. reflexivity.
    + intros err Herr. apply (parse_error_iff _ Second) in Herr.
      assert (Hd : endpointUserRetryDelay ec =
        (Second, [Log LogLevelWarning "invalid user retry delay for endpoint" (Some err)])).
      { unfold endpointUserRetryDelay.
        destruct (parseDurationOrDefault (UserRetryDelay ec) Second) as [d o].
        cbn [snd] in Herr. subst o. reflexivity. }
      split.
      * unfold resolvedEndpointConfig, set_durations. cbn [userRetryDelayDuration].
        rewrite Hd. reflexivity.
      * apply in_or_app. right.
        apply (loopWarnings_elem _ path method ms ec _ Hp Hm).
        unfold endpointWarnings. rewrite Hd. cbn [snd]. apply in_or_app. right. left. reflexivity.
Qed.

(** C5 (as amended): for a key with an override, the endpoint state takes
    [maxRequests], [maxQueue] and [retryCount] from the override as they
    stand, zero included; its [retryDelay] is the override's string parsed,
    or 1 ms when that string is empty or does not parse; the user retry
    delay is the override's string parsed, or 1 s likewise.  Only
    [userMaxRequests] falls back on the global value, when the override's
    is not positive. *)
Theorem override_resolution (config : option Config) (name : string) (th : Throttle)
    (path method : string) (ec : Config) :
  snd (New config name) = Returns (Ok th) ->
  lookup2 (Endpoints (fst (effectiveConfig config))) path method = Some (Some ec) ->
  snd (getEndpointConfig th path method) =
    Endpoint.fresh (MaxRequests ec) (MaxQueue ec) (RetryCount ec)
      (fst (parseDurationOrDefault (RetryDelay ec) Millisecond)) /\
  newUserState th path method =
    {| User.maxRequests :=
         if 0 <? UserMaxRequests ec then UserMaxRequests ec
         else UserMaxRequests (fst (effectiveConfig config));
       User.retryDelay := fst (parseDurationOrDefault (UserRetryDelay ec) Second);
       User.requestsCount := 0 |} /\
  (RetryDelay ec = "" ->
   Endpoint.retryDelay (snd (getEndpointConfig th path method)) = Millisecond) /\
  (UserRetryDelay ec = "" ->
   User.retryDelay (newUserState th path method) = Second).
Proof.
  intros Hth Hec. pose proof (New_cases config name) as Hnew. cbn zeta in Hnew.
  set (eff := fst (effectiveConfig config)) in *.
  destruct (snd (parseDurationOrDefault (RetryDelay eff) Millisecond)) as [e1|];
    [rewrite Hnew in Hth; discriminate|].
  destruct (snd (parseDurationOrDefault (UserRetryDelay eff) Second)) as [e2|];
    [rewrite Hnew in Hth; discriminate|].
  destruct Hnew as [Hok Hpanic].
  destruct (decide (nil_free (Endpoints eff))) as [Hnil|Hnil];
    [|rewrite (Hpanic Hnil) in Hth; discriminate].
  rewrite (Hok Hnil) in Hth. cbn [snd] in Hth. injection Hth as <-.
  pose proof (lookup2_newLimits (Endpoints eff) path method) as Hlim.
  pose proof (lookup2_resolved (Endpoints eff) path method) as Hres.
  rewrite Hec in Hlim, Hres. cbn [fmap option_fmap option_map mbind option_bind] in Hlim, Hres.
  apply lookup2_Some in Hlim. destruct Hlim as (sts & Hsts & Hst).
  apply lookup2_Some in Hres. destruct Hres as (ecs & Hecs & Hecr).
  assert (Hstate : snd (getEndpointConfig
     {| globalConfig :=
          set_Endpoints (resolvedEndpoints (Endpoints eff))
            (set_durations (fst (parseDurationOrDefault (RetryDelay eff) Millisecond))
               (fst (parseDurationOrDefault (UserRetryDelay eff) Second)) eff);
        endpointConfigs := resolvedEndpoints (Endpoints eff);
        name := name;
        limits := newLimits (Endpoints eff);
        userLimits := ∅ |} path method) =
     Endpoint.fresh (MaxRequests ec) (MaxQueue ec) (RetryCount ec)
       (fst (parseDurationOrDefault (RetryDelay ec) Millisecond))).
  { unfold getEndpointConfig. cbn [limits]. rewrite Hsts, Hst. cbn [snd].
    unfold newEndpointState. rewrite endpointRetryDelay_fst. reflexivity. }
  assert (Huser : newUserState
     {| globalConfig :=
          set_Endpoints (resolvedEndpoints (Endpoints eff))
            (set_durations (fst (parseDurationOrDefault (RetryDelay eff) Millisecond))
               (fst (parseDurationOrDefault (UserRetryDelay eff) Second)) eff);
        endpointConfigs := resolvedEndpoints (Endpoints eff);
        name := name;
        limits := newLimits (Endpoints eff);
        userLimits := ∅ |} path method =
     {| User.maxRequests :=
          if 0 <? UserMaxRequests ec then UserMaxRequests ec else UserMaxRequests eff;
        User.retryDelay := fst (parseDurationOrDefault (UserRetryDelay ec) Second);
        User.requestsCount := 0 |}).
  { unfold newUserState. cbn [endpointConfigs globalConfig]. rewrite Hecs, Hecr.
    cbn [default].
    unfold resolvedEndpointConfig, set_durations, set_Endpoints.
    cbn [UserMaxRequests userRetryDelayDuration].
    rewrite endpointUserRetryDelay_fst. reflexivity. }
  split; [exact Hstate|]. split; [exact Huser|]. split.
  - intros Hempty. rewrite Hstate, Hempty. reflexivity.
  - intros Hempty. rewrite Huser, Hempty. reflexivity.
Qed.

End ConfigFacts.

(** *** On the sample runtime *)

(** The claim of C3 fails for the global retry delay: [New] returns an
    error, and no handler, for a configuration whose [retryDelay] does not
    parse. *)
Lemma New_global_delay_counterexample :
  New (H := Sample.runtime) (Some Sample.bad_global_delay) "throttle" =
    ([], Returns (Err "invalid global retry delay: time: invalid duration")).
Proof. vm_compute. reflexivity. Qed.

(** The claim of C5 fails: the fields the override leaves unset do not take
    the global values.  The state of the overridden key has
    [maxRequests = 0], [retryCount = 0] and a retry delay of 1 ms against
    the global 10, 3 and 500 ms, and the user retry delay is 1 s against
    the global 2 s. *)
Lemma override_resolution_counterexample :
  match snd (New (H := Sample.runtime) (Some Sample.sparse_config) "throttle") with
  | Returns (Ok th) =>
      let st := snd (getEndpointConfig th "/api/v1/resource" "GET") in
      let u := newUserState th "/api/v1/resource" "GET" in
      Endpoint.maxRequests st = 0 /\ MaxRequests (globalConfig th) = 10 /\
      Endpoint.maxQueue st = 7 /\
      Endpoint.retryCount st = 0 /\ RetryCount (globalConfig th) = 3 /\
      Endpoint.retryDelay st = Millisecond /\
      retryDelayDuration (globalConfig th) = 500 * Millisecond /\
      User.maxRequests u = 2 /\
      User.retryDelay u = Second /\
      userRetryDelayDuration (globalConfig th) = 2 * Second
  | _ => False
  end.
Proof. vm_compute. repeat split; reflexivity. Qed.

Lemma override_resolution_witness :
  match snd (New (H := Sample.runtime) (Some Sample.sparse_config) "throttle") with
  | Returns (Ok th) =>
      lookup2
        (Endpoints (fst (effectiveConfig (H := Sample.runtime) (Some Sample.sparse_config))))
        "/api/v1/resource" "GET" = Some (Some Sample.sparse_override) /\
      snd (getEndpointConfig th "/api/v1/resource" "GET") =
        Endpoint.fresh 0 7 0
          (fst (parseDurationOrDefault (H := Sample.runtime) "" Millisecond))
  | _ => False
  end.
Proof.
  destruct (snd (New (H := Sample.runtime) (Some Sample.sparse_config) "throttle"))
    as [[th|err]|] eqn:Hnew; try (vm_compute in Hnew; discriminate).
  assert (Hec : lookup2
    (Endpoints (fst (effectiveConfig (H := Sample.runtime) (Some Sample.sparse_config))))
    "/api/v1/resource" "GET" = Some (Some Sample.sparse_override)) by (vm_compute; reflexivity).
  exact (conj Hec
    (proj1 (override_resolution (H := Sample.runtime) (Some Sample.sparse_config) "throttle" th
              "/api/v1/resource" "GET" Sample.sparse_override Hnew Hec))).
Defined.

(** With a policy file that loads, [New] works on what the file says and on
    zero values for the rest: the defaults of [CreateConfig] are gone. *)
Example New_from_policy_file :
  match New (H := Sample.runtime) (Some (Sample.with_location Sample.policy_file)) "throttle" with
  | (log, Returns (Ok th)) =>
      log = [] /\
      MaxRequests (globalConfig th) = 0 /\ RetryCount (globalConfig th) = 0 /\
      UserMaxRequests (globalConfig th) = 0 /\
      retryDelayDuration (globalConfig th) = Millisecond /\
      userRetryDelayDuration (globalConfig th) = Second /\
      lookup2 (limits th) "/api/v1/resource" "GET" =
        Some (Endpoint.fresh 20 10 5 (200 * Millisecond))
  | _ => False
  end.
Proof. vm_compute. repeat split; reflexivity. Qed.

(** With a policy file that does not decode, or is not there, [New] logs a
    warning and works on the configuration it was given. *)
Example New_from_broken_file :
  New (H := Sample.runtime) (Some (Sample.with_location Sample.broken_file)) "throttle" =
    ([Log LogLevelWarning "failed to load endpoints config from file"
        (Some "failed to parse config file: yaml: did not find expected node content")],
     Returns (Ok {| globalConfig :=
                      set_durations (200 * Millisecond) Second
                        (Sample.with_location Sample.broken_file);
                    endpointConfigs := ∅; name := "throttle";
                    limits := ∅; userLimits := ∅ |})) /\
  fst (New (H := Sample.runtime) (Some (Sample.with_location "/nowhere")) "throttle") =
    [Log LogLevelWarning "failed to load endpoints config from file"
       (Some "failed to open config file: open: no such file or directory")].
Proof. vm_compute. split; reflexivity. Qed.

(** A nil override entry makes the loop of [New] panic. *)
Example New_nil_override :
  snd (New (H := Sample.runtime) (Some Sample.nil_override) "throttle") = Panics.
Proof. vm_compute. reflexivity. Qed.

(** ** Identity and dispatch *)

Section IdentityFacts.
Context `{Runtime}.

(** C9: [getUserIDFromJWT] never returns an error; a header that is absent
    or does not start with [Bearer ], a token that does not decode, and
    claims without a string under [sub] all give the empty identifier; and
    on the empty identifier [ServeHTTP] leaves the user tier alone, writes no
    status, and hands the request to [applyRateLimiting] with the state of
    its path and method. *)
Theorem identity_never_blocks (t : Throttle) (req : Request) :
  snd (getUserIDFromJWT req) = None /\
  (Header req !! "Authorization" = None -> fst (getUserIDFromJWT req) = "") /\
  (HasPrefix (Header_Get req "Authorization") "Bearer " = false ->
   fst (getUserIDFromJWT req) = "") /\
  (forall err,
     jwt_ParseUnverified (TrimPrefix (Header_Get req "Authorization") "Bearer ") = Err err ->
     fst (getUserIDFromJWT req) = "") /\
  (forall claims,
     jwt_ParseUnverified (TrimPrefix (Header_Get req "Authorization") "Bearer ")
       = Ok (MapClaims claims) ->
     (forall userID, claims !! "sub" <> Some (JString userID)) ->
     fst (getUserIDFromJWT req) = "") /\
  (fst (getUserIDFromJWT req) = "" ->
   ServeHTTP t req =
     (fst (getEndpointConfig t (Path req) (Method req)),
      [HeaderAdd "x-throttle-level" "endpoint"],
      ToEndpoint (Path req) (Method req)
        (Endpoint.start (snd (getEndpointConfig t (Path req) (Method req))))) /\
   userLimits (fst (fst (ServeHTTP t req))) = userLimits t).
Proof.
  assert (Hprefix : HasPrefix (Header_Get req "Authorization") "Bearer " = false ->
                    fst (getUserIDFromJWT req) = "").
  { intros Hno. unfold getUserIDFromJWT. rewrite Hno. reflexivity. }
  split; [|split; [|split; [|split; [|split]]]].
  - unfold getUserIDFromJWT.
    destruct (HasPrefix (Header_Get req "Authorization") "Bearer "); [|reflexivity].
    cbn [negb].
    destruct (jwt_ParseUnverified _) as [[claims|]|err]; try reflexivity.
    destruct (claims !! "sub") as [[userID| | | |]|]; reflexivity.
  - intros Habsent. apply Hprefix. unfold Header_Get. rewrite Habsent. reflexivity.
  - exact Hprefix.
  - intros err Herr. unfold getUserIDFromJWT.
    destruct (HasPrefix (Header_Get req "Authorization") "Bearer "); [|reflexivity].
    cbn [negb]. rewrite Herr. reflexivity.
  - intros claims Hclaims Hsub. unfold getUserIDFromJWT.
    destruct (HasPrefix (Header_Get req "Authorization") "Bearer "); [|reflexivity].
    cbn [negb]. rewrite Hclaims.
    destruct (claims !! "sub") as [[userID| | | |]|] eqn:Hs; try reflexivity.
    exfalso. apply (Hsub userID). reflexivity.
  - intros Hanon.
    assert (Hserve : ServeHTTP t req =
      (fst (getEndpointConfig t (Path req) (Method req)),
       [HeaderAdd "x-throttle-level" "endpoint"],
       ToEndpoint (Path req) (Method req)
         (Endpoint.start (snd (getEndpointConfig t (Path req) (Method req)))))).
    { unfold ServeHTTP. destruct (getUserIDFromJWT req) as [userID err].
      cbn [fst] in Hanon. subst userID. cbn [String.eqb].
      destruct (getEndpointConfig t (Path req) (Method req)) as [t1 st]. reflexivity. }
    split; [exact Hserve|].
    rewrite Hserve. cbn [fst]. unfold getEndpointConfig.
    destruct (limits t !! Path req) as [ms|];
      match goal with |- context [?m !! Method req] => destruct (m !! Method req) end;
      reflexivity.
Qed.

End IdentityFacts.

(** A request with a credential passes the user tier first; one without goes
    to the endpoint tier at once. *)
Example ServeHTTP_on_sample :
  match snd (New (H := Sample.runtime) None "throttle") with
  | Returns (Ok th) =>
      getUserIDFromJWT (H := Sample.runtime) Sample.alice_request = ("alice", None) /\
      snd (fst (ServeHTTP (H := Sample.runtime) th Sample.alice_request)) =
        [HeaderAdd "x-throttle-level" "user"; AfterFunc Second;
         HeaderAdd "x-throttle-level" "endpoint or global"] /\
      snd (ServeHTTP (H := Sample.runtime) th Sample.alice_request) =
        ToEndpoint "/api/v1/resource" "GET" (Endpoint.AtLoop 3 false false) /\
      snd (fst (ServeHTTP (H := Sample.runtime) th Sample.anonymous_request)) =
        [HeaderAdd "x-throttle-level" "endpoint"] /\
      userLimits (fst (fst (ServeHTTP (H := Sample.runtime) th Sample.anonymous_request))) = ∅
  | _ => False
  end.
Proof. vm_compute. repeat split; reflexivity. Qed.

(** ** Lazy creation of the endpoint state *)

Section RegistryFacts.
Import Registry.

(** The second read of [getEndpointConfig] is not repeated under the write
    lock: two first requests to one key that both find no state there each
    register one and are admitted against their own counters.  With
    [maxRequests = 1] both are in the upstream handler at once, and the
    registry keeps the state registered last. *)
Theorem first_requests_get_two_states :
  let sys := run "/orders" "GET" [0; 0; 1; 0; 1; 0; 1; 0; 1; 0; 1]%nat two_arrivals in
  requests sys = [Admitting 0 Endpoint.InUpstream; Admitting 1 Endpoint.InUpstream] /\
  forwarded sys = 2%nat /\
  Endpoint.maxRequests (globalState (reg sys)) = 1 /\
  methodMaps (reg sys) = [{[ "GET" := 1%nat ]}] /\
  (Endpoint.requestsCount <$> states (reg sys)) = [1; 1].
Proof. vm_compute. repeat split; reflexivity. Qed.

(** The first read is repeated under the write lock, but the request that
    finds the path registered in the meantime keeps its nil [methodStates]
    and goes on to assign into it. *)
Theorem first_requests_nil_map :
  let sys := run "/orders" "GET" [0; 1; 0; 1; 1; 1]%nat two_arrivals in
  requests sys !! 1%nat = Some (Looking NilMapPanic).
Proof. vm_compute. reflexivity. Qed.

End RegistryFacts.

(** * Further properties *)

(** ** The endpoint tier *)

Section EndpointMore.
Import Endpoint.

Lemma run_alone_finished (fuel : nat) (s : endpointState) (r : response) :
  run_alone fuel s (Finished r) = (s, Finished r, []).
Proof.
  induction fuel as [|fuel IH]; [reflexivity|].
  cbn [run_alone step]. rewrite IH. reflexivity.
Qed.

Lemma set_requestsCount_id (s : endpointState) :
  set_requestsCount (requestsCount s) s = s.
Proof. destruct s. reflexivity. Qed.

Lemma set_queueCount_id (s : endpointState) :
  set_queueCount (queueCount s) s = s.
Proof. destruct s. reflexivity. Qed.

(** A request that finds room is let through on its first attempt, and when
    the upstream call is over the state is as the request found it. *)
Theorem idle_request_round_trip (s : endpointState) (fuel : nat) :
  GoInt.in_range (requestsCount s) ->
  GoInt.in_range (maxRequests s) ->
  0 <= retryCount s ->
  requestsCount s < maxRequests s ->
  step s (start s) =
    (set_requestsCount (requestsCount s + 1) s, InUpstream,
     [Attempt (retryCount s); ReqInc; Forward]) /\
  run_alone (S (S fuel)) s (start s) =
    (s, Finished Served, [Attempt (retryCount s); ReqInc; Forward; ReqDec]).
Proof.
  intros Hcount Hmax Hrc Hroom.
  assert (Hincr : GoInt.incr (requestsCount s) = requestsCount s + 1).
  { apply (incr_below _ (maxRequests s)); [assumption|assumption|apply Hmax]. }
  assert (Hdecr : GoInt.decr (requestsCount s + 1) = requestsCount s).
  { unfold GoInt.in_range in *.
    rewrite (decr_above _ (requestsCount s)); unfold GoInt.in_range; lia. }
  assert (Hstep : step s (start s) =
    (set_requestsCount (requestsCount s + 1) s, InUpstream,
     [Attempt (retryCount s); ReqInc; Forward])).
  { unfold start, step. apply Z.leb_le in Hrc. rewrite Hrc.
    apply Z.ltb_lt in Hroom. rewrite Hroom, Hincr. reflexivity. }
  split; [exact Hstep|].
  cbn [run_alone]. rewrite Hstep. cbn [step set_requestsCount requestsCount].
  rewrite Hdecr, run_alone_finished.
  destruct s. reflexivity.
Qed.

Lemma idle_request_round_trip_witness :
  GoInt.in_range (requestsCount (fresh 1 0 3 (200 * Millisecond))) /\
  GoInt.in_range (maxRequests (fresh 1 0 3 (200 * Millisecond))) /\
  0 <= retryCount (fresh 1 0 3 (200 * Millisecond)) /\
  requestsCount (fresh 1 0 3 (200 * Millisecond))
    < maxRequests (fresh 1 0 3 (200 * Millisecond)) /\
  run_alone 2 (fresh 1 0 3 (200 * Millisecond)) (start (fresh 1 0 3 (200 * Millisecond))) =
    (fresh 1 0 3 (200 * Millisecond), Finished Served,
     [Attempt 3; ReqInc; Forward; ReqDec]).
Proof.
  assert (H1 : GoInt.in_range (requestsCount (fresh 1 0 3 (200 * Millisecond)))).
  { unfold GoInt.in_range, GoInt.min_int, GoInt.max_int. simpl. lia. }
  assert (H2 : GoInt.in_range (maxRequests (fresh 1 0 3 (200 * Millisecond)))).
  { unfold GoInt.in_range, GoInt.min_int, GoInt.max_int. simpl. lia. }
  assert (H3 : 0 <= retryCount (fresh 1 0 3 (200 * Millisecond))) by (simpl; lia).
  assert (H4 : requestsCount (fresh 1 0 3 (200 * Millisecond))
               < maxRequests (fresh 1 0 3 (200 * Millisecond))) by (simpl; lia).
  exact (conj H1 (conj H2 (conj H3 (conj H4
    (proj2 (idle_request_round_trip (fresh 1 0 3 (200 * Millisecond)) 0 H1 H2 H3 H4)))))).
Defined.

(** The loop of a request that holds a reservation and never finds room:
    it gives the reservation back when its attempts are used up. *)
Lemma waiting_loop (n fuel : nat) :
  forall (s : endpointState) (a : Z),
    maxRequests s <= requestsCount s ->
    a = Z.of_nat n - 1 -> a <= GoInt.max_int ->
    fst (run_alone (S n + fuel) s (AtLoop a true true)) =
      (set_queueCount (GoInt.decr (queueCount s)) s,
       Finished (Rejected StatusTooManyRequests)).
Proof.
  induction n as [|n IH]; intros s a Hbusy Ha Hmax.
  - subst a. cbn [Nat.add run_alone]. unfold step.
    change (0 <=? Z.of_nat 0 - 1) with false. cbn iota.
    rewrite run_alone_finished. reflexivity.
  - assert (Hge : 0 <= a) by lia.
    assert (Hdecr : GoInt.decr a = a - 1).
    { apply (decr_above a (-1)); unfold GoInt.in_range, GoInt.min_int in *; lia. }
    change (S (S n) + fuel)%nat with (S (S n + fuel)).
    cbn [run_alone]. unfold step at 1.
    apply Z.leb_le in Hge. rewrite Hge.
    apply Z.ltb_ge in Hbusy. rewrite Hbusy. cbn [negb].
    rewrite Hdecr.
    apply Z.ltb_ge in Hbusy.
    specialize (IH s (a - 1) Hbusy ltac:(lia) ltac:(lia)).
    destruct (run_alone (S n + fuel) s (AtLoop (a - 1) true true)) as [[s2 t2] ev2].
    cbn [fst] in *. exact IH.
Qed.

(** A request that finds the endpoint busy and the queue with room for more
    than one, and never finds room in [retryCount + 1] attempts, is rejected
    with 429 and leaves both counters as it found them. *)
Theorem exhausted_request_round_trip (s : endpointState) (fuel : nat) :
  GoInt.in_range (retryCount s) ->
  GoInt.in_range (queueCount s) ->
  GoInt.in_range (maxQueue s) ->
  0 <= retryCount s ->
  maxRequests s <= requestsCount s ->
  queueCount s + 1 < maxQueue s ->
  fst (run_alone (Z.to_nat (retryCount s) + 2 + fuel) s (start s)) =
    (s, Finished (Rejected StatusTooManyRequests)).
Proof.
  intros Hrc Hq Hmq Hrc0 Hbusy Hroom.
  unfold GoInt.in_range in *.
  assert (Hincr : GoInt.incr (queueCount s) = queueCount s + 1).
  { apply (incr_below _ (maxQueue s)); unfold GoInt.in_range; lia. }
  assert (Hdecr : GoInt.decr (retryCount s) = retryCount s - 1).
  { apply (decr_above _ (-1)); unfold GoInt.in_range, GoInt.min_int in *; lia. }
  assert (Hback : GoInt.decr (queueCount s + 1) = queueCount s).
  { rewrite (decr_above _ (queueCount s)); unfold GoInt.in_range; lia. }
  replace (Z.to_nat (retryCount s) + 2 + fuel)%nat
    with (S (S (Z.to_nat (retryCount s)) + fuel)) by lia.
  cbn [run_alone]. unfold start, step at 1.
  assert (H0 : (0 <=? retryCount s) = true) by (apply Z.leb_le; lia).
  assert (H1 : (requestsCount s <? maxRequests s) = false) by (apply Z.ltb_ge; lia).
  assert (H2 : (queueCount s <? maxQueue s) = true) by (apply Z.ltb_lt; lia).
  rewrite H0, H1, H2. cbn [negb maxQueue queueCount set_queueCount retryDelay].
  rewrite Hincr.
  assert (H3 : (maxQueue s <=? queueCount s + 1) = false) by (apply Z.leb_gt; lia).
  rewrite H3, Hdecr.
  pose proof (waiting_loop (Z.to_nat (retryCount s)) fuel
                (set_queueCount (queueCount s + 1) s) (retryCount s - 1)) as Hloop.
  cbn [maxRequests requestsCount queueCount set_queueCount] in Hloop.
  specialize (Hloop Hbusy ltac:(lia) ltac:(lia)).
  destruct (run_alone _ _ (AtLoop (retryCount s - 1) true true)) as [[s2 t2] ev2].
  cbn [fst] in *. rewrite Hloop, Hback.
  destruct s. reflexivity.
Qed.

Lemma exhausted_request_round_trip_witness :
  GoInt.in_range (retryCount busy_roomy) /\
  GoInt.in_range (queueCount busy_roomy) /\
  GoInt.in_range (maxQueue busy_roomy) /\
  0 <= retryCount busy_roomy /\
  maxRequests busy_roomy <= requestsCount busy_roomy /\
  queueCount busy_roomy + 1 < maxQueue busy_roomy /\
  fst (run_alone (Z.to_nat (retryCount busy_roomy) + 2 + 0) busy_roomy (start busy_roomy)) =
    (busy_roomy, Finished (Rejected StatusTooManyRequests)).
Proof.
  assert (H1 : GoInt.in_range (retryCount busy_roomy)).
  { unfold GoInt.in_range, GoInt.min_int, GoInt.max_int. simpl. lia. }
  assert (H2 : GoInt.in_range (queueCount busy_roomy)).
  { unfold GoInt.in_range, GoInt.min_int, GoInt.max_int. simpl. lia. }
  assert (H3 : GoInt.in_range (maxQueue busy_roomy)).
  { unfold GoInt.in_range, GoInt.min_int, GoInt.max_int. simpl. lia. }
  assert (H4 : 0 <= retryCount busy_roomy) by (simpl; lia).
  assert (H5 : maxRequests busy_roomy <= requestsCount busy_roomy) by (simpl; lia).
  assert (H6 : queueCount busy_roomy + 1 < maxQueue busy_roomy) by (simpl; lia).
  exact (conj H1 (conj H2 (conj H3 (conj H4 (conj H5 (conj H6
    (exhausted_request_round_trip busy_roomy 0 H1 H2 H3 H4 H5 H6))))))).
Defined.

Lemma never_waited_step (P s : endpointState) (t : thread) (tr : list event) :
  maxQueue P <= 1 ->
  same_policy P s -> 0 <= queueCount s ->
  never_waited P t tr ->
  past_loop (snd (fst (step s t))) (tr ++ snd (step s t)).
Proof.
  intros Hsmall (Hmr & Hmq & Hrc & Hrd) Hq [[-> ->] | [Hdone [Hsl Hat]]].
  - unfold start, step, past_loop.
    destruct (0 <=? retryCount P).
    + destruct (requestsCount s <? maxRequests s).
      * cbn. split; [left; reflexivity|]. split; [reflexivity|]. unfold count. cbn. lia.
      * cbn [negb].
        destruct (queueCount s <? maxQueue s) eqn:Hroom.
        -- apply Z.ltb_lt in Hroom.
           assert (Hzero : queueCount s = 0) by lia.
           assert (Hone : maxQueue s = 1) by lia.
           cbn [maxQueue queueCount set_queueCount retryDelay].
           rewrite Hzero, Hone. change (1 <=? GoInt.incr 0) with true. cbn iota.
           cbn [fst snd]. split; [right; eexists; reflexivity|].
           unfold count. cbn. split; [reflexivity|lia].
        -- rewrite Z.ltb_ge in Hroom. apply Z.leb_le in Hroom. rewrite Hroom.
           cbn [fst snd]. split; [right; eexists; reflexivity|].
           unfold count. cbn. split; [reflexivity|lia].
    + cbn [fst snd]. split; [right; eexists; reflexivity|].
      unfold count. cbn. split; [reflexivity|lia].
  - unfold past_loop. destruct Hdone as [-> | [r ->]].
    + cbn [step fst snd]. split; [right; eexists; reflexivity|].
      rewrite !count_app. unfold count at 2 4. cbn. lia.
    + cbn [step fst snd]. rewrite app_nil_r.
      split; [right; eexists; reflexivity|]. split; assumption.
Qed.

Lemma never_waited_run (P : endpointState) (obs : list endpointState) :
  maxQueue P <= 1 ->
  Forall (fun o => same_policy P o /\ 0 <= queueCount o) obs ->
  forall (t : thread) (tr : list event),
    never_waited P t tr ->
    never_waited P (fst (run_with obs t)) (tr ++ snd (run_with obs t)) /\
    (obs <> [] -> past_loop (fst (run_with obs t)) (tr ++ snd (run_with obs t))).
Proof.
  intros Hsmall Hobs.
  induction Hobs as [|o obs [Hpol Hq] Hobs IH]; intros t tr H0.
  - cbn. rewrite app_nil_r. split; [exact H0|intros Hne; contradiction].
  - pose proof (never_waited_step P o t tr Hsmall Hpol Hq H0) as Hstep.
    cbn [run_with]. destruct (step o t) as [[s1 t1] ev1]. cbn [fst snd] in Hstep.
    destruct (IH t1 (tr ++ ev1) (or_intror Hstep)) as [Hnw Hpast].
    assert (Hp : past_loop (fst (run_with obs t1)) ((tr ++ ev1) ++ snd (run_with obs t1))).
    { destruct obs as [|o' obs'].
      - cbn. rewrite app_nil_r. exact Hstep.
      - apply Hpast. discriminate. }
    destruct (run_with obs t1) as [t2 ev2]. cbn [fst snd] in *.
    rewrite app_assoc.
    split; [right; exact Hp|intros _; exact Hp].
Qed.

(** With room for at most one request in the queue no request ever waits:
    it is let through or rejected in its first attempt, and [retryCount]
    and [retryDelay] have no effect. *)
Theorem small_queue_never_waits (s : endpointState) (obs : list endpointState)
    (t : thread) (tr : list event) :
  maxQueue s <= 1 ->
  Forall (fun o => same_policy s o /\ 0 <= queueCount o) obs ->
  run_with obs (start s) = (t, tr) ->
  count is_sleep tr = 0%nat /\
  (count is_attempt tr <= 1)%nat /\
  (obs <> [] -> t = InUpstream \/ exists r, t = Finished r).
Proof.
  intros Hsmall Hobs Hrun.
  destruct (never_waited_run s obs Hsmall Hobs (start s) []
              (or_introl (conj eq_refl eq_refl))) as [Hnw Hpast].
  rewrite Hrun in Hnw, Hpast. cbn [fst snd app] in Hnw, Hpast.
  split; [|split].
  - destruct Hnw as [[_ ->] | (_ & Hsl & _)]; [reflexivity|exact Hsl].
  - destruct Hnw as [[_ ->] | (_ & _ & Hat)]; [unfold count; cbn; lia|exact Hat].
  - intros Hne. apply (Hpast Hne).
Qed.

Lemma small_queue_never_waits_witness :
  maxQueue busy_single <= 1 /\
  Forall (fun o => same_policy busy_single o /\ 0 <= queueCount o) (repeat busy_single 3) /\
  count is_sleep (snd (run_with (repeat busy_single 3) (start busy_single))) = 0%nat.
Proof.
  assert (H1 : maxQueue busy_single <= 1) by (simpl; lia).
  assert (H2 : Forall (fun o => same_policy busy_single o /\ 0 <= queueCount o)
                      (repeat busy_single 3)).
  { repeat constructor; simpl; lia. }
  exact (conj H1 (conj H2
    (proj1 (small_queue_never_waits busy_single (repeat busy_single 3) _ _ H1 H2 eq_refl)))).
Defined.

(** *** Endpoints that let nothing through *)

Lemma filter_length_none (p : thread -> bool) (Q : thread -> Prop) (l : list thread) :
  (forall t, Q t -> p t = false) -> Forall Q l -> length (List.filter p l) = 0%nat.
Proof.
  intros Hq. induction 1 as [|x l Hx Hl IH]; [reflexivity|].
  cbn [List.filter]. rewrite (Hq x Hx). exact IH.
Qed.

(** With a negative [retryCount] the loop is never entered: every request,
    whatever the interleaving, is rejected with 429 without an attempt, none
    is forwarded, and the state is never written. *)
Theorem negative_retryCount_rejects_all (mr mq rc : Z) (rd : Duration)
    (schedule : list action) :
  rc < 0 ->
  let sys := sys_run schedule {| shared := fresh mr mq rc rd; pool := [] |} in
  shared sys = fresh mr mq rc rd /\
  forwarded sys = 0 /\
  Forall (turned_away rc) (pool sys).
Proof.
  intros Hneg sys.
  assert (Hinv : shared sys = fresh mr mq rc rd /\ Forall (turned_away rc) (pool sys)).
  { subst sys. unfold sys_run.
    assert (Hgen : forall sys0,
      shared sys0 = fresh mr mq rc rd /\ Forall (turned_away rc) (pool sys0) ->
      shared (fold_left sys_step schedule sys0) = fresh mr mq rc rd /\
      Forall (turned_away rc) (pool (fold_left sys_step schedule sys0))).
    { induction schedule as [|a schedule IH]; intros sys0 [Hs Hp]; [split; assumption|].
      cbn [fold_left]. apply IH. destruct sys0 as [s ts]. cbn [shared pool] in *. subst s.
      destruct a as [|i]; cbn [sys_step shared pool].
      - split; [reflexivity|]. apply Forall_app. split; [exact Hp|].
        constructor; [left; reflexivity|constructor].
      - destruct (ts !! i) as [t|] eqn:Hi; [|split; [reflexivity|exact Hp]].
        pose proof (Forall_lookup_1 _ _ _ _ Hp Hi) as [-> | ->].
        + unfold step. apply Z.leb_gt in Hneg. rewrite Hneg. cbn [shared pool].
          split; [reflexivity|]. apply Forall_insert; [exact Hp|right; reflexivity].
        + cbn [step shared pool]. split; [reflexivity|].
          apply Forall_insert; [exact Hp|right; reflexivity]. }
    apply Hgen. split; [reflexivity|constructor]. }
  destruct Hinv as [Hs Hp]. split; [exact Hs|]. split; [|exact Hp].
  unfold forwarded.
  rewrite (filter_length_none in_upstream (turned_away rc)); [reflexivity| |exact Hp].
  intros t [-> | ->]; reflexivity.
Qed.

Lemma negative_retryCount_rejects_all_witness :
  -1 < 0 /\
  forwarded (sys_run [Arrive; Turn 0; Arrive; Turn 1]
               {| shared := fresh 10 5 (-1) Millisecond; pool := [] |}) = 0.
Proof.
  assert (H1 : -1 < 0) by lia.
  exact (conj H1
    (proj1 (proj2 (negative_retryCount_rejects_all 10 5 (-1) Millisecond
                     [Arrive; Turn 0; Arrive; Turn 1] H1)))).
Defined.

(** With a [maxRequests] of zero or less (what an override that does not set
    it gets) no request is ever let through: whatever the interleaving,
    [requestsCount] stays at zero and no request reaches the upstream
    handler. *)
Theorem no_ceiling_no_admission (mr mq rc : Z) (rd : Duration) (schedule : list action) :
  mr <= 0 ->
  let sys := sys_run schedule {| shared := fresh mr mq rc rd; pool := [] |} in
  requestsCount (shared sys) = 0 /\
  forwarded sys = 0 /\
  Forall held_back (pool sys).
Proof.
  intros Hmr sys.
  assert (Hinv : (maxRequests (shared sys) = mr /\ requestsCount (shared sys) = 0) /\
                 Forall held_back (pool sys)).
  { subst sys. unfold sys_run.
    assert (Hgen : forall sys0,
      (maxRequests (shared sys0) = mr /\ requestsCount (shared sys0) = 0) /\
      Forall held_back (pool sys0) ->
      (maxRequests (shared (fold_left sys_step schedule sys0)) = mr /\
       requestsCount (shared (fold_left sys_step schedule sys0)) = 0) /\
      Forall held_back (pool (fold_left sys_step schedule sys0))).
    { induction schedule as [|a schedule IH]; intros sys0 [[Hm Hc] Hp];
        [repeat split; assumption|].
      cbn [fold_left]. apply IH. destruct sys0 as [s ts]. cbn [shared pool] in *.
      destruct a as [|i]; cbn [sys_step shared pool].
      - split; [split; assumption|]. apply Forall_app. split; [exact Hp|].
        constructor; [split; discriminate|constructor].
      - destruct (ts !! i) as [t|] eqn:Hi; [|repeat split; assumption].
        pose proof (Forall_lookup_1 _ _ _ _ Hp Hi) as [Hnu Hns].
        assert (Hclosed : (requestsCount s <? maxRequests s) = false)
          by (apply Z.ltb_ge; lia).
        destruct t as [a queued incQ | | r]; [| contradiction |].
        + unfold step. rewrite Hclosed.
          destruct (0 <=? a).
          * destruct (negb incQ).
            -- destruct (queueCount s <? maxQueue s);
                 cbn [maxQueue queueCount set_queueCount retryDelay];
                 match goal with |- context [if ?c then _ else _] => destruct c end;
                 cbn [shared pool set_queueCount maxRequests requestsCount];
                 (split; [split; assumption|]);
                 (apply Forall_insert; [exact Hp|split; discriminate]).
            -- cbn [shared pool]. split; [split; assumption|].
               apply Forall_insert; [exact Hp|split; discriminate].
          * destruct queued;
              cbn [shared pool set_queueCount maxRequests requestsCount];
              (split; [split; assumption|]);
              (apply Forall_insert; [exact Hp|split; discriminate]).
        + cbn [step shared pool]. split; [split; assumption|].
          apply Forall_insert; [exact Hp|split; assumption]. }
    apply Hgen. cbn. repeat split; constructor. }
  destruct Hinv as [[_ Hc] Hp]. split; [exact Hc|]. split; [|exact Hp].
  unfold forwarded.
  rewrite (filter_length_none in_upstream held_back); [reflexivity| |exact Hp].
  intros t [Hnu _]. destruct t; try reflexivity. contradiction.
Qed.

Lemma no_ceiling_no_admission_witness :
  0 <= 0 /\
  forwarded (sys_run [Arrive; Turn 0; Turn 0; Arrive; Turn 1]
               {| shared := fresh 0 7 0 Millisecond; pool := [] |}) = 0.
Proof.
  assert (H1 : 0 <= 0) by lia.
  exact (conj H1
    (proj1 (proj2 (no_ceiling_no_admission 0 7 0 Millisecond
                     [Arrive; Turn 0; Turn 0; Arrive; Turn 1] H1)))).
Defined.

(** *** Queue slots that are never given back *)

Ltac bools_to_props :=
  repeat match goal with
  | H : (_ <? _) = true |- _ => apply Z.ltb_lt in H
  | H : (_ <? _) = false |- _ => apply Z.ltb_ge in H
  | H : (_ <=? _) = true |- _ => apply Z.leb_le in H
  | H : (_ <=? _) = false |- _ => apply Z.leb_gt in H
  end.

Lemma leaked_step (P : endpointState) (sys : system) (a : action) :
  0 <= maxRequests P <= GoInt.max_int ->
  0 <= maxQueue P <= GoInt.max_int ->
  sys_inv P sys ->
  leaked sys <= leaked (sys_step sys a).
Proof.
  intros HmaxR HmaxQ ((Hmr & Hmq & Hrc & Hrd) & Hreq & HreqLe & Hres & HqLe).
  destruct sys as [s ts]. unfold leaked, forwarded, reserved in *. cbn [shared pool] in *.
  assert (Hres0 : 0 <= Z.of_nat (length (List.filter holds_slot ts))) by lia.
  unfold GoInt.max_int in *.
  destruct a as [|i]; cbn [sys_step shared pool].
  - rewrite filter_length_snoc. unfold start. cbn [holds_slot b2z]. lia.
  - destruct (ts !! i) as [t|] eqn:Hi; [|cbn [shared pool]; lia].
    pose proof (filter_length_insert holds_slot ts i t) as Hhold.
    destruct t as [att queued incQ | | r]; unfold step.
    + destruct (0 <=? att) eqn:Hatt.
      * destruct (requestsCount s <? maxRequests s) eqn:Hfree.
        -- specialize (Hhold InUpstream Hi). cbn [holds_slot b2z] in Hhold.
           destruct queued; cbn [shared pool set_requestsCount set_queueCount
             queueCount b2z] in *; rewrite Hhold.
           ++ rewrite (decr_above _ 0);
                unfold GoInt.in_range, GoInt.min_int, GoInt.max_int; lia.
           ++ lia.
        -- destruct incQ; cbn [negb].
           ++ specialize (Hhold (AtLoop (GoInt.decr att) queued true) Hi).
              cbn [holds_slot b2z shared pool] in *. rewrite Hhold. lia.
           ++ destruct (queueCount s <? maxQueue s) eqn:Hroom; bools_to_props.
              ** assert (Hincr : GoInt.incr (queueCount s) = queueCount s + 1).
                 { apply (incr_below _ (maxQueue s));
                     unfold GoInt.in_range, GoInt.min_int, GoInt.max_int; lia. }
                 cbn [maxQueue queueCount set_queueCount retryDelay].
                 destruct (maxQueue s <=? GoInt.incr (queueCount s)).
                 --- specialize (Hhold (Finished (Rejected StatusTooManyRequests)) Hi).
                     cbn [holds_slot b2z shared pool set_queueCount queueCount] in *.
                     rewrite Hincr, Hhold. unfold b2z. destruct queued; lia.
                 --- specialize (Hhold (AtLoop (GoInt.decr att) true true) Hi).
                     cbn [holds_slot b2z shared pool set_queueCount queueCount] in *.
                     rewrite Hincr, Hhold. unfold b2z. destruct queued; lia.
              ** destruct (maxQueue s <=? queueCount s).
                 --- specialize (Hhold (Finished (Rejected StatusTooManyRequests)) Hi).
                     cbn [holds_slot b2z shared pool] in *.
                     rewrite Hhold. unfold b2z. destruct queued; lia.
                 --- specialize (Hhold (AtLoop (GoInt.decr att) queued false) Hi).
                     cbn [holds_slot b2z shared pool] in *. rewrite Hhold. lia.
      * specialize (Hhold (Finished (Rejected StatusTooManyRequests)) Hi).
        destruct queued; cbn [holds_slot b2z shared pool set_queueCount queueCount] in *;
          rewrite Hhold.
        -- pose proof (filter_length_pos holds_slot ts i _ Hi eq_refl).
           rewrite (decr_above _ 0);
             unfold GoInt.in_range, GoInt.min_int, GoInt.max_int; lia.
        -- lia.
    + specialize (Hhold (Finished Served) Hi).
      cbn [holds_slot b2z shared pool set_requestsCount queueCount] in *.
      rewrite Hhold. lia.
    + specialize (Hhold (Finished r) Hi).
      cbn [holds_slot b2z shared pool] in *. rewrite Hhold. lia.
Qed.

Lemma leaked_along_run (mr mq rc : Z) (rd : Duration)
    (before after : list action) :
  0 <= mr <= GoInt.max_int ->
  0 <= mq <= GoInt.max_int ->
  let init := {| shared := fresh mr mq rc rd; pool := [] |} in
  leaked init = 0 /\
  0 <= leaked (sys_run before init) /\
  leaked (sys_run before init) <= leaked (sys_run (before ++ after) init) /\
  leaked (sys_run (before ++ after) init) <= mq.
Proof.
  intros HmaxR HmaxQ init.
  assert (Hinit : sys_inv (fresh mr mq rc rd) init).
  { unfold sys_inv, same_policy, forwarded, reserved. cbn. repeat split; lia. }
  assert (Hmono : forall sched sys, sys_inv (fresh mr mq rc rd) sys ->
            leaked sys <= leaked (sys_run sched sys)).
  { induction sched as [|a sched IH]; intros sys Hinv; [cbn; lia|].
    unfold sys_run in *. cbn [fold_left].
    pose proof (leaked_step (fresh mr mq rc rd) sys a HmaxR HmaxQ Hinv).
    pose proof (sys_inv_step (fresh mr mq rc rd) sys a HmaxR HmaxQ Hinv) as Hnext.
    specialize (IH _ Hnext). lia. }
  pose proof (sys_inv_run (fresh mr mq rc rd) before HmaxR HmaxQ _ Hinit) as Hmid.
  pose proof (sys_inv_run (fresh mr mq rc rd) (before ++ after) HmaxR HmaxQ _ Hinit) as Hend.
  split; [reflexivity|]. split; [|split].
  - pose proof (Hmono before init Hinit). change (leaked init) with 0 in H. exact H.
  - unfold sys_run. rewrite fold_left_app. apply (Hmono after _ Hmid).
  - destruct Hend as (_ & _ & _ & Hres & HqLe). unfold leaked, reserved in *.
    cbn [fresh maxQueue] in HqLe. lia.
Qed.

(** A queue slot that no request holds any more is never given back: along
    every interleaving the number of such slots, [queueCount] less the
    reservations held, starts at zero, never goes down, and is at most
    [maxQueue]. *)
Theorem leaked_slots_never_return (mr mq rc : Z) (rd : Duration)
    (before after : list action) :
  0 <= mr <= GoInt.max_int ->
  0 <= mq <= GoInt.max_int ->
  let init := {| shared := fresh mr mq rc rd; pool := [] |} in
  leaked init = 0 /\
  0 <= leaked (sys_run before init) /\
  leaked (sys_run before init) <= leaked (sys_run (before ++ after) init) /\
  leaked (sys_run (before ++ after) init) <= mq.
Proof. exact (leaked_along_run mr mq rc rd before after). Qed.

Lemma leaked_slots_never_return_witness :
  0 <= 1 <= GoInt.max_int /\
  0 <= 1 <= GoInt.max_int /\
  leaked (sys_run [Arrive; Turn 0; Arrive; Turn 1]
            {| shared := fresh 1 1 1 Millisecond; pool := [] |})
  <= leaked (sys_run ([Arrive; Turn 0; Arrive; Turn 1] ++ [Turn 0; Arrive; Turn 2])
               {| shared := fresh 1 1 1 Millisecond; pool := [] |}).
Proof.
  assert (H1 : 0 <= 1 <= GoInt.max_int) by (unfold GoInt.max_int; lia).
  exact (conj H1 (conj H1
    (proj1 (proj2 (proj2 (leaked_slots_never_return 1 1 1 Millisecond
       [Arrive; Turn 0; Arrive; Turn 1] [Turn 0; Arrive; Turn 2] H1 H1)))))).
Defined.

(** A request that finds the endpoint busy and the queue full is rejected in
    that attempt, and the state is left as it is. *)
Lemma full_queue_rejects_at_once (s : endpointState) (attempt : Z) (queued : bool) :
  0 <= attempt ->
  maxRequests s <= requestsCount s ->
  maxQueue s <= queueCount s ->
  step s (AtLoop attempt queued false) =
    (s, Finished (Rejected StatusTooManyRequests),
     [Attempt attempt;
      Log LogLevelDebug "Queue limit reached for endpoint" None;
      WriteHeader StatusTooManyRequests]).
Proof.
  intros Hatt Hbusy Hfull. unfold step.
  apply Z.leb_le in Hatt. rewrite Hatt.
  apply Z.ltb_ge in Hbusy. rewrite Hbusy. cbn [negb].
  assert (Hno : (queueCount s <? maxQueue s) = false) by (apply Z.ltb_ge; lia).
  rewrite Hno. apply Z.leb_le in Hfull. rewrite Hfull. reflexivity.
Qed.

(** Once every slot of the queue is lost in this way the endpoint has no
    queue left for good: whatever happens afterwards [queueCount] stays at
    [maxQueue], no request holds a reservation, and a request that finds the
    endpoint busy is rejected in its first attempt. *)
Theorem lost_queue_stays_lost (mr mq rc : Z) (rd : Duration)
    (before after : list action) :
  0 <= mr <= GoInt.max_int ->
  0 <= mq <= GoInt.max_int ->
  let init := {| shared := fresh mr mq rc rd; pool := [] |} in
  leaked (sys_run before init) = mq ->
  let sys := sys_run (before ++ after) init in
  queueCount (shared sys) = mq /\
  reserved sys = 0 /\
  (0 <= rc -> maxRequests (shared sys) <= requestsCount (shared sys) ->
   step (shared sys) (start (shared sys)) =
     (shared sys, Finished (Rejected StatusTooManyRequests),
      [Attempt rc;
       Log LogLevelDebug "Queue limit reached for endpoint" None;
       WriteHeader StatusTooManyRequests])).
Proof.
  intros HmaxR HmaxQ init Hlost sys.
  pose proof (leaked_along_run mr mq rc rd before after HmaxR HmaxQ)
    as (_ & _ & Hmono & Hle).
  fold init in Hmono, Hle. fold sys in Hmono, Hle.
  assert (Hinit : sys_inv (fresh mr mq rc rd) init).
  { unfold sys_inv, same_policy, forwarded, reserved. cbn. repeat split; lia. }
  pose proof (sys_inv_run (fresh mr mq rc rd) (before ++ after) HmaxR HmaxQ _ Hinit)
    as ((_ & Hmq & Hrc & _) & _ & _ & Hres & HqLe).
  fold sys in Hmq, Hrc, Hres, HqLe. cbn [fresh maxQueue retryCount] in *.
  unfold leaked in *.
  assert (Hres0 : 0 <= reserved sys) by (unfold reserved; lia).
  assert (Hq : queueCount (shared sys) = mq) by lia.
  split; [exact Hq|]. split; [lia|].
  intros Hrc0 Hbusy. unfold start. rewrite Hrc.
  apply full_queue_rejects_at_once; [exact Hrc0|exact Hbusy|lia].
Qed.

Lemma lost_queue_stays_lost_witness :
  0 <= 1 <= GoInt.max_int /\
  leaked (sys_run [Arrive; Turn 0; Arrive; Turn 1]
            {| shared := fresh 1 1 1 Millisecond; pool := [] |}) = 1 /\
  queueCount (shared (sys_run ([Arrive; Turn 0; Arrive; Turn 1] ++ [Turn 0; Arrive; Turn 2])
                        {| shared := fresh 1 1 1 Millisecond; pool := [] |})) = 1.
Proof.
  assert (H1 : 0 <= 1 <= GoInt.max_int) by (unfold GoInt.max_int; lia).
  assert (H2 : leaked (sys_run [Arrive; Turn 0; Arrive; Turn 1]
            {| shared := fresh 1 1 1 Millisecond; pool := [] |}) = 1) by reflexivity.
  exact (conj H1 (conj H2
    (proj1 (lost_queue_stays_lost 1 1 1 Millisecond
       [Arrive; Turn 0; Arrive; Turn 1] [Turn 0; Arrive; Turn 2] H1 H1 H2)))).
Defined.

End EndpointMore.

(** ** The user tier *)

Section UserMore.
Import User.

Lemma release_many (l : list Z) :
  forall u : UserState,
    Z.of_nat (length l) <= requestsCount u <= GoInt.max_int ->
    fold_left (fun u _ => release u) l u =
      set_requestsCount (requestsCount u - Z.of_nat (length l)) u.
Proof.
  induction l as [|x l IH]; intros u Hu.
  - cbn [fold_left length]. rewrite Z.sub_0_r. destruct u. reflexivity.
  - cbn [fold_left length] in *.
    assert (Hdecr : GoInt.decr (requestsCount u) = requestsCount u - 1).
    { apply (decr_above _ 0); unfold GoInt.in_range, GoInt.min_int, GoInt.max_int in *; lia. }
    rewrite IH; unfold release; rewrite Hdecr; cbn [requestsCount set_requestsCount].
    + unfold set_requestsCount. cbn [maxRequests retryDelay requestsCount].
      replace (requestsCount u - 1 - Z.of_nat (length l))
        with (requestsCount u - Z.of_nat (S (length l))) by lia.
      reflexivity.
    + lia.
Qed.

Lemma filter_split_length (p : Z -> bool) (l : list Z) :
  (length (List.filter p l) + length (List.filter (fun t => negb (p t)) l))%nat = length l.
Proof.
  induction l as [|x l IH]; [reflexivity|].
  cbn [List.filter]. destruct (p x); cbn [negb length]; lia.
Qed.

Lemma world_inv_step (mr : Z) (rd : Duration) (w : world) (o : op) :
  GoInt.in_range mr ->
  world_inv mr rd w -> world_inv mr rd (apply_op w o).
Proof.
  intros Hmr (Hm & Hd & Hc & Hle). unfold GoInt.in_range in Hmr.
  destruct o as [userID|d]; cbn [apply_op].
  - unfold request, applyUserLimits_locked.
    destruct (maxRequests (state w) <=? requestsCount (state w)) eqn:Hfull.
    + cbn [fst state timers scheduled flat_map]. rewrite app_nil_r.
      repeat split; assumption.
    + apply Z.leb_gt in Hfull.
      assert (Hincr : GoInt.incr (requestsCount (state w)) = requestsCount (state w) + 1).
      { apply (incr_below _ (maxRequests (state w)));
          unfold GoInt.in_range, GoInt.min_int in *; lia. }
      unfold world_inv.
      cbn [fst state timers scheduled flat_map set_requestsCount maxRequests retryDelay
             requestsCount app].
      rewrite Hincr, length_app. cbn [length]. repeat split; try assumption; lia.
  - unfold elapse, world_inv. cbn [state timers].
    pose proof (filter_split_length (fun t => t <=? now w + d) (timers w)) as Hsplit.
    rewrite release_many by (unfold GoInt.max_int in *; lia).
    cbn [set_requestsCount maxRequests retryDelay requestsCount].
    repeat split; try assumption; lia.
Qed.

Lemma world_inv_run (mr : Z) (rd : Duration) (ops : list op) :
  GoInt.in_range mr ->
  forall w, world_inv mr rd w -> world_inv mr rd (world_run ops w).
Proof.
  intros Hmr. unfold world_run.
  induction ops as [|o ops IH]; intros w Hinv; [exact Hinv|].
  cbn [fold_left]. apply IH. apply world_inv_step; assumption.
Qed.

(** Whatever the history of requests and waits, the count of a user stays
    between zero and the ceiling and is the number of releases still to
    come; a user whose ceiling is zero or less is always rejected. *)
Theorem user_count_within_ceiling (mr : Z) (rd : Duration) (ops : list op) :
  GoInt.in_range mr ->
  let w := world_run ops (fresh_world mr rd) in
  requestsCount (state w) = Z.of_nat (length (timers w)) /\
  0 <= requestsCount (state w) <= Z.max 0 mr /\
  maxRequests (state w) = mr /\ retryDelay (state w) = rd /\
  (mr <= 0 -> forall userID, request userID w = (w, false)).
Proof.
  intros Hmr w.
  assert (Hinit : world_inv mr rd (fresh_world mr rd)).
  { unfold world_inv. cbn. repeat split; lia. }
  pose proof (world_inv_run mr rd ops Hmr _ Hinit) as (Hm & Hd & Hc & Hle).
  fold w in Hm, Hd, Hc, Hle.
  repeat split; try assumption; try lia.
  intros Hclosed userID. unfold request, applyUserLimits_locked.
  assert (Hfull : (maxRequests (state w) <=? requestsCount (state w)) = true)
    by (apply Z.leb_le; lia).
  rewrite Hfull. cbn [scheduled flat_map]. rewrite app_nil_r. destruct w. reflexivity.
Qed.

Lemma user_count_within_ceiling_witness :
  GoInt.in_range 2 /\
  0 <= requestsCount
         (state (world_run [Request "alice"; Request "alice"; Request "alice"; Elapse Second]
                   (fresh_world 2 Second)))
    <= Z.max 0 2.
Proof.
  assert (H1 : GoInt.in_range 2).
  { unfold GoInt.in_range, GoInt.min_int, GoInt.max_int. lia. }
  exact (conj H1
    (proj1 (proj2 (user_count_within_ceiling 2 Second
       [Request "alice"; Request "alice"; Request "alice"; Elapse Second] H1)))).
Defined.

(** *** The window *)

Lemma timers_bounded_step (rd : Duration) (w : world) (o : op) :
  0 <= rd -> forward_in_time o ->
  retryDelay (state w) = rd ->
  Forall (fun t => t <= now w + rd) (timers w) ->
  retryDelay (state (apply_op w o)) = rd /\
  Forall (fun t => t <= now (apply_op w o) + rd) (timers (apply_op w o)).
Proof.
  intros Hrd Ho Hd Hb. destruct o as [userID|d]; cbn [apply_op forward_in_time] in *.
  - unfold request, applyUserLimits_locked.
    destruct (maxRequests (state w) <=? requestsCount (state w)).
    + cbn [fst state timers now scheduled flat_map]. rewrite app_nil_r.
      split; assumption.
    + cbn [fst state timers now scheduled flat_map set_requestsCount retryDelay app].
      split; [exact Hd|]. apply Forall_app. split; [exact Hb|].
      constructor; [lia|constructor].
  - unfold elapse. cbn [state timers now]. split.
    + clear Hb. generalize (List.filter (fun t => t <=? now w + d) (timers w)).
      intros l. revert Hd. generalize (state w).
      induction l as [|x l IH]; intros u Hu; [exact Hu|].
      cbn [fold_left]. apply IH. exact Hu.
    + induction Hb as [|t l Ht Hl IH]; [constructor|].
      cbn [List.filter]. destruct (t <=? now w + d); cbn [negb]; [exact IH|].
      constructor; [lia|exact IH].
Qed.

Lemma timers_bounded_run (rd : Duration) (ops : list op) :
  0 <= rd -> Forall forward_in_time ops ->
  forall w,
    retryDelay (state w) = rd ->
    Forall (fun t => t <= now w + rd) (timers w) ->
    Forall (fun t => t <= now (world_run ops w) + rd) (timers (world_run ops w)).
Proof.
  intros Hrd Hops. unfold world_run.
  induction Hops as [|o ops Ho Hops IH]; intros w Hd Hb; [exact Hb|].
  cbn [fold_left].
  destruct (timers_bounded_step rd w o Hrd Ho Hd Hb) as [Hd1 Hb1].
  apply IH; assumption.
Qed.

(** The count is back at zero once [retryDelay] has passed with no request
    in it: every admission is released [retryDelay] after it was made,
    however many were made and whatever the requests have done since, and
    a user with a positive ceiling is then admitted again. *)
Theorem user_slots_free_after_delay (mr : Z) (rd : Duration) (ops : list op) :
  GoInt.in_range mr ->
  0 <= rd ->
  Forall forward_in_time ops ->
  let w := elapse rd (world_run ops (fresh_world mr rd)) in
  requestsCount (state w) = 0 /\ timers w = [] /\
  (0 < mr -> forall userID, snd (request userID w) = true).
Proof.
  intros Hmr Hrd Hops w.
  assert (Hinit : world_inv mr rd (fresh_world mr rd)).
  { unfold world_inv. cbn. repeat split; lia. }
  pose proof (world_inv_run mr rd ops Hmr _ Hinit) as Hinv.
  assert (Hb : Forall (fun t => t <= now (world_run ops (fresh_world mr rd)) + rd)
                      (timers (world_run ops (fresh_world mr rd)))).
  { apply timers_bounded_run; [exact Hrd|exact Hops|reflexivity|constructor]. }
  pose proof (world_inv_step mr rd _ (Elapse rd) Hmr Hinv) as (Hm & _ & Hc & _).
  cbn [apply_op] in Hm, Hc. fold w in Hm, Hc.
  assert (Hnone : timers w = []).
  { subst w. unfold elapse. cbn [timers]. clear Hm Hc Hinv.
    induction Hb as [|t l Ht Hl IH]; [reflexivity|].
    cbn [List.filter].
    assert (Hdue : (t <=? now (world_run ops (fresh_world mr rd)) + rd) = true)
      by (apply Z.leb_le; lia).
    rewrite Hdue. cbn [negb]. exact IH. }
  rewrite Hnone in Hc. cbn [length] in Hc.
  split; [exact Hc|]. split; [exact Hnone|].
  intros Hpos userID. unfold request, applyUserLimits_locked.
  assert (Hroom : (maxRequests (state w) <=? requestsCount (state w)) = false)
    by (apply Z.leb_gt; lia).
  rewrite Hroom. reflexivity.
Qed.

Lemma user_slots_free_after_delay_witness :
  GoInt.in_range 2 /\
  0 <= Second /\
  Forall forward_in_time [Request "alice"; Request "alice"; Elapse Millisecond; Request "alice"] /\
  requestsCount
    (state (elapse Second
              (world_run [Request "alice"; Request "alice"; Elapse Millisecond; Request "alice"]
                 (fresh_world 2 Second)))) = 0.
Proof.
  assert (H1 : GoInt.in_range 2).
  { unfold GoInt.in_range, GoInt.min_int, GoInt.max_int. lia. }
  assert (H2 : 0 <= Second) by (unfold Second; lia).
  assert (H3 : Forall forward_in_time
                 [Request "alice"; Request "alice"; Elapse Millisecond; Request "alice"]).
  { constructor; [exact I|]. constructor; [exact I|].
    constructor; [cbn; unfold Millisecond; lia|].
    constructor; [exact I|constructor]. }
  exact (conj H1 (conj H2 (conj H3
    (proj1 (user_slots_free_after_delay 2 Second
       [Request "alice"; Request "alice"; Elapse Millisecond; Request "alice"] H1 H2 H3))))).
Defined.

End UserMore.

Section ThrottleMore.

(** ** The two registries *)

Lemma set_limits_id (t : Throttle) : set_limits (limits t) t = t.
Proof. destruct t. reflexivity. Qed.

Lemma lookup2_insert_inner {A : Type} (m : gmap string (gmap string A))
    (inner : gmap string A) (k1 k2 k1' k2' : string) (a : A) :
  lookup2 m k1 k2' = inner !! k2' ->
  lookup2 (<[k1 := <[k2 := a]> inner]> m) k1' k2' =
    if decide (k1' = k1 /\ k2' = k2) then Some a
    else if decide (k1' = k1) then inner !! k2' else lookup2 m k1' k2'.
Proof.
  intros Hin. unfold lookup2.
  destruct (decide (k1' = k1)) as [->|Hne1].
  - rewrite lookup_insert_eq.
    destruct (decide (k2' = k2)) as [->|Hne2].
    + rewrite lookup_insert_eq. rewrite decide_True by (split; reflexivity). reflexivity.
    + rewrite lookup_insert_ne by congruence.
      rewrite decide_False by (intros [_ ?]; contradiction). reflexivity.
  - rewrite lookup_insert_ne by congruence.
    rewrite decide_False by (intros [? _]; contradiction). reflexivity.
Qed.

Lemma getEndpointConfig_spec (t : Throttle) (path method : string) :
  let t' := fst (getEndpointConfig t path method) in
  let st := snd (getEndpointConfig t path method) in
  lookup2 (limits t') path method = Some st /\
  st = default
         (Endpoint.fresh (MaxRequests (globalConfig t)) (MaxQueue (globalConfig t))
            (RetryCount (globalConfig t)) (retryDelayDuration (globalConfig t)))
         (lookup2 (limits t) path method) /\
  (forall p m, (p, m) <> (path, method) ->
     lookup2 (limits t') p m = lookup2 (limits t) p m) /\
  globalConfig t' = globalConfig t /\ endpointConfigs t' = endpointConfigs t /\
  userLimits t' = userLimits t /\ name t' = name t /\
  getEndpointConfig t' path method = (t', st).
Proof.
  intros t' st. subst t' st. unfold getEndpointConfig.
  destruct (limits t !! path) as [ms|] eqn:Hp.
  - destruct (ms !! method) as [st|] eqn:Hm.
    + cbn [fst snd]. rewrite set_limits_id.
      unfold lookup2. rewrite Hp, Hm. cbn [default].
      split_and!; rewrite ?set_limits_id; reflexivity.
    + cbn [fst snd set_limits limits globalConfig endpointConfigs userLimits name].
      split_and!; try reflexivity.
      * rewrite (lookup2_insert_inner (limits t) ms path method path method);
          [|unfold lookup2; rewrite Hp; reflexivity].
        rewrite decide_True by (split; reflexivity). reflexivity.
      * unfold lookup2. rewrite Hp, Hm. reflexivity.
      * intros p m Hne.
        destruct (decide (p = path)) as [->|Hnp].
        -- rewrite (lookup2_insert_inner (limits t) ms path method path m);
             [|unfold lookup2; rewrite Hp; reflexivity].
           rewrite decide_False by (intros [_ ->]; contradiction).
           rewrite decide_True by reflexivity. unfold lookup2. rewrite Hp. reflexivity.
        -- unfold lookup2. rewrite lookup_insert_ne by congruence. reflexivity.
      * rewrite lookup_insert_eq, lookup_insert_eq. reflexivity.
  - rewrite lookup_empty.
    cbn [fst snd set_limits limits globalConfig endpointConfigs userLimits name].
    split_and!; try reflexivity.
    + unfold lookup2. rewrite lookup_insert_eq, lookup_insert_eq. reflexivity.
    + unfold lookup2. rewrite Hp. reflexivity.
    + intros p m Hne. unfold lookup2.
      destruct (decide (p = path)) as [->|Hnp].
      * rewrite lookup_insert_eq, Hp. rewrite lookup_insert_ne by congruence.
        apply lookup_empty.
      * rewrite !lookup_insert_ne by congruence. reflexivity.
    + rewrite lookup_insert_eq, lookup_insert_eq. reflexivity.
Qed.

(** [getEndpointConfig] is get-or-create: the state it returns is the one
    registered under the key afterwards; it is the state that was there,
    counters included, or else a fresh state with the global limits; no
    other key and nothing else of the middleware changes; and asking again
    returns the same state and changes nothing. *)
Theorem getEndpointConfig_get_or_create (t : Throttle) (path method : string) :
  let t' := fst (getEndpointConfig t path method) in
  let st := snd (getEndpointConfig t path method) in
  lookup2 (limits t') path method = Some st /\
  st = default
         (Endpoint.fresh (MaxRequests (globalConfig t)) (MaxQueue (globalConfig t))
            (RetryCount (globalConfig t)) (retryDelayDuration (globalConfig t)))
         (lookup2 (limits t) path method) /\
  (forall p m, (p, m) <> (path, method) ->
     lookup2 (limits t') p m = lookup2 (limits t) p m) /\
  globalConfig t' = globalConfig t /\ endpointConfigs t' = endpointConfigs t /\
  userLimits t' = userLimits t /\ name t' = name t /\
  getEndpointConfig t' path method = (t', st).
Proof. exact (getEndpointConfig_spec t path method). Qed.

Lemma set_userLimits_limits (l : gmap string (gmap string User.UserState)) (t : Throttle) :
  limits (set_userLimits l t) = limits t /\
  globalConfig (set_userLimits l t) = globalConfig t /\
  endpointConfigs (set_userLimits l t) = endpointConfigs t /\
  name (set_userLimits l t) = name t.
Proof. repeat split. Qed.

Lemma applyUserLimits_eq (t : Throttle) (endpoint method userID : string) :
  applyUserLimits t endpoint method userID =
  (set_userLimits
     (<[userKey endpoint method :=
          <[userID := fst (fst (User.applyUserLimits_locked
                                  (userStateOf t endpoint method userID) userID))]>
            (default ∅ (userLimits t !! userKey endpoint method))]> (userLimits t)) t,
   snd (fst (User.applyUserLimits_locked (userStateOf t endpoint method userID) userID)),
   snd (User.applyUserLimits_locked (userStateOf t endpoint method userID) userID)).
Proof.
  unfold applyUserLimits, userStateOf, lookup2. fold (userKey endpoint method).
  destruct (userLimits t !! userKey endpoint method) as [users|];
    cbn [default from_option id].
  - destruct (users !! userID) as [u|]; cbn [default from_option id];
      destruct (User.applyUserLimits_locked _ userID) as [[u' ok] ev]; reflexivity.
  - rewrite lookup_empty. cbn [default from_option id].
    destruct (User.applyUserLimits_locked _ userID) as [[u' ok] ev]; reflexivity.
Qed.

Lemma applyUserLimits_lookup (t : Throttle) (endpoint method userID k u : string) :
  lookup2 (userLimits (fst (fst (applyUserLimits t endpoint method userID)))) k u =
  if decide (k = userKey endpoint method /\ u = userID)
  then Some (fst (fst (User.applyUserLimits_locked
                         (userStateOf t endpoint method userID) userID)))
  else lookup2 (userLimits t) k u.
Proof.
  rewrite applyUserLimits_eq. cbn [fst snd set_userLimits userLimits].
  rewrite (lookup2_insert_inner (userLimits t)
             (default ∅ (userLimits t !! userKey endpoint method))
             (userKey endpoint method) userID k u).
  - destruct (decide (k = userKey endpoint method /\ u = userID)); [reflexivity|].
    destruct (decide (k = userKey endpoint method)) as [->|]; [|reflexivity].
    unfold lookup2. destruct (userLimits t !! userKey endpoint method); reflexivity.
  - unfold lookup2. destruct (userLimits t !! userKey endpoint method); reflexivity.
Qed.

Lemma newUserState_configs (t t' : Throttle) (endpoint method : string) :
  globalConfig t' = globalConfig t -> endpointConfigs t' = endpointConfigs t ->
  newUserState t' endpoint method = newUserState t endpoint method.
Proof. intros Hg He. unfold newUserState. rewrite Hg, He. reflexivity. Qed.

(** A request of one user under one key changes the user tier for nobody
    else: the state registered for any other user, or for the same user
    under another key, is as it was, the verdict on their next request and
    what it logs and schedules are what they would have been, and the
    endpoint registry and the configuration are untouched. *)
Theorem other_users_unaffected (t : Throttle) (e1 m1 u1 e2 m2 u2 : string) :
  (userKey e1 m1, u1) <> (userKey e2 m2, u2) ->
  let t1 := fst (fst (applyUserLimits t e1 m1 u1)) in
  lookup2 (userLimits t1) (userKey e2 m2) u2 = lookup2 (userLimits t) (userKey e2 m2) u2 /\
  snd (fst (applyUserLimits t1 e2 m2 u2)) = snd (fst (applyUserLimits t e2 m2 u2)) /\
  snd (applyUserLimits t1 e2 m2 u2) = snd (applyUserLimits t e2 m2 u2) /\
  limits t1 = limits t /\ globalConfig t1 = globalConfig t /\
  endpointConfigs t1 = endpointConfigs t.
Proof.
  intros Hne t1.
  assert (Hlk : lookup2 (userLimits t1) (userKey e2 m2) u2 =
                lookup2 (userLimits t) (userKey e2 m2) u2).
  { subst t1. rewrite applyUserLimits_lookup.
    rewrite decide_False; [reflexivity|].
    intros [Hk Hu]. apply Hne. rewrite Hk, Hu. reflexivity. }
  assert (Hrest : limits t1 = limits t /\ globalConfig t1 = globalConfig t /\
                  endpointConfigs t1 = endpointConfigs t).
  { subst t1. rewrite applyUserLimits_eq. cbn [fst]. repeat split. }
  destruct Hrest as (Hl & Hg & He).
  assert (Hst : userStateOf t1 e2 m2 u2 = userStateOf t e2 m2 u2).
  { unfold userStateOf. rewrite Hlk, (newUserState_configs t t1 e2 m2 Hg He). reflexivity. }
  split; [exact Hlk|].
  rewrite (applyUserLimits_eq t1 e2 m2 u2), (applyUserLimits_eq t e2 m2 u2).
  cbn [fst snd]. rewrite Hst. repeat split; assumption.
Qed.

Lemma other_users_unaffected_witness :
  (userKey "/api" "GET", "alice") <> (userKey "/api" "GET", "bob") /\
  snd (fst (applyUserLimits
              (fst (fst (applyUserLimits Sample.default_throttle "/api" "GET" "alice")))
              "/api" "GET" "bob")) =
  snd (fst (applyUserLimits Sample.default_throttle "/api" "GET" "bob")).
Proof.
  assert (Hne : (userKey "/api" "GET", "alice") <> (userKey "/api" "GET", "bob"))
    by (intros [= Heq]).
  exact (conj Hne
    (proj1 (proj2 (other_users_unaffected Sample.default_throttle
                     "/api" "GET" "alice" "/api" "GET" "bob" Hne)))).
Defined.

Lemma append_cons (c : ascii) (a b : string) : String c a +:+ b = String c (a +:+ b).
Proof. reflexivity. Qed.

Lemma append_nil (b : string) : "" +:+ b = b.
Proof. reflexivity. Qed.

Lemma contains_hash_app (a b : string) : contains_hash (a +:+ String "#" b) = true.
Proof.
  induction a as [|c a IH]; [reflexivity|].
  rewrite append_cons. cbn [contains_hash].
  destruct (Ascii.eqb c "#"); [reflexivity|exact IH].
Qed.

(** Two (endpoint, method) pairs share a key of the user registry only if
    they are the same pair, as long as neither method contains the
    separator [#]. *)
Theorem userKey_injective (e1 m1 e2 m2 : string) :
  contains_hash m1 = false -> contains_hash m2 = false ->
  userKey e1 m1 = userKey e2 m2 -> e1 = e2 /\ m1 = m2.
Proof.
  unfold userKey. revert e2.
  induction e1 as [|c1 e1 IH]; intros [|c2 e2] H1 H2 Heq;
    rewrite ?append_cons, ?append_nil in Heq.
  - injection Heq as Heq. split; [reflexivity|exact Heq].
  - injection Heq as Hc Heq. subst m1. rewrite contains_hash_app in H1. discriminate.
  - injection Heq as Hc Heq. subst m2. rewrite contains_hash_app in H2. discriminate.
  - injection Heq as Hc Heq. destruct (IH e2 H1 H2 Heq) as [-> ->].
    rewrite Hc. split; reflexivity.
Qed.

Lemma userKey_injective_witness :
  contains_hash "GET" = false /\ contains_hash "GET" = false /\
  userKey "/api" "GET" = userKey "/api" "GET" /\
  ("/api" = "/api" /\ "GET" = "GET").
Proof.
  exact (conj eq_refl (conj eq_refl (conj eq_refl
    (userKey_injective "/api" "GET" "/api" "GET" eq_refl eq_refl eq_refl)))).
Defined.

(** ** [ServeHTTP] *)

Lemma getEndpointConfig_same (t t' : Throttle) (path method : string) :
  limits t' = limits t -> globalConfig t' = globalConfig t ->
  snd (getEndpointConfig t' path method) = snd (getEndpointConfig t path method).
Proof.
  intros Hl Hg.
  destruct (getEndpointConfig_spec t path method) as (_ & -> & _).
  destruct (getEndpointConfig_spec t' path method) as (_ & -> & _).
  rewrite Hl, Hg. reflexivity.
Qed.

Lemma userStateOf_same (t t' : Throttle) (endpoint method userID : string) :
  userLimits t' = userLimits t -> globalConfig t' = globalConfig t ->
  endpointConfigs t' = endpointConfigs t ->
  userStateOf t' endpoint method userID = userStateOf t endpoint method userID.
Proof.
  intros Hu Hg He. unfold userStateOf.
  rewrite Hu, (newUserState_configs t t' endpoint method Hg He). reflexivity.
Qed.

Lemma userStateOf_applyUserLimits (t : Throttle) (endpoint method userID : string) :
  userStateOf (fst (fst (applyUserLimits t endpoint method userID))) endpoint method userID =
  fst (fst (User.applyUserLimits_locked (userStateOf t endpoint method userID) userID)).
Proof.
  unfold userStateOf at 1. rewrite applyUserLimits_lookup.
  rewrite decide_True by (split; reflexivity). reflexivity.
Qed.

Section Serving.
Context `{Runtime}.

(** A request of an identified user whose count is at the ceiling is
    answered 429 by the user tier and goes no further: the endpoint tier is
    not consulted, no endpoint state is created or touched, the user's
    state is as it was, and nothing is scheduled. *)
Theorem user_rejection_skips_endpoint_tier (t : Throttle) (req : Request) (userID : string) :
  fst (getUserIDFromJWT req) = userID ->
  userID <> "" ->
  User.maxRequests (userStateOf t (Path req) (Method req) userID) <=
    User.requestsCount (userStateOf t (Path req) (Method req) userID) ->
  let t' := fst (fst (ServeHTTP t req)) in
  snd (ServeHTTP t req) = UserRejected /\
  snd (fst (ServeHTTP t req)) =
    [HeaderAdd "x-throttle-level" "user";
     Log LogLevelDebug ("User " +:+ userID +:+ " exceeded max requests") None;
     WriteHeader StatusTooManyRequests] /\
  limits t' = limits t /\
  userStateOf t' (Path req) (Method req) userID =
    userStateOf t (Path req) (Method req) userID.
Proof.
  intros Hid Hne Hfull t'. subst t'. unfold ServeHTTP.
  destruct (getUserIDFromJWT req) as [uid e]. cbn [fst] in Hid. subst uid.
  apply String.eqb_neq in Hne. rewrite Hne.
  pose proof (userStateOf_applyUserLimits t (Path req) (Method req) userID) as Hst.
  rewrite (applyUserLimits_eq t (Path req) (Method req) userID) in *.
  unfold User.applyUserLimits_locked in *.
  apply Z.leb_le in Hfull. rewrite Hfull in *. cbn [fst snd negb] in *.
  repeat split. exact Hst.
Qed.

(** A request of an identified user whose count is below the ceiling goes
    on to the endpoint tier with the state the key has there, the same an
    anonymous request would meet; by then the user's count has gone up by
    one and its release after the user retry delay is scheduled, whatever
    the endpoint tier is going to decide. *)
Theorem admitted_user_reaches_endpoint_tier (t : Throttle) (req : Request) (userID : string) :
  fst (getUserIDFromJWT req) = userID ->
  userID <> "" ->
  User.requestsCount (userStateOf t (Path req) (Method req) userID) <
    User.maxRequests (userStateOf t (Path req) (Method req) userID) ->
  let t' := fst (fst (ServeHTTP t req)) in
  let before := userStateOf t (Path req) (Method req) userID in
  snd (ServeHTTP t req) =
    ToEndpoint (Path req) (Method req)
      (Endpoint.start (snd (getEndpointConfig t (Path req) (Method req)))) /\
  snd (fst (ServeHTTP t req)) =
    [HeaderAdd "x-throttle-level" "user"; AfterFunc (User.retryDelay before);
     HeaderAdd "x-throttle-level" "endpoint or global"] /\
  lookup2 (limits t') (Path req) (Method req) =
    Some (snd (getEndpointConfig t (Path req) (Method req))) /\
  userStateOf t' (Path req) (Method req) userID =
    User.set_requestsCount (GoInt.incr (User.requestsCount before)) before.
Proof.
  intros Hid Hne Hroom t' before. subst t' before. unfold ServeHTTP.
  destruct (getUserIDFromJWT req) as [uid e]. cbn [fst] in Hid. subst uid.
  apply String.eqb_neq in Hne. rewrite Hne.
  pose proof (userStateOf_applyUserLimits t (Path req) (Method req) userID) as Hst.
  destruct (applyUserLimits t (Path req) (Method req) userID) as [[t1 ok] ev] eqn:Happ.
  pose proof (applyUserLimits_eq t (Path req) (Method req) userID) as Heq.
  rewrite Happ in Heq. cbn [fst] in Hst.
  unfold User.applyUserLimits_locked in Heq, Hst.
  apply Z.leb_gt in Hroom. rewrite Hroom in Heq, Hst.
  cbn [fst snd] in Heq, Hst. injection Heq as Ht1 Hok Hev. subst ok ev. cbn [negb].
  assert (Hl : limits t1 = limits t) by (rewrite Ht1; reflexivity).
  assert (Hg : globalConfig t1 = globalConfig t) by (rewrite Ht1; reflexivity).
  pose proof (getEndpointConfig_spec t1 (Path req) (Method req))
    as (Hreg & _ & _ & Hg2 & He2 & Hu2 & _).
  pose proof (getEndpointConfig_same t t1 (Path req) (Method req) Hl Hg) as Hsame.
  destruct (getEndpointConfig t1 (Path req) (Method req)) as [t2 st] eqn:Hget.
  cbn [fst snd] in *. subst st.
  repeat split.
  - exact Hreg.
  - rewrite (userStateOf_same t1 t2 _ _ _ Hu2 Hg2 He2). exact Hst.
Qed.

End Serving.

(** ** What [New] hands to the requests *)

Section Handler.
Context `{Runtime}.

Lemma New_returns (config : option Config) (name : string) (th : Throttle) :
  snd (New config name) = Returns (Ok th) ->
  let eff := fst (effectiveConfig config) in
  nil_free (Endpoints eff) /\
  globalConfig th =
    set_Endpoints (resolvedEndpoints (Endpoints eff))
      (set_durations (fst (parseDurationOrDefault (RetryDelay eff) Millisecond))
         (fst (parseDurationOrDefault (UserRetryDelay eff) Second)) eff) /\
  endpointConfigs th = resolvedEndpoints (Endpoints eff) /\
  limits th = newLimits (Endpoints eff) /\
  userLimits th = ∅.
Proof.
  intros Hth eff. pose proof (New_cases config name) as Hnew. cbn zeta in Hnew.
  fold eff in Hnew.
  destruct (snd (parseDurationOrDefault (RetryDelay eff) Millisecond)) as [e1|];
    [rewrite Hnew in Hth; discriminate|].
  destruct (snd (parseDurationOrDefault (UserRetryDelay eff) Second)) as [e2|];
    [rewrite Hnew in Hth; discriminate|].
  destruct Hnew as [Hok Hpanic].
  destruct (decide (nil_free (Endpoints eff))) as [Hnil|Hnil];
    [|rewrite (Hpanic Hnil) in Hth; discriminate].
  rewrite (Hok Hnil) in Hth. cbn [snd] in Hth. injection Hth as <-.
  repeat split. exact Hnil.
Qed.

Lemma newUserState_lookup2 (t : Throttle) (endpoint method : string) :
  newUserState t endpoint method =
  match default None (lookup2 (endpointConfigs t) endpoint method) with
  | Some endpointConfig =>
      {| User.maxRequests :=
           if 0 <? UserMaxRequests endpointConfig
           then UserMaxRequests endpointConfig else UserMaxRequests (globalConfig t);
         User.retryDelay := userRetryDelayDuration endpointConfig;
         User.requestsCount := 0 |}
  | None =>
      {| User.maxRequests := UserMaxRequests (globalConfig t);
         User.retryDelay := userRetryDelayDuration (globalConfig t);
         User.requestsCount := 0 |}
  end.
Proof.
  unfold newUserState, lookup2.
  destruct (endpointConfigs t !! endpoint) as [ms|]; reflexivity.
Qed.

(** A key the configuration has no override for is served under the global
    policy: its endpoint state is fresh with the global [maxRequests],
    [maxQueue] and [retryCount] and the global retry delay parsed (1 ms
    when the string is empty), and a user first seen there gets the global
    [userMaxRequests] and the global user retry delay parsed (1 s when the
    string is empty). *)
Theorem unlisted_keys_get_global_policy (config : option Config) (name : string)
    (th : Throttle) (path method : string) :
  snd (New config name) = Returns (Ok th) ->
  lookup2 (Endpoints (fst (effectiveConfig config))) path method = None ->
  let eff := fst (effectiveConfig config) in
  snd (getEndpointConfig th path method) =
    Endpoint.fresh (MaxRequests eff) (MaxQueue eff) (RetryCount eff)
      (fst (parseDurationOrDefault (RetryDelay eff) Millisecond)) /\
  newUserState th path method =
    {| User.maxRequests := UserMaxRequests eff;
       User.retryDelay := fst (parseDurationOrDefault (UserRetryDelay eff) Second);
       User.requestsCount := 0 |} /\
  (RetryDelay eff = "" ->
   Endpoint.retryDelay (snd (getEndpointConfig th path method)) = Millisecond) /\
  (UserRetryDelay eff = "" ->
   User.retryDelay (newUserState th path method) = Second).
Proof.
  intros Hth Hnone eff.
  destruct (New_returns config name th Hth) as (_ & Hg & He & Hl & _).
  fold eff in Hg, He, Hl, Hnone.
  assert (Hstate : snd (getEndpointConfig th path method) =
    Endpoint.fresh (MaxRequests eff) (MaxQueue eff) (RetryCount eff)
      (fst (parseDurationOrDefault (RetryDelay eff) Millisecond))).
  { destruct (getEndpointConfig_spec th path method) as (_ & -> & _).
    rewrite Hl, lookup2_newLimits, Hnone. cbn [mbind option_bind default].
    rewrite Hg. reflexivity. }
  assert (Huser : newUserState th path method =
    {| User.maxRequests := UserMaxRequests eff;
       User.retryDelay := fst (parseDurationOrDefault (UserRetryDelay eff) Second);
       User.requestsCount := 0 |}).
  { rewrite newUserState_lookup2, He, lookup2_resolved, Hnone.
    cbn [fmap option_fmap option_map default]. rewrite Hg. reflexivity. }
  split; [exact Hstate|]. split; [exact Huser|]. split.
  - intros Hempty. rewrite Hstate, Hempty. reflexivity.
  - intros Hempty. rewrite Huser, Hempty. reflexivity.
Qed.

(** *** A user ceiling of zero *)

Lemma served_app (reqs : list Request) (req : Request) (t : Throttle) :
  served (reqs ++ [req]) t = fst (fst (ServeHTTP (served reqs t) req)).
Proof. unfold served. rewrite fold_left_app. reflexivity. Qed.

Lemma served_events_cons (req : Request) (reqs : list Request) (t : Throttle) :
  served_events (req :: reqs) t =
  snd (fst (ServeHTTP t req)) ++ served_events reqs (fst (fst (ServeHTTP t req))).
Proof. reflexivity. Qed.

Lemma ServeHTTP_anonymous (t : Throttle) (req : Request) :
  fst (getUserIDFromJWT req) = "" ->
  ServeHTTP t req =
    (fst (getEndpointConfig t (Path req) (Method req)),
     [HeaderAdd "x-throttle-level" "endpoint"],
     ToEndpoint (Path req) (Method req)
       (Endpoint.start (snd (getEndpointConfig t (Path req) (Method req))))).
Proof.
  intros Hid. unfold ServeHTTP. destruct (getUserIDFromJWT req) as [uid e].
  cbn [fst] in Hid. subst uid. cbn [String.eqb].
  destruct (getEndpointConfig t (Path req) (Method req)). reflexivity.
Qed.

Lemma closed_step (t : Throttle) (req : Request) :
  (forall e m, User.maxRequests (newUserState t e m) <= 0) ->
  (forall k u s, lookup2 (userLimits t) k u = Some s ->
                 User.maxRequests s <= User.requestsCount s) ->
  let t' := fst (fst (ServeHTTP t req)) in
  (forall e m, User.maxRequests (newUserState t' e m) <= 0) /\
  (forall k u s, lookup2 (userLimits t') k u = Some s ->
                 User.maxRequests s <= User.requestsCount s) /\
  count_occ_afterFunc (snd (fst (ServeHTTP t req))) = 0%nat /\
  (fst (getUserIDFromJWT req) <> "" ->
   snd (ServeHTTP t req) = UserRejected /\
   In (WriteHeader StatusTooManyRequests) (snd (fst (ServeHTTP t req)))).
Proof.
  intros Hnew Hreg t'.
  destruct (String.eqb (fst (getUserIDFromJWT req)) "") eqn:Hid.
  - apply String.eqb_eq in Hid. subst t'. rewrite (ServeHTTP_anonymous t req Hid).
    cbn [fst snd].
    destruct (getEndpointConfig_spec t (Path req) (Method req))
      as (_ & _ & _ & Hg & He & Hu & _).
    split; [|split; [|split]].
    + intros e m. rewrite (newUserState_configs t _ e m Hg He). apply Hnew.
    + intros k u s. rewrite Hu. apply Hreg.
    + reflexivity.
    + intros Hne. contradiction.
  - apply String.eqb_neq in Hid.
    assert (Hfull : User.maxRequests
                      (userStateOf t (Path req) (Method req) (fst (getUserIDFromJWT req))) <=
                    User.requestsCount
                      (userStateOf t (Path req) (Method req) (fst (getUserIDFromJWT req)))).
    { unfold userStateOf.
      destruct (lookup2 (userLimits t) (userKey (Path req) (Method req))
                        (fst (getUserIDFromJWT req))) as [s|] eqn:Hs; cbn [default].
      - exact (Hreg _ _ _ Hs).
      - pose proof (Hnew (Path req) (Method req)) as Hle.
        rewrite newUserState_lookup2 in Hle |- *.
        destruct (default None (lookup2 (endpointConfigs t) (Path req) (Method req)));
          cbn [User.maxRequests User.requestsCount] in *; exact Hle. }
    assert (Hserve : ServeHTTP t req =
      (fst (fst (applyUserLimits t (Path req) (Method req) (fst (getUserIDFromJWT req)))),
       [HeaderAdd "x-throttle-level" "user";
        Log LogLevelDebug
            ("User " +:+ fst (getUserIDFromJWT req) +:+ " exceeded max requests") None;
        WriteHeader StatusTooManyRequests],
       UserRejected)).
    { unfold ServeHTTP. destruct (getUserIDFromJWT req) as [uid e]. cbn [fst] in *.
      apply String.eqb_neq in Hid. rewrite Hid.
      rewrite (applyUserLimits_eq t (Path req) (Method req) uid).
      unfold User.applyUserLimits_locked.
      apply Z.leb_le in Hfull. rewrite Hfull. reflexivity. }
    subst t'. rewrite Hserve. cbn [fst snd].
    split; [|split; [|split]].
    + intros e m. rewrite applyUserLimits_eq. cbn [fst].
      rewrite (newUserState_configs t _ e m); [apply Hnew|reflexivity|reflexivity].
    + intros k u s. rewrite applyUserLimits_lookup.
      destruct (decide _) as [[-> ->]|_]; [|apply Hreg].
      unfold User.applyUserLimits_locked.
      pose proof Hfull as Hfull'. apply Z.leb_le in Hfull'. rewrite Hfull'. cbn [fst].
      intros [= <-]. exact Hfull.
    + reflexivity.
    + intros _. split; [reflexivity|]. right. right. left. reflexivity.
Qed.

(** When the configuration in force has no positive [userMaxRequests],
    neither globally nor in an override (a policy file that leaves the
    field out yields this), no request that carries an identity is ever let
    through: whatever requests were served before, it is answered 429 by
    the user tier, and in the whole run no release is ever scheduled. *)
Theorem zero_user_ceiling_blocks_identified (config : option Config) (name : string)
    (th : Throttle) (reqs : list Request) (req : Request) :
  snd (New config name) = Returns (Ok th) ->
  UserMaxRequests (fst (effectiveConfig config)) <= 0 ->
  (forall path method ec,
     lookup2 (Endpoints (fst (effectiveConfig config))) path method = Some (Some ec) ->
     UserMaxRequests ec <= 0) ->
  fst (getUserIDFromJWT req) <> "" ->
  snd (ServeHTTP (served reqs th) req) = UserRejected /\
  In (WriteHeader StatusTooManyRequests) (snd (fst (ServeHTTP (served reqs th) req))) /\
  count_occ_afterFunc (served_events (reqs ++ [req]) th) = 0%nat.
Proof.
  intros Hth Hglobal Hover Hid.
  destruct (New_returns config name th Hth) as (_ & Hg & He & _ & Hu).
  set (eff := fst (effectiveConfig config)) in *.
  assert (Hnew : forall e m, User.maxRequests (newUserState th e m) <= 0).
  { intros e m. rewrite newUserState_lookup2, He, lookup2_resolved.
    destruct (lookup2 (Endpoints eff) e m) as [[ec|]|] eqn:Hlk;
      cbn [fmap option_fmap option_map default from_option id User.maxRequests].
    - unfold resolvedEndpointConfig. cbn [set_durations UserMaxRequests].
      pose proof (Hover e m ec Hlk) as Hle.
      destruct (0 <? UserMaxRequests ec) eqn:Hpos; [apply Z.ltb_lt in Hpos; lia|].
      rewrite Hg. exact Hglobal.
    - rewrite Hg. exact Hglobal.
    - rewrite Hg. exact Hglobal. }
  assert (Hreg : forall k u s, lookup2 (userLimits th) k u = Some s ->
                               User.maxRequests s <= User.requestsCount s).
  { intros k u s. rewrite Hu. unfold lookup2. rewrite lookup_empty. discriminate. }
  clear Hth Hg He Hu Hover Hglobal.
  revert th Hnew Hreg. induction reqs as [|r reqs IH]; intros th Hnew Hreg.
  - destruct (closed_step th req Hnew Hreg) as (_ & _ & Hno & Hrej).
    destruct (Hrej Hid) as [Hr Hin].
    cbn [served fold_left app]. rewrite served_events_cons. cbn [served_events].
    rewrite app_nil_r. split; [exact Hr|]. split; [exact Hin|exact Hno].
  - destruct (closed_step th r Hnew Hreg) as (Hnew' & Hreg' & Hno & _).
    destruct (IH _ Hnew' Hreg') as (Hrej & Hin & Hcount).
    cbn [served fold_left app] in *. split; [exact Hrej|]. split; [exact Hin|].
    rewrite served_events_cons. unfold count_occ_afterFunc in *.
    rewrite List.filter_app, length_app, Hno, Hcount. reflexivity.
Qed.

End Handler.

(** ** The identity of a request *)

Lemma substring_all (s : string) : String.substring 0 (String.length s) s = s.
Proof. induction s as [|c s IH]; [reflexivity|]. cbn. rewrite IH. reflexivity. Qed.

Lemma prefix_append (p s : string) : String.prefix p (p +:+ s) = true.
Proof.
  induction p as [|c p IH]; [destruct s; reflexivity|].
  rewrite append_cons. cbn [String.prefix].
  destruct (Ascii.ascii_dec c c) as [_|Hne]; [exact IH|contradiction].
Qed.

Lemma length_append (p s : string) :
  String.length (p +:+ s) = (String.length p + String.length s)%nat.
Proof.
  induction p as [|c p IH]; [reflexivity|].
  rewrite append_cons. cbn [String.length]. rewrite IH. reflexivity.
Qed.

Lemma substring_append (p s : string) (n : nat) :
  String.substring (String.length p) n (p +:+ s) = String.substring 0 n s.
Proof. induction p as [|c p IH]; [reflexivity|]. rewrite append_cons. exact IH. Qed.

Lemma TrimPrefix_append (p s : string) : TrimPrefix (p +:+ s) p = s.
Proof.
  unfold TrimPrefix, HasPrefix. rewrite prefix_append, length_append, substring_append.
  replace (String.length p + String.length s - String.length p)%nat
    with (String.length s) by lia.
  apply substring_all.
Qed.

Lemma prefix_split (p s : string) :
  String.prefix p s = true -> s = p +:+ TrimPrefix s p.
Proof.
  revert s. induction p as [|c p IH]; intros s Hp.
  - rewrite append_nil. unfold TrimPrefix, HasPrefix.
    destruct s; cbn [String.prefix String.length]; rewrite ?Nat.sub_0_r;
      symmetry; [reflexivity|apply (substring_all (String _ _))].
  - destruct s as [|d s]; [discriminate|]. cbn [String.prefix] in Hp.
    destruct (Ascii.ascii_dec c d) as [->|]; [|discriminate].
    rewrite append_cons. f_equal.
    rewrite (IH s Hp) at 1. f_equal.
    unfold TrimPrefix, HasPrefix. cbn [String.prefix].
    destruct (Ascii.ascii_dec d d) as [_|Hne]; [|contradiction].
    rewrite Hp. reflexivity.
Qed.

Section Identity.
Context `{Runtime}.

(** A request is identified exactly when its first [Authorization] value is
    [Bearer ] followed by a token that the parser decodes, without checking
    any signature, into map claims whose [sub] is a non-empty string; the
    identity is that string.  Nothing of the configuration enters: the
    [jwtSecret] is never consulted. *)
Theorem identified_iff_bearer_sub (req : Request) (userID : string) :
  fst (getUserIDFromJWT req) = userID /\ userID <> "" <->
  userID <> "" /\
  exists token claims,
    Header_Get req "Authorization" = "Bearer " +:+ token /\
    jwt_ParseUnverified token = Ok (MapClaims claims) /\
    claims !! "sub" = Some (JString userID).
Proof.
  unfold getUserIDFromJWT, HasPrefix. split.
  - intros [Hid Hne]. split; [exact Hne|].
    destruct (String.prefix "Bearer " (Header_Get req "Authorization")) eqn:Hp;
      cbn [negb] in Hid; [|cbn [fst] in Hid; congruence].
    exists (TrimPrefix (Header_Get req "Authorization") "Bearer ").
    destruct (jwt_ParseUnverified (TrimPrefix (Header_Get req "Authorization") "Bearer "))
      as [[claims|]|err] eqn:Hparse; try (cbn [fst] in Hid; congruence).
    exists claims. split; [exact (prefix_split _ _ Hp)|]. split; [reflexivity|].
    destruct (claims !! "sub") as [[s| | | |]|]; cbn [fst] in Hid; congruence.
  - intros (Hne & token & claims & Hhdr & Hparse & Hsub). split; [|exact Hne].
    rewrite Hhdr, prefix_append. cbn [negb].
    rewrite TrimPrefix_append, Hparse, Hsub. reflexivity.
Qed.

End Identity.

(** ** On the sample runtime *)

Lemma user_rejection_skips_endpoint_tier_witness :
  let busy := fst (fst (ServeHTTP (H := Sample.runtime)
                          Sample.default_throttle Sample.alice_request)) in
  fst (getUserIDFromJWT (H := Sample.runtime) Sample.alice_request) = "alice" /\
  "alice" <> "" /\
  snd (ServeHTTP (H := Sample.runtime) busy Sample.alice_request) = UserRejected.
Proof.
  intros busy.
  assert (Hid : fst (getUserIDFromJWT (H := Sample.runtime) Sample.alice_request) = "alice")
    by (vm_compute; reflexivity).
  assert (Hne : "alice" <> "") by discriminate.
  assert (Hfull : User.maxRequests (userStateOf busy "/api/v1/resource" "GET" "alice") <=
                  User.requestsCount (userStateOf busy "/api/v1/resource" "GET" "alice"))
    by (vm_compute; discriminate).
  exact (conj Hid (conj Hne
    (proj1 (user_rejection_skips_endpoint_tier (H := Sample.runtime)
              busy Sample.alice_request "alice" Hid Hne Hfull)))).
Defined.

Lemma admitted_user_reaches_endpoint_tier_witness :
  fst (getUserIDFromJWT (H := Sample.runtime) Sample.alice_request) = "alice" /\
  "alice" <> "" /\
  snd (ServeHTTP (H := Sample.runtime) Sample.default_throttle Sample.alice_request) =
    ToEndpoint "/api/v1/resource" "GET"
      (Endpoint.start (snd (getEndpointConfig Sample.default_throttle
                              "/api/v1/resource" "GET"))).
Proof.
  assert (Hid : fst (getUserIDFromJWT (H := Sample.runtime) Sample.alice_request) = "alice")
    by (vm_compute; reflexivity).
  assert (Hne : "alice" <> "") by discriminate.
  assert (Hroom : User.requestsCount
                    (userStateOf Sample.default_throttle "/api/v1/resource" "GET" "alice") <
                  User.maxRequests
                    (userStateOf Sample.default_throttle "/api/v1/resource" "GET" "alice"))
    by (vm_compute; reflexivity).
  exact (conj Hid (conj Hne
    (proj1 (admitted_user_reaches_endpoint_tier (H := Sample.runtime)
              Sample.default_throttle Sample.alice_request "alice" Hid Hne Hroom)))).
Defined.

Lemma unlisted_keys_get_global_policy_witness :
  match snd (New (H := Sample.runtime) (Some Sample.sparse_config) "throttle") with
  | Returns (Ok th) =>
      lookup2
        (Endpoints (fst (effectiveConfig (H := Sample.runtime) (Some Sample.sparse_config))))
        "/api/v1/resource" "POST" = None /\
      snd (getEndpointConfig th "/api/v1/resource" "POST") =
        Endpoint.fresh 10 5 3
          (fst (parseDurationOrDefault (H := Sample.runtime) "500ms" Millisecond))
  | _ => False
  end.
Proof.
  destruct (snd (New (H := Sample.runtime) (Some Sample.sparse_config) "throttle"))
    as [[th|err]|] eqn:Hnew; try (vm_compute in Hnew; discriminate).
  assert (Hnone : lookup2
    (Endpoints (fst (effectiveConfig (H := Sample.runtime) (Some Sample.sparse_config))))
    "/api/v1/resource" "POST" = None) by (vm_compute; reflexivity).
  exact (conj Hnone
    (proj1 (unlisted_keys_get_global_policy (H := Sample.runtime)
              (Some Sample.sparse_config) "throttle" th
              "/api/v1/resource" "POST" Hnew Hnone))).
Defined.

Lemma zero_user_ceiling_blocks_identified_witness :
  match snd (New (H := Sample.runtime) (Some Sample.no_user_ceiling) "throttle") with
  | Returns (Ok th) =>
      UserMaxRequests
        (fst (effectiveConfig (H := Sample.runtime) (Some Sample.no_user_ceiling))) <= 0 /\
      fst (getUserIDFromJWT (H := Sample.runtime) Sample.alice_request) <> "" /\
      snd (ServeHTTP (H := Sample.runtime)
             (served (H := Sample.runtime) [Sample.anonymous_request] th)
             Sample.alice_request) = UserRejected
  | _ => False
  end.
Proof.
  destruct (snd (New (H := Sample.runtime) (Some Sample.no_user_ceiling) "throttle"))
    as [[th|err]|] eqn:Hnew; try (vm_compute in Hnew; discriminate).
  assert (Hglobal : UserMaxRequests
    (fst (effectiveConfig (H := Sample.runtime) (Some Sample.no_user_ceiling))) <= 0)
    by (vm_compute; discriminate).
  assert (Hover : forall path method ec,
    lookup2 (Endpoints
               (fst (effectiveConfig (H := Sample.runtime) (Some Sample.no_user_ceiling))))
            path method = Some (Some ec) -> UserMaxRequests ec <= 0).
  { intros path method ec Hlk. unfold lookup2 in Hlk. cbn in Hlk.
    rewrite lookup_empty in Hlk. discriminate. }
  assert (Hid : fst (getUserIDFromJWT (H := Sample.runtime) Sample.alice_request) <> "")
    by (vm_compute; discriminate).
  exact (conj Hglobal (conj Hid
    (proj1 (zero_user_ceiling_blocks_identified (H := Sample.runtime)
              (Some Sample.no_user_ceiling) "throttle" th
              [Sample.anonymous_request] Sample.alice_request Hnew Hglobal Hover Hid)))).
Defined.

(** ** The two duration helpers *)

Section Durations.
Context `{Runtime}.

(** [parseDurationWithFallback] and [parseDurationOrDefault] return the
    same duration for every string that is not empty: the parsed one, or
    the fallback when [time.ParseDuration] rejects the string.  They part
    only on the empty string, which the second never hands to the parser. *)
Theorem fallback_agrees_with_default (value : string) (d : Duration) :
  value <> "" ->
  parseDurationWithFallback value d = fst (parseDurationOrDefault value d) /\
  (parseDurationWithFallback value d = d \/
   time_ParseDuration value = Ok (parseDurationWithFallback value d)).
Proof.
  intros Hne. unfold parseDurationWithFallback, parseDurationOrDefault.
  apply String.eqb_neq in Hne. rewrite Hne.
  destruct (time_ParseDuration value) as [v|err]; cbn [fst].
  - split; [reflexivity|]. right. reflexivity.
  - split; [reflexivity|]. left. reflexivity.
Qed.

End Durations.

Lemma fallback_agrees_with_default_witness :
  "300ms" <> "" /\
  parseDurationWithFallback (H := Sample.runtime) "300ms" Second =
    fst (parseDurationOrDefault (H := Sample.runtime) "300ms" Second).
Proof.
  assert (Hne : "300ms" <> "") by discriminate.
  exact (conj Hne
    (proj1 (fallback_agrees_with_default (H := Sample.runtime) "300ms" Second Hne))).
Defined.

End ThrottleMore.

(** ** [getEndpointConfig], alone and interleaved *)

Section RegistryMore.
Import Registry.

Lemma run_cons (path method : string) (i : nat) (schedule : list nat) (sys : system) :
  run path method (i :: schedule) sys = run path method schedule (turn path method sys i).
Proof. reflexivity. Qed.




Ltac next_turn tac :=
  rewrite run_cons; unfold turn; cbn -[run]; tac; cbn -[run].

(** Whatever the registry holds, a key whose path is registered and whose
    state is not can be given two states: two requests that both read
    [methodStates[method]] before either of them registers a state each
    create one from the global limits and register it, the second over the
    first.  Both are admitted, each against the counter of its own state,
    so both are in the upstream handler at once even when [maxRequests] is
    1; the state registered first is reachable only by the request that
    made it. *)
Theorem unrepeated_read_splits_state (path method : string) (r : registry)
    (m : nat) (entries : gmap string nat) :
  limits r !! path = Some m ->
  methodMaps r !! m = Some entries ->
  entries !! method = None ->
  Endpoint.requestsCount (globalState r) = 0 ->
  0 < Endpoint.maxRequests (globalState r) ->
  0 <= Endpoint.retryCount (globalState r) ->
  let sys := run path method [0; 1; 0; 1; 0; 1; 0; 1; 0; 1]%nat (two_lookups r) in
  let n := length (states r) in
  requests sys = [Admitting n Endpoint.InUpstream; Admitting (S n) Endpoint.InUpstream] /\
  forwarded sys = 2%nat /\
  states (reg sys) !! n = Some (Endpoint.set_requestsCount 1 (globalState r)) /\
  states (reg sys) !! S n = Some (Endpoint.set_requestsCount 1 (globalState r)) /\
  limits (reg sys) !! path = Some m /\
  methodMaps (reg sys) !! m = Some (<[method := S n]> entries).
Proof.
  intros Hpath Hmap Hmethod Hcount Hmax Hretry sys n. subst sys. unfold two_lookups.
  next_turn ltac:(rewrite Hpath).
  next_turn ltac:(rewrite Hpath).
  next_turn ltac:(rewrite Hmap; cbn -[run]; rewrite Hmethod).
  next_turn ltac:(rewrite Hmap; cbn -[run]; rewrite Hmethod).
  next_turn idtac.
  next_turn idtac.
  assert (Hl0 : ((states r ++ [globalState r]) ++ [globalState r]) !! length (states r)
                = Some (globalState r)).
  { rewrite lookup_app_l by (rewrite length_app; cbn; lia). apply list_lookup_middle.
    reflexivity. }
  assert (Hl1 : forall l, length l = S (length (states r)) ->
                  (l ++ [globalState r]) !! length (states r ++ [globalState r])
                  = Some (globalState r)).
  { intros l Hlen. apply list_lookup_middle. rewrite length_app, Hlen. cbn. lia. }
  next_turn ltac:(rewrite Hl0).
  next_turn ltac:(rewrite Hl1 by (rewrite length_app; cbn; lia)).
  assert (Hle : (0 <=? Endpoint.retryCount (globalState r)) = true) by (apply Z.leb_le; lia).
  assert (Hlt : (Endpoint.requestsCount (globalState r) <?
                 Endpoint.maxRequests (globalState r)) = true) by (apply Z.ltb_lt; lia).
  next_turn ltac:(rewrite Hl0; cbn -[run]; rewrite Hle, Hlt).
  next_turn ltac:(rewrite list_lookup_insert_ne by (rewrite length_app; cbn; lia);
                  rewrite Hl1 by (rewrite length_app; cbn; lia);
                  cbn -[run]; rewrite Hle, Hlt).
  cbn [run fold_left reg requests states limits methodMaps].
  assert (Hn : length (states r ++ [globalState r]) = S n)
    by (rewrite length_app; cbn; lia).
  rewrite Hn, Hcount. fold n.
  change (GoInt.incr 0) with 1.
  split; [reflexivity|]. split; [reflexivity|]. split; [|split; [|split]].
  - rewrite list_lookup_insert_ne by lia. apply list_lookup_insert_eq.
    rewrite !length_app. cbn. lia.
  - apply list_lookup_insert_eq. rewrite length_insert, !length_app. cbn. fold n. lia.
  - exact Hpath.
  - rewrite !list_lookup_alter_eq, Hmap. cbn. rewrite insert_insert_eq. reflexivity.
Qed.

Lemma unrepeated_read_splits_state_witness :
  let r := {| states := []; methodMaps := [∅]; limits := {[ "/orders" := 0%nat ]};
              globalState := Endpoint.fresh 1 0 3 (200 * Millisecond) |} in
  limits r !! "/orders" = Some 0%nat /\
  methodMaps r !! 0%nat = Some ∅ /\
  (∅ : gmap string nat) !! "GET" = None /\
  Endpoint.requestsCount (globalState r) = 0 /\
  0 < Endpoint.maxRequests (globalState r) /\
  0 <= Endpoint.retryCount (globalState r) /\
  forwarded (run "/orders" "GET" [0; 1; 0; 1; 0; 1; 0; 1; 0; 1]%nat (two_lookups r)) = 2%nat.
Proof.
  intros r.
  assert (Hmax : 0 < Endpoint.maxRequests (globalState r)) by reflexivity.
  assert (Hretry : 0 <= Endpoint.retryCount (globalState r)) by discriminate.
  exact (conj eq_refl (conj eq_refl (conj eq_refl (conj eq_refl (conj Hmax (conj Hretry
    (proj1 (proj2 (unrepeated_read_splits_state "/orders" "GET" r 0%nat ∅
                     eq_refl eq_refl eq_refl eq_refl Hmax Hretry))))))))).
Defined.

(** Left alone, [getEndpointConfig] does what it is meant to: on a registry
    without dangling pointers it never panics, it returns a state that the
    registry leads to from the key afterwards, that state is the one the
    key had, or a new one equal to the literal built from the global
    configuration when it had none, no state that existed is changed, and
    the registry it leaves has no dangling pointer either. *)
Theorem lone_lookup_registers (path method : string) (r : registry) :
  no_dangling r ->
  let r' := fst (lookup_alone path method r) in
  exists s st,
    snd (lookup_alone path method r) = Got s /\
    states r' !! s = Some st /\
    resolve r' path method = Some st /\
    st = default (globalState r) (resolve r path method) /\
    (exists more, states r' = states r ++ more) /\
    no_dangling r'.
Proof.
  intros [Hlim Hent] r'. subst r'. unfold lookup_alone, resolve.
  destruct (limits r !! path) as [m|] eqn:Hpath.
  - destruct (lookup_lt_is_Some_2 (methodMaps r) m (Hlim _ _ Hpath)) as [entries Hmap].
    cbn [lookup_step]. rewrite Hpath. cbn [lookup_step]. rewrite Hmap. cbn [default from_option id].
    destruct (entries !! method) as [s|] eqn:Hmethod.
    + cbn [lookup_step fst snd].
      destruct (lookup_lt_is_Some_2 (states r) s (Hent _ _ _ _ Hmap Hmethod)) as [st Hst].
      exists s, st. rewrite Hpath, Hmap, Hmethod, Hst. cbn [default from_option id].
      split_and!; try reflexivity.
      * exists []. rewrite app_nil_r. reflexivity.
      * split; assumption.
    + cbn [lookup_step fst snd states methodMaps limits globalState].
      exists (length (states r)), (globalState r).
      rewrite Hpath, list_lookup_alter_eq, Hmap. cbn [fmap option_fmap option_map].
      rewrite lookup_insert_eq.
      assert (Hnew : (states r ++ [globalState r]) !! length (states r) = Some (globalState r))
        by (apply list_lookup_middle; reflexivity).
      rewrite Hnew. cbn [default from_option id].
      split_and!; try reflexivity.
      * exists [globalState r]. reflexivity.
      * split; cbn [states methodMaps limits].
        -- intros p m' Hp. rewrite length_alter. exact (Hlim _ _ Hp).
        -- intros m' entries' k s Hm' Hk. rewrite length_app. cbn [length].
           destruct (decide (m' = m)) as [->|Hne].
           ++ rewrite list_lookup_alter_eq, Hmap in Hm'. injection Hm' as <-.
              destruct (decide (k = method)) as [->|Hnk].
              ** rewrite lookup_insert_eq in Hk. injection Hk as <-. lia.
              ** rewrite lookup_insert_ne in Hk by congruence.
                 pose proof (Hent _ _ _ _ Hmap Hk). lia.
           ++ rewrite list_lookup_alter_ne in Hm' by congruence.
              pose proof (Hent _ _ _ _ Hm' Hk). lia.
  - cbn [lookup_step]. rewrite Hpath. cbn [lookup_step]. rewrite Hpath.
    cbn [lookup_step methodMaps default from_option id].
    assert (Hnewmap : (methodMaps r ++ [∅]) !! length (methodMaps r)
                      = Some (∅ : gmap string nat))
      by (apply list_lookup_middle; reflexivity).
    rewrite Hnewmap. cbn [default from_option id]. rewrite lookup_empty.
    cbn [lookup_step fst snd states methodMaps limits globalState].
    exists (length (states r)), (globalState r).
    rewrite lookup_insert_eq, list_lookup_alter_eq, Hnewmap.
    cbn [fmap option_fmap option_map]. rewrite lookup_insert_eq.
    assert (Hnew : (states r ++ [globalState r]) !! length (states r) = Some (globalState r))
      by (apply list_lookup_middle; reflexivity).
    rewrite Hnew. cbn [default from_option id].
    split_and!; try reflexivity.
    + exists [globalState r]. reflexivity.
    + split; cbn [states methodMaps limits].
      * intros p m' Hp. rewrite length_alter, length_app. cbn [length].
        destruct (decide (p = path)) as [->|Hne].
        -- rewrite lookup_insert_eq in Hp. injection Hp as <-. lia.
        -- rewrite lookup_insert_ne in Hp by congruence. pose proof (Hlim _ _ Hp). lia.
      * intros m' entries' k s Hm' Hk. rewrite length_app. cbn [length].
        destruct (decide (m' = length (methodMaps r))) as [->|Hne].
        -- rewrite list_lookup_alter_eq, Hnewmap in Hm'. injection Hm' as <-.
           destruct (decide (k = method)) as [->|Hnk].
           ++ rewrite lookup_insert_eq in Hk. injection Hk as <-. lia.
           ++ rewrite lookup_insert_ne, lookup_empty in Hk by congruence. discriminate.
        -- rewrite list_lookup_alter_ne in Hm' by congruence.
           assert (Hlt : (m' < length (methodMaps r))%nat).
           { apply lookup_lt_Some in Hm'. rewrite length_app in Hm'. cbn in Hm'. lia. }
           rewrite lookup_app_l in Hm' by exact Hlt.
           pose proof (Hent _ _ _ _ Hm' Hk). lia.
Qed.

Lemma lone_lookup_registers_witness :
  no_dangling (reg two_arrivals) /\
  exists s st,
    snd (lookup_alone "/orders" "GET" (reg two_arrivals)) = Got s /\
    states (fst (lookup_alone "/orders" "GET" (reg two_arrivals))) !! s = Some st.
Proof.
  assert (Hwf : no_dangling (reg two_arrivals)).
  { split.
    - intros p m Hp. cbn in Hp. rewrite lookup_empty in Hp. discriminate.
    - intros m entries k s Hm. cbn in Hm. discriminate. }
  split; [exact Hwf|].
  destruct (lone_lookup_registers "/orders" "GET" (reg two_arrivals) Hwf)
    as (s & st & Hgot & Hst & _).
  exists s, st. split; assumption.
Defined.

(** C1 (code bug): the ceiling of a key is not kept.  Whatever the registry
    holds, two first requests to a key whose path is not registered yet can
    both reach the upstream handler at once although [maxRequests] is 1:
    the one registers the path, both then read [methodStates[method]] and
    find no state, each makes a state from the global limits and registers
    it, the second over the first, and each is admitted against the counter
    of its own state, which stands at 1 in both. *)
Theorem key_ceiling_exceeded (path method : string) (r : registry) :
  limits r !! path = None ->
  Endpoint.requestsCount (globalState r) = 0 ->
  Endpoint.maxRequests (globalState r) = 1 ->
  0 <= Endpoint.retryCount (globalState r) ->
  let sys := run path method [0; 0; 1; 0; 1; 0; 1; 0; 1; 0; 1]%nat (two_lookups r) in
  let n := length (states r) in
  requests sys = [Admitting n Endpoint.InUpstream; Admitting (S n) Endpoint.InUpstream] /\
  forwarded sys = 2%nat /\
  Endpoint.maxRequests (globalState (reg sys)) < Z.of_nat (forwarded sys) /\
  states (reg sys) !! n = Some (Endpoint.set_requestsCount 1 (globalState r)) /\
  states (reg sys) !! S n = Some (Endpoint.set_requestsCount 1 (globalState r)) /\
  resolve (reg sys) path method = Some (Endpoint.set_requestsCount 1 (globalState r)) /\
  limits (reg sys) !! path = Some (length (methodMaps r)) /\
  methodMaps (reg sys) !! length (methodMaps r) = Some {[ method := S n ]}.
Proof.
  intros Hpath Hcount Hmax Hretry sys n. subst sys. unfold two_lookups.
  assert (Hnewmap : forall f : gmap string nat -> gmap string nat,
            (methodMaps r ++ [∅]) !! length (methodMaps r) = Some (∅ : gmap string nat))
    by (intros _; apply list_lookup_middle; reflexivity).
  specialize (Hnewmap id).
  next_turn ltac:(rewrite Hpath).
  next_turn ltac:(rewrite Hpath).
  next_turn ltac:(rewrite lookup_insert_eq).
  next_turn ltac:(rewrite Hnewmap; cbn -[run]; rewrite lookup_empty).
  next_turn ltac:(rewrite Hnewmap; cbn -[run]; rewrite lookup_empty).
  next_turn idtac.
  next_turn idtac.
  assert (Hl0 : ((states r ++ [globalState r]) ++ [globalState r]) !! length (states r)
                = Some (globalState r)).
  { rewrite lookup_app_l by (rewrite length_app; cbn; lia). apply list_lookup_middle.
    reflexivity. }
  assert (Hl1 : forall l, length l = S (length (states r)) ->
                  (l ++ [globalState r]) !! length (states r ++ [globalState r])
                  = Some (globalState r)).
  { intros l Hlen. apply list_lookup_middle. rewrite length_app, Hlen. cbn. lia. }
  next_turn ltac:(rewrite Hl0).
  next_turn ltac:(rewrite Hl1 by (rewrite length_app; cbn; lia)).
  assert (Hle : (0 <=? Endpoint.retryCount (globalState r)) = true) by (apply Z.leb_le; lia).
  assert (Hlt : (Endpoint.requestsCount (globalState r) <?
                 Endpoint.maxRequests (globalState r)) = true) by (apply Z.ltb_lt; lia).
  next_turn ltac:(rewrite Hl0; cbn -[run]; rewrite Hle, Hlt).
  next_turn ltac:(rewrite list_lookup_insert_ne by (rewrite length_app; cbn; lia);
                  rewrite Hl1 by (rewrite length_app; cbn; lia);
                  cbn -[run]; rewrite Hle, Hlt).
  cbn [run fold_left reg requests states limits methodMaps globalState].
  assert (Hn : length (states r ++ [globalState r]) = S n)
    by (rewrite length_app; cbn; lia).
  rewrite Hn, Hcount. fold n.
  change (GoInt.incr 0) with 1.
  assert (Hs1 : <[S n := Endpoint.set_requestsCount 1 (globalState r)]>
                  (<[n := Endpoint.set_requestsCount 1 (globalState r)]>
                     ((states r ++ [globalState r]) ++ [globalState r])) !! S n
                = Some (Endpoint.set_requestsCount 1 (globalState r))).
  { apply list_lookup_insert_eq. rewrite length_insert, !length_app. cbn. fold n. lia. }
  assert (Hmm : alter (fun entries : gmap string nat => <[method := S n]> entries)
                  (length (methodMaps r))
                  (alter (fun entries : gmap string nat => <[method := n]> entries)
                     (length (methodMaps r)) (methodMaps r ++ [∅]))
                !! length (methodMaps r) = Some {[ method := S n ]}).
  { rewrite !list_lookup_alter_eq, Hnewmap. cbn. rewrite insert_insert_eq. reflexivity. }
  split; [reflexivity|]. split; [reflexivity|]. split; [|split; [|split; [|split; [|split]]]].
  - rewrite Hmax. cbn. lia.
  - rewrite list_lookup_insert_ne by lia. apply list_lookup_insert_eq.
    rewrite !length_app. cbn. lia.
  - exact Hs1.
  - unfold resolve. cbn [limits methodMaps states]. rewrite lookup_insert_eq, Hmm.
    rewrite lookup_singleton_eq. exact Hs1.
  - apply lookup_insert_eq.
  - exact Hmm.
Qed.

Lemma key_ceiling_exceeded_witness :
  limits (reg two_arrivals) !! "/orders" = None /\
  Endpoint.requestsCount (globalState (reg two_arrivals)) = 0 /\
  Endpoint.maxRequests (globalState (reg two_arrivals)) = 1 /\
  0 <= Endpoint.retryCount (globalState (reg two_arrivals)) /\
  forwarded (run "/orders" "GET" [0; 0; 1; 0; 1; 0; 1; 0; 1; 0; 1]%nat
               (two_lookups (reg two_arrivals))) = 2%nat.
Proof.
  assert (Hretry : 0 <= Endpoint.retryCount (globalState (reg two_arrivals)))
    by discriminate.
  exact (conj eq_refl (conj eq_refl (conj eq_refl (conj Hretry
    (proj1 (proj2 (key_ceiling_exceeded "/orders" "GET" (reg two_arrivals)
                     eq_refl eq_refl eq_refl Hretry))))))).
Defined.

End RegistryMore.

Section UserRegistryFacts.
Import UserRegistry.

(** ** Lazy creation of the user state *)

Lemma user_run_cons (key userID : string) (i : nat) (schedule : list nat) (sys : system) :
  run key userID (i :: schedule) sys = run key userID schedule (turn key userID sys i).
Proof. reflexivity. Qed.

Ltac user_turn tac :=
  rewrite user_run_cons; unfold turn; cbn -[run]; tac; cbn -[run].

(** The read of [t.userLimits[key][userID]] is not repeated under the write
    lock: two requests of a user who has no state under the key yet, both
    past that read before either registers a state, each build and
    register one, the second over the first, and each is counted on its
    own state.  Both pass the user tier, even when the user's ceiling is
    one request; the state registered first is reachable only by the
    request that made it. *)
Theorem first_requests_of_user_both_pass (key userID : string) (r : registry)
    (m : nat) (entries : gmap string nat) :
  userLimits r !! key = Some m ->
  userMaps r !! m = Some entries ->
  entries !! userID = None ->
  User.requestsCount (newState r) = 0 ->
  0 < User.maxRequests (newState r) ->
  let sys := run key userID [0; 1; 0; 1; 0; 1]%nat (two_requests r) in
  let n := length (states r) in
  requests sys = [Done n true; Done (S n) true] /\
  admitted sys = 2%nat /\
  states (reg sys) !! n = Some (User.set_requestsCount 1 (newState r)) /\
  states (reg sys) !! S n = Some (User.set_requestsCount 1 (newState r)) /\
  userLimits (reg sys) !! key = Some m /\
  userMaps (reg sys) !! m = Some (<[userID := S n]> entries).
Proof.
  intros Hkey Hmap Huser Hcount Hmax sys n. subst sys. unfold two_requests.
  assert (Hread : readUser key userID r = AtUserInsert).
  { unfold readUser. rewrite Hkey, Hmap. cbn [default from_option id]. rewrite Huser.
    reflexivity. }
  user_turn ltac:(rewrite Hkey; cbn -[run]; rewrite Hread).
  user_turn ltac:(rewrite Hkey; cbn -[run]; rewrite Hread).
  user_turn ltac:(rewrite Hkey).
  user_turn ltac:(rewrite Hkey).
  assert (Hl0 : ((states r ++ [newState r]) ++ [newState r]) !! length (states r)
                = Some (newState r)).
  { rewrite lookup_app_l by (rewrite length_app; cbn; lia). apply list_lookup_middle.
    reflexivity. }
  assert (Hl1 : forall l, length l = S (length (states r)) ->
                  (l ++ [newState r]) !! length (states r ++ [newState r])
                  = Some (newState r)).
  { intros l Hlen. apply list_lookup_middle. rewrite length_app, Hlen. cbn. lia. }
  assert (Hroom : (User.maxRequests (newState r) <=? User.requestsCount (newState r)) = false)
    by (apply Z.leb_gt; lia).
  user_turn ltac:(rewrite Hl0; unfold User.applyUserLimits_locked; rewrite Hroom).
  user_turn ltac:(rewrite list_lookup_insert_ne by (rewrite length_app; cbn; lia);
                  rewrite Hl1 by (rewrite length_app; cbn; lia);
                  unfold User.applyUserLimits_locked; rewrite Hroom).
  cbn [run fold_left reg requests states userLimits userMaps].
  assert (Hn : length (states r ++ [newState r]) = S n)
    by (rewrite length_app; cbn; lia).
  rewrite Hn, Hcount. fold n.
  change (GoInt.incr 0) with 1.
  split; [reflexivity|]. split; [reflexivity|]. split; [|split; [|split]].
  - rewrite list_lookup_insert_ne by lia. apply list_lookup_insert_eq.
    rewrite !length_app. cbn. lia.
  - apply list_lookup_insert_eq. rewrite length_insert, !length_app. cbn. fold n. lia.
  - exact Hkey.
  - rewrite !list_lookup_alter_eq, Hmap. cbn. rewrite insert_insert_eq. reflexivity.
Qed.

Lemma first_requests_of_user_both_pass_witness :
  let r := {| states := []; userMaps := [∅];
              userLimits := {[ "/api/v1/resource#GET" := 0%nat ]};
              newState := {| User.maxRequests := 1; User.retryDelay := Second;
                             User.requestsCount := 0 |} |} in
  userLimits r !! "/api/v1/resource#GET" = Some 0%nat /\
  userMaps r !! 0%nat = Some ∅ /\
  (∅ : gmap string nat) !! "alice" = None /\
  User.requestsCount (newState r) = 0 /\
  0 < User.maxRequests (newState r) /\
  admitted (run "/api/v1/resource#GET" "alice" [0; 1; 0; 1; 0; 1]%nat (two_requests r))
    = 2%nat.
Proof.
  intros r.
  assert (Hmax : 0 < User.maxRequests (newState r)) by reflexivity.
  exact (conj eq_refl (conj eq_refl (conj eq_refl (conj eq_refl (conj Hmax
    (proj1 (proj2 (first_requests_of_user_both_pass "/api/v1/resource#GET" "alice" r 0%nat ∅
                     eq_refl eq_refl eq_refl eq_refl Hmax)))))))).
Defined.

End UserRegistryFacts.
